(** * benchmarking-tool: a shallow embedding of the load generator

    The development follows the Go packages of the repository:
    - [metrics]: the collector and its aggregated snapshot ([GetResults]);
    - [config]:  the parameter generators ([Generate]);
    - [runner]:  target selection, request execution and the scheduler.

    Go's [int], [int64] and [time.Duration] are 64-bit two's complement
    integers: they are modelled as [Z] with the wrap-around written out.
    [float64] is modelled by the kernel's binary64 numbers. *)

From stdpp Require Import gmap strings list pretty.
From Stdlib Require Import ZArith Ascii Floats Lia.

#[local] Open Scope string_scope.
#[local] Open Scope list_scope.
#[local] Open Scope Z_scope.

(** ** Machine integers *)

Module Int.

Definition min_int64 : Z := - 2 ^ 63.
Definition max_int64 : Z := 2 ^ 63 - 1.

(** The value an [int64] holds after an arithmetic result [x]. *)
Definition int64 (x : Z) : Z := (x + 2 ^ 63) mod 2 ^ 64 - 2 ^ 63.

(** The value a [uint64] holds after an arithmetic result [x]. *)
Definition uint64 (x : Z) : Z := x mod 2 ^ 64.

(** Go's [/] on [int64]: the quotient is truncated toward zero. *)
Definition quo (a b : Z) : Z := int64 (Z.quot a b).

Definition in_int64 (x : Z) : Prop := min_int64 <= x <= max_int64.

End Int.

(** ** Package metrics *)

Module metrics.
Import Int.

(** [time.Duration] is an [int64] count of nanoseconds; [Timestamp] is kept
    as an abstract instant. *)
Record MetricDetail : Type := {
  URL : string;
  Method : string;
  StatusCode : Z;
  Duration : Z;
  IsError : bool;
  ErrorMsg : string;
  Timestamp : Z
}.

Record Collector : Type := {
  allRequests : list MetricDetail
}.

Definition NewCollector : Collector := {| allRequests := [] |}.

(** [now] is the reading of [time.Now()] taken by the call. *)
Definition RecordRequest (c : Collector) (url method : string) (statusCode : Z)
    (duration : Z) (isError : bool) (errorMsg : string) (now : Z) : Collector :=
  {| allRequests := allRequests c ++
       [ {| URL := url; Method := method; StatusCode := statusCode;
            Duration := duration; IsError := isError; ErrorMsg := errorMsg;
            Timestamp := now |} ] |}.

Definition AppendDetail (c : Collector) (detail : MetricDetail) : Collector :=
  {| allRequests := allRequests c ++ [detail] |}.

(** A Go map field is [None] while it is nil and [Some m] once it was made. *)
Record AggregatedResults : Type := {
  TotalRequests : Z;
  SuccessfulRequests : Z;
  FailedRequests : Z;
  TotalDuration : Z;
  AvgDuration : Z;
  MinDuration : Z;
  MaxDuration : Z;
  StatusCodesCount : option (gmap Z Z);
  ErrorDetails : option (gmap string Z)
}.

(** [m[k]++] on a made map.  (A nil map would make Go panic; [GetResults]
    makes both maps before its loop.) *)
Definition incr `{Countable K} (k : K) (m : option (gmap K Z)) : option (gmap K Z) :=
  match m with
  | Some g => Some (<[ k := int64 (default 0 (g !! k) + 1) ]> g)
  | None => None
  end.

(** The test [r.IsError || r.StatusCode >= 400]. *)
Definition failed (r : MetricDetail) : bool :=
  IsError r || (400 <=? StatusCode r).

(** One iteration of the loop of [GetResults]. *)
Definition observe (res : AggregatedResults) (r : MetricDetail) : AggregatedResults :=
  {| TotalRequests := int64 (TotalRequests res + 1);
     SuccessfulRequests :=
       if failed r then SuccessfulRequests res
       else int64 (SuccessfulRequests res + 1);
     FailedRequests :=
       if failed r then int64 (FailedRequests res + 1)
       else FailedRequests res;
     TotalDuration := int64 (TotalDuration res + Duration r);
     AvgDuration := AvgDuration res;
     MinDuration :=
       if Duration r <? MinDuration res then Duration r else MinDuration res;
     MaxDuration :=
       if MaxDuration res <? Duration r then Duration r else MaxDuration res;
     StatusCodesCount := incr (StatusCode r) (StatusCodesCount res);
     ErrorDetails :=
       if failed r && negb (String.eqb (ErrorMsg r) "")
       then incr (ErrorMsg r) (ErrorDetails res)
       else ErrorDetails res |}.

(** The struct before the loop: zero fields, both maps made, [MinDuration]
    set to [min0]. *)
Definition initial (min0 : Z) : AggregatedResults :=
  {| TotalRequests := 0; SuccessfulRequests := 0; FailedRequests := 0;
     TotalDuration := 0; AvgDuration := 0; MinDuration := min0;
     MaxDuration := 0;
     StatusCodesCount := Some ∅; ErrorDetails := Some ∅ |}.

Definition set_AvgDuration (res : AggregatedResults) (v : Z) : AggregatedResults :=
  {| TotalRequests := TotalRequests res;
     SuccessfulRequests := SuccessfulRequests res;
     FailedRequests := FailedRequests res;
     TotalDuration := TotalDuration res; AvgDuration := v;
     MinDuration := MinDuration res; MaxDuration := MaxDuration res;
     StatusCodesCount := StatusCodesCount res;
     ErrorDetails := ErrorDetails res |}.

Definition set_MinDuration (res : AggregatedResults) (v : Z) : AggregatedResults :=
  {| TotalRequests := TotalRequests res;
     SuccessfulRequests := SuccessfulRequests res;
     FailedRequests := FailedRequests res;
     TotalDuration := TotalDuration res; AvgDuration := AvgDuration res;
     MinDuration := v; MaxDuration := MaxDuration res;
     StatusCodesCount := StatusCodesCount res;
     ErrorDetails := ErrorDetails res |}.

Definition GetResults (c : Collector) : AggregatedResults :=
  match allRequests c with
  | [] => initial 0
  | first :: _ =>
      let res := fold_left observe (allRequests c) (initial (Duration first)) in
      if 0 <? TotalRequests res
      then set_AvgDuration res (quo (TotalDuration res) (TotalRequests res))
      else set_MinDuration res 0
  end.

(** The collector after the records [rs] went through [AppendDetail], in
    order, starting from [NewCollector]. *)
Definition ingest (rs : list MetricDetail) : Collector :=
  fold_left AppendDetail rs NewCollector.

(** The number of records that [failed] holds of. *)
Definition count_failed (rs : list MetricDetail) : Z :=
  Z.of_nat (length (filter (fun r => failed r = true) rs)).

(** The exact (unbounded) sum of the durations. *)
Definition sum_durations (rs : list MetricDetail) : Z :=
  foldr (fun r acc => Duration r + acc) 0 rs.

(** Three records: a success, a 404 and a transport error. *)
Definition sample_records : list MetricDetail :=
  [ {| URL := "http://h/a"; Method := "GET"; StatusCode := 200;
       Duration := 25000000; IsError := false; ErrorMsg := ""; Timestamp := 1 |};
    {| URL := "http://h/b"; Method := "GET"; StatusCode := 404;
       Duration := 50000000; IsError := false; ErrorMsg := ""; Timestamp := 2 |};
    {| URL := "http://h/c"; Method := "POST"; StatusCode := 0;
       Duration := 75000000; IsError := true; ErrorMsg := "timeout";
       Timestamp := 3 |} ].

(** Two records of 2^62 ns each: every field is a valid [int64], the sum of
    the two durations is not. *)
Definition long_records : list MetricDetail :=
  [ {| URL := "http://h/a"; Method := "GET"; StatusCode := 200;
       Duration := 2 ^ 62; IsError := false; ErrorMsg := ""; Timestamp := 1 |};
    {| URL := "http://h/a"; Method := "GET"; StatusCode := 200;
       Duration := 2 ^ 62; IsError := false; ErrorMsg := ""; Timestamp := 2 |} ].

(** How many records have the status code [k]; how many failed records
    carry the message [msg]. *)
Definition count_status (k : Z) (rs : list MetricDetail) : Z :=
  Z.of_nat (length (filter (fun r => StatusCode r = k) rs)).

Definition count_message (msg : string) (rs : list MetricDetail) : Z :=
  Z.of_nat (length (filter (fun r => failed r = true /\ ErrorMsg r = msg) rs)).

(** The entry of a histogram for a key that was counted [n] times: a key
    never counted has no entry. *)
Definition entry_of (n : Z) : option Z := if n =? 0 then None else Some n.

(** A loop that counts in a map: [cond] says whether a record counts, [key]
    under which key; and the number of records of [rs] counted under [k]. *)
Definition tally `{Countable K} (cond : MetricDetail -> bool) (key : MetricDetail -> K)
    (m : option (gmap K Z)) (r : MetricDetail) : option (gmap K Z) :=
  if cond r then incr (key r) m else m.

Definition tally_count `{Countable K} (cond : MetricDetail -> bool)
    (key : MetricDetail -> K) (k : K) (rs : list MetricDetail) : Z :=
  Z.of_nat (length (filter (fun r => cond r = true /\ key r = k) rs)).

(** A swap of the first two sample records. *)
Definition sample_records_swapped : list MetricDetail :=
  match sample_records with
  | a :: b :: rest => b :: a :: rest
  | other => other
  end.

End metrics.

(** ** What a Go call does *)

(** A call returns its value with a nil error, returns an error, or
    panics. *)
Inductive outcome (A : Type) : Type :=
| Value (a : A)
| Error (msg : string)
| Panic (msg : string).
Arguments Value {A} a.
Arguments Error {A} msg.
Arguments Panic {A} msg.

(** Values of type [any] as the configuration and the generators hold them:
    [OfMap] is a [map[interface{}]interface{}], [OfStrMap] a
    [map[string]any]; both list their entries with distinct keys. *)
#[local] Unset Elimination Schemes.
Inductive any : Type :=
| Nil
| OfInt (n : Z)
| OfFloat (f : float)
| OfString (s : string)
| OfBool (b : bool)
| OfSlice (l : list any)
| OfMap (m : list (any * any))
| OfStrMap (m : list (string * any)).
#[local] Set Elimination Schemes.

(** [len] of a slice and of a string, as an [int]. *)
Definition len {A} (l : list A) : Z := Z.of_nat (length l).
Definition strlen (s : string) : Z := Z.of_nat (String.length s).

(** [l[i]] with the bounds check of the language. *)
Definition index (l : list any) (i : Z) : outcome any :=
  if (i <? 0) || (len l <=? i) then Panic "runtime error: index out of range"
  else Value (nth (Z.to_nat i) l Nil).

(** ** Package strings (of the standard library) *)

Module strings.

(** [strings.TrimSuffix(s, suffix)]: [s] without the trailing [suffix], or
    [s] itself when it does not end with [suffix]. *)
Fixpoint TrimSuffix (s suffix : string) : string :=
  match s with
  | EmptyString => EmptyString
  | String c s' =>
      if String.eqb s suffix then EmptyString else String c (TrimSuffix s' suffix)
  end.

(** The loop of [strings.ReplaceAll] for a non-empty [old]: [skip] bytes of
    the occurrence found last are still to be passed over. *)
Fixpoint replace_from (old new : string) (skip : nat) (s : string) : string :=
  match s with
  | EmptyString => EmptyString
  | String c s' =>
      match skip with
      | S k => replace_from old new k s'
      | O =>
          if String.prefix old s
          then (new ++ replace_from old new (String.length old - 1) s')%string
          else String c (replace_from old new 0 s')
      end
  end.

(** For an empty [old], [new] goes before every byte and after the last. *)
Fixpoint interleave (new s : string) : string :=
  match s with
  | EmptyString => new
  | String c s' => (new ++ String c (interleave new s'))%string
  end.

(** [strings.ReplaceAll(s, old, new)], on strings of one-byte characters:
    the occurrences of [old] that do not overlap, from the left. *)
Definition ReplaceAll (s old new : string) : string :=
  match old with
  | EmptyString => interleave new s
  | _ => replace_from old new 0 s
  end.

End strings.

(** ** crypto/rand *)

Module rand.

(** What one use of [rand.Reader] by [rand.Int] gives: a failure of the
    source, or randomness, kept as a natural number. *)
Inductive reading : Type :=
| Fails (msg : string)
| Number (raw : N).

(** The random source: its [k]-th use gives [src k]. *)
Definition Reader : Type := nat -> reading.

(** A computation that uses the random source: from the source and the
    number of uses so far to an outcome and the new number of uses. *)
Definition M (A : Type) : Type := Reader -> nat -> outcome A * nat.

Definition ret {A} (a : A) : M A := fun _ pos => (Value a, pos).

Definition lift {A} (o : outcome A) : M A := fun _ pos => (o, pos).

Definition bind {A B} (m : M A) (k : A -> M B) : M B :=
  fun src pos =>
    match m src pos with
    | (Value a, pos') => k a src pos'
    | (Error e, pos') => (Error e, pos')
    | (Panic p, pos') => (Panic p, pos')
    end.

(** [if err != nil { return nil, fmt.Errorf(prefix + "%w", err) }]. *)
Definition wrapping {A} (prefix : string) (m : M A) : M A :=
  fun src pos =>
    match m src pos with
    | (Error e, pos') => (Error (prefix ++ e)%string, pos')
    | r => r
    end.

(** [v, err := m; if err != nil { return handler(err) }], then [k v]. *)
Definition try {A B} (m : M A) (handler : string -> B) (k : A -> M B) : M B :=
  fun src pos =>
    match m src pos with
    | (Value a, pos') => k a src pos'
    | (Error e, pos') => (Value (handler e), pos')
    | (Panic p, pos') => (Panic p, pos')
    end.

(** [rand.Int(rand.Reader, max)]: panics when [max <= 0]; for [max = 1]
    returns 0 without reading the source; otherwise returns the error of the
    source when it fails, and else a number of [[0, max)]; every number of
    that range is the result for some randomness. *)
Definition Int (max : Z) : M Z :=
  fun src pos =>
    if max <=? 0 then (Panic "crypto/rand: argument to Int is <= 0", pos)
    else if max =? 1 then (Value 0, pos)
    else match src pos with
         | Fails e => (Error e, S pos)
         | Number raw => (Value (Z.of_N raw mod max), S pos)
         end.

(** The outcome of a computation on a fresh source. *)
Definition run {A} (m : M A) (src : Reader) : outcome A := fst (m src 0%nat).

End rand.

#[export] Instance rand_ret : MRet rand.M := @rand.ret.
#[export] Instance rand_bind : MBind rand.M := fun A B k m => rand.bind m k.

(** ** Package config: the parameter generators *)

Module config.
Import Int.

(** What the language leaves to the implementation. *)
Class Platform : Type := {
  (** the result of [int64(f)] for a NaN or a number outside [int64] *)
  unrepresentable : float -> Z;
  (** [runtime.maxAlloc]: the largest number of bytes that the runtime
      allocates at once; it depends on the width of the heap addresses *)
  maxAlloc : Z
}.

(** On amd64 the conversion gives the "integer indefinite" value, and heap
    addresses have 48 bits. *)
Definition amd64 : Platform :=
  {| unrepresentable := fun _ => min_int64; maxAlloc := 2 ^ 48 |}.

(** [int64(f)] and [int(f)]: the fraction is discarded. *)
Definition float64_to_int64 `{Platform} (f : float) : Z :=
  match Prim2SF f with
  | S754_zero _ => 0
  | S754_finite s m e =>
      let a := if 0 <=? e then Z.pos m * 2 ^ e else Z.quot (Z.pos m) (2 ^ (- e)) in
      let t := if s then - a else a in
      if (min_int64 <=? t) && (t <=? max_int64) then t else unrepresentable f
  | _ => unrepresentable f
  end.

(** [float64(n)]: the nearest binary64 number, ties to even. *)
Definition float64_of_int (n : Z) : float :=
  SF2Prim (binary_normalize prec emax n 0 false).

(** The interface [Generator]: a value with a [Generate] method. *)
Record Generator : Type := { Generate : rand.M any }.

(** *** StaticGenerator *)

Record StaticGenerator : Type := { Value_ : any }.

Definition StaticGenerator_Generate (g : StaticGenerator) : rand.M any :=
  mret (Value_ g).

(** *** RandomIntGenerator *)

Record RandomIntGenerator : Type := { Min : Z; Max : Z }.

Definition RandomIntGenerator_Generate (g : RandomIntGenerator) : rand.M any :=
  if Max g <=? Min g then mret (OfInt (Min g))
  else
    let rangeSize := int64 (Max g - Min g + 1) in
    num ← rand.wrapping "failed to generate random int: " (rand.Int rangeSize);
    mret (OfInt (int64 (Min g + num))).

(** *** ChoiceGenerator *)

Record ChoiceGenerator : Type := { Values : list any; Weights : list float }.

(** The loop over the weights: the index at which it returns, if it does.
    [i] is the index of the first weight of [weights], [cumulative] the sum
    before it. *)
Fixpoint walk (target : float) (i : Z) (cumulative : float)
    (weights : list float) : option Z :=
  match weights with
  | [] => None
  | weight :: rest =>
      let cumulative := PrimFloat.add cumulative weight in
      if PrimFloat.leb target cumulative then Some i
      else walk target (i + 1) cumulative rest
  end.

Definition generateWeightedChoice `{Platform} (g : ChoiceGenerator) : rand.M any :=
  let totalWeight := fold_left PrimFloat.add (Weights g) 0%float in
  if PrimFloat.leb totalWeight 0 then rand.lift (index (Values g) 0)
  else
    num ← rand.wrapping "failed to generate weighted choice: "
            (rand.Int (float64_to_int64 (PrimFloat.mul totalWeight 1000)));
    let target := PrimFloat.div (float64_of_int num) 1000 in
    match walk target 0 0%float (Weights g) with
    | Some i => rand.lift (index (Values g) i)
    | None => rand.lift (index (Values g) (len (Values g) - 1))
    end.

Definition ChoiceGenerator_Generate `{Platform} (g : ChoiceGenerator) : rand.M any :=
  if len (Values g) =? 0
  then rand.lift (Error "no values provided for choice generator")
  else if (0 <? len (Weights g)) && (len (Weights g) =? len (Values g))
  then generateWeightedChoice g
  else
    num ← rand.wrapping "failed to generate choice: " (rand.Int (len (Values g)));
    rand.lift (index (Values g) num).

(** *** RandomStringGenerator *)

Record RandomStringGenerator : Type := { Length : Z; Charset : string }.

Definition getCharset (charsetType : string) : string :=
  if String.eqb charsetType "alpha"
  then "abcdefghijklmnopqrstuvwxyzABCDEFGHIJKLMNOPQRSTUVWXYZ"
  else if String.eqb charsetType "alpha_lower" then "abcdefghijklmnopqrstuvwxyz"
  else if String.eqb charsetType "alpha_upper" then "ABCDEFGHIJKLMNOPQRSTUVWXYZ"
  else if String.eqb charsetType "numeric" then "0123456789"
  else if String.eqb charsetType "alphanumeric"
  then "abcdefghijklmnopqrstuvwxyzABCDEFGHIJKLMNOPQRSTUVWXYZ0123456789"
  else if String.eqb charsetType "hex" then "0123456789abcdef"
  else "abcdefghijklmnopqrstuvwxyzABCDEFGHIJKLMNOPQRSTUVWXYZ0123456789".

(** [make([]byte, n)]: [makeslice] panics for a negative length and for a
    length above [maxAlloc]; within the limit the allocation is taken to
    succeed. *)
Definition make_bytes `{Platform} (n : Z) : outcome (list ascii) :=
  if (n <? 0) || (maxAlloc <? n) then Panic "runtime error: makeslice: len out of range"
  else Value (replicate (Z.to_nat n) Ascii.zero).

(** [charset[i]] with the bounds check of the language. *)
Definition byte_at (charset : string) (i : Z) : outcome ascii :=
  if i <? 0 then Panic "runtime error: index out of range"
  else match String.get (Z.to_nat i) charset with
       | Some c => Value c
       | None => Panic "runtime error: index out of range"
       end.

(** The loop [for i := range result]: [todo] bytes are still to be drawn,
    [done] holds the bytes written so far. *)
Fixpoint fill (charset : string) (todo : list ascii) (done : list ascii)
    : rand.M (list ascii) :=
  match todo with
  | [] => mret done
  | _ :: todo' =>
      num ← rand.wrapping "failed to generate random string: "
              (rand.Int (strlen charset));
      c ← rand.lift (byte_at charset num);
      fill charset todo' (done ++ [c])
  end.

Definition RandomStringGenerator_Generate `{Platform} (g : RandomStringGenerator)
    : rand.M any :=
  let charset := getCharset (Charset g) in
  result ← rand.lift (make_bytes (Length g));
  bytes ← fill charset result [];
  mret (OfString (String.string_of_list_ascii bytes)).

(** *** The configuration *)

Module ExecutionConfig.
Record t : Type := {
  Mode : string;
  DurationSeconds : Z;
  RequestTimeoutMs : Z;
  RequestsPerSecond : Z
}.
End ExecutionConfig.

(** A nil [BodyParameters] is [Nil]. *)
Module EndpointConfig.
Record t : Type := {
  Path : string;
  Method : string;
  Headers : gmap string string;
  PathParameters : gmap string any;
  QueryParameters : gmap string any;
  BodyParameters : any
}.
Definition zero : t :=
  {| Path := ""; Method := ""; Headers := ∅; PathParameters := ∅;
     QueryParameters := ∅; BodyParameters := Nil |}.
End EndpointConfig.

Module EndpointSelectionConfig.
Record t : Type := {
  Strategy : string;
  Weights : gmap string float
}.
End EndpointSelectionConfig.

Record Config : Type := {
  BaseUrls : list string;
  Execution : ExecutionConfig.t;
  Endpoints : gmap string EndpointConfig.t;
  EndpointSelection : EndpointSelectionConfig.t
}.

(** A [for ... range m] visits the entries of the map [m] in an order the
    language does not fix, and which may change from one loop to the next:
    the list [visited] is one such order. *)
Definition ranges_over `{Countable K} {V} (visited : list (K * V)) (m : gmap K V) : Prop :=
  visited ≡ₚ map_to_list m.

(** *** From a definition to a generator *)

(** What this development takes from outside: functions of the standard
    library, and the generators of the kinds it does not go into
    (references, formatted integers, templates, objects and arrays), built
    from their definition map. *)
Class External : Type := {
  (** [strconv.Atoi]: the number, when there is no error *)
  Atoi : string -> option Z;
  (** [strconv.ParseFloat(s, 64)]: the number, when there is no error *)
  ParseFloat : string -> option float;
  (** [fmt.Sprintf("%v", value)] *)
  Sprintf_v : any -> string;
  (** [fmt.Sprintf("%T", value)] *)
  Sprintf_T : any -> string;
  other_generator : list (string * any) -> outcome Generator;
  (** [json.Marshal]: the bytes, or the error *)
  Marshal : any -> string + string;
  (** the error of [url.Parse], if any *)
  Parse_error : string -> option string;
  (** the URL as a string once the parameters of the list were [Set], in
      that order, on its query *)
  with_query : string -> list (string * string) -> string;
  (** the error of [http.NewRequest] for a method and a URL, if any *)
  NewRequest_error : string -> string -> option string;
  (** [textproto.CanonicalMIMEHeaderKey] *)
  CanonicalHeaderKey : string -> string;
  (** [strconv.Quote] *)
  Quote : string -> string
}.

(** [defMap[key]]: [None] when the key is absent. *)
Fixpoint entry (key : string) (defMap : list (string * any)) : option any :=
  match defMap with
  | [] => None
  | (k, v) :: rest => if String.eqb k key then Some v else entry key rest
  end.

Definition getIntValue `{Platform} `{External} (value : option any) (defaultValue : Z) : Z :=
  match value with
  | Some (OfInt v) => v
  | Some (OfFloat v) => float64_to_int64 v
  | Some (OfString v) => default defaultValue (Atoi v)
  | _ => defaultValue
  end.

Definition getFloatValue `{External} (value : option any) (defaultValue : float) : float :=
  match value with
  | Some (OfFloat v) => v
  | Some (OfInt v) => float64_of_int v
  | Some (OfString v) => default defaultValue (ParseFloat v)
  | _ => defaultValue
  end.

Definition getStringValue (value : option any) (defaultValue : string) : string :=
  match value with
  | Some (OfString str) => str
  | _ => defaultValue
  end.

(** The entries of a [map[interface{}]interface{}] whose key is a string. *)
Fixpoint string_keyed (m : list (any * any)) : list (string * any) :=
  match m with
  | [] => []
  | (OfString keyStr, val) :: rest => (keyStr, val) :: string_keyed rest
  | _ :: rest => string_keyed rest
  end.

(** The part of [createGeneratorWithConfig] that follows the conversion of
    the definition to [defMap], with a configuration at hand. *)
Definition createGeneratorFromMap `{Platform} `{External}
    (defMap : list (string * any)) : outcome Generator :=
  match entry "$ref" defMap with
  | Some (OfString _) => other_generator defMap
  | Some _ => Error "$ref value must be a string"
  | None =>
      match entry "type" defMap with
      | Some (OfString genType) =>
          if String.eqb genType "static" then
            Value {| Generate := StaticGenerator_Generate
                       {| Value_ := default Nil (entry "value" defMap) |} |}
          else if String.eqb genType "randomInt" then
            let min := getIntValue (entry "min" defMap) 0 in
            let max := getIntValue (entry "max" defMap) 100 in
            let format := getStringValue (entry "format" defMap) "" in
            if negb (String.eqb format "") then other_generator defMap
            else Value {| Generate := RandomIntGenerator_Generate
                            {| Min := min; Max := max |} |}
          else if String.eqb genType "choice" then
            match entry "values" defMap with
            | Some (OfSlice values) =>
                let weights :=
                  match entry "weights" defMap with
                  | Some (OfSlice weightList) =>
                      map (fun weight => getFloatValue (Some weight) 0%float) weightList
                  | _ => []
                  end in
                Value {| Generate := ChoiceGenerator_Generate
                           {| Values := values; Weights := weights |} |}
            | _ => Error "choice generator requires 'values' field"
            end
          else if String.eqb genType "randomString" then
            let length := getIntValue (entry "length" defMap) 10 in
            let charset := getStringValue (entry "charset" defMap) "alphanumeric" in
            Value {| Generate := RandomStringGenerator_Generate
                       {| Length := length; Charset := charset |} |}
          else if String.eqb genType "formattedInt" || String.eqb genType "template"
                  || String.eqb genType "object" || String.eqb genType "array"
          then other_generator defMap
          else Error ("unsupported generator type: " ++ genType)%string
      | _ => Error "generator type not specified"
      end
  end.

(** [createGeneratorWithConfig(def, config)] for a non-nil [config]. *)
Definition createGeneratorWithConfig `{Platform} `{External} (def : any)
    : outcome Generator :=
  match def with
  | OfString str =>
      Value {| Generate := StaticGenerator_Generate {| Value_ := OfString str |} |}
  | OfMap v => createGeneratorFromMap (string_keyed v)
  | OfStrMap v => createGeneratorFromMap v
  | _ => Error ("invalid generator definition type: " ++ Sprintf_T def)%string
  end.

(** [cfg.GetParameterGenerator(nameOrDef)]. *)
Definition GetParameterGenerator `{Platform} `{External} (nameOrDef : any)
    : outcome Generator :=
  createGeneratorWithConfig nameOrDef.

(** The [defMap] that [createGeneratorWithConfig] reads from a definition
    that is a map: the map itself for a [map[string]any], the entries with
    a string key for a [map[interface{}]interface{}], which is what an
    inline definition of the YAML file is decoded to. *)
Definition definition_map (def : any) : option (list (string * any)) :=
  match def with
  | OfMap v => Some (string_keyed v)
  | OfStrMap v => Some v
  | _ => None
  end.

(** *** The defaults of a loaded configuration *)

(** The statements of [LoadConfig] that set the defaults, on the
    configuration as it was unmarshalled from the file. *)
Definition set_defaults (cfg : Config) : Config :=
  let execution := Execution cfg in
  let selection := EndpointSelection cfg in
  {| BaseUrls := BaseUrls cfg;
     Execution :=
       {| ExecutionConfig.Mode :=
            if String.eqb (ExecutionConfig.Mode execution) "" then "fixed"
            else ExecutionConfig.Mode execution;
          ExecutionConfig.DurationSeconds :=
            if ExecutionConfig.DurationSeconds execution =? 0 then 60
            else ExecutionConfig.DurationSeconds execution;
          ExecutionConfig.RequestTimeoutMs :=
            if ExecutionConfig.RequestTimeoutMs execution =? 0 then 5000
            else ExecutionConfig.RequestTimeoutMs execution;
          ExecutionConfig.RequestsPerSecond :=
            if ExecutionConfig.RequestsPerSecond execution =? 0 then 10
            else ExecutionConfig.RequestsPerSecond execution |};
     Endpoints := Endpoints cfg;
     EndpointSelection :=
       {| EndpointSelectionConfig.Strategy :=
            if String.eqb (EndpointSelectionConfig.Strategy selection) "" then "roundRobin"
            else EndpointSelectionConfig.Strategy selection;
          EndpointSelectionConfig.Weights := EndpointSelectionConfig.Weights selection |} |}.

(** *** ArrayGenerator *)

(** The [Generate] methods of the arrays, objects and templates, for the
    generators they hold; [createGeneratorWithConfig] makes these generators
    from their definitions through [other_generator].

    [Generate] writes the clamped [MinLength] back to the generator; a later
    call clamps to the same bounds. *)

Record ArrayGenerator : Type := {
  MinLength : Z;
  MaxLength : Z;
  ElementGenerator : Generator
}.

(** [if g.MinLength > g.MaxLength { g.MinLength = g.MaxLength }]: the
    generator as a call of [Generate] leaves it. *)
Definition clamped (g : ArrayGenerator) : ArrayGenerator :=
  if MaxLength g <? MinLength g
  then {| MinLength := MaxLength g; MaxLength := MaxLength g;
          ElementGenerator := ElementGenerator g |}
  else g.

(** The loop [for i := 0; i < length; i++]: [todo] turns are left, [result]
    holds the values appended so far. *)
Fixpoint array_elements (elem : Generator) (i : Z) (todo : nat) (result : list any)
    : rand.M (list any) :=
  match todo with
  | O => mret result
  | S todo' =>
      value ← rand.wrapping
                ("failed to generate array element " ++ pretty i ++ ": ")%string
                (Generate elem);
      array_elements elem (i + 1) todo' (result ++ [value])
  end.

(** A nil slice is [OfSlice []]. *)
Definition ArrayGenerator_Generate (g : ArrayGenerator) : rand.M any :=
  let g := clamped g in
  let lengthRange := int64 (MaxLength g - MinLength g + 1) in
  num ← rand.wrapping "failed to generate array length: " (rand.Int lengthRange);
  let length := int64 (MinLength g + num) in
  result ← array_elements (ElementGenerator g) 0 (Z.to_nat length) [];
  mret (OfSlice result).

(** *** ObjectGenerator *)

Record ObjectGenerator : Type := { Properties : gmap string Generator }.

(** The loop over the properties, in the order [visited]. *)
Fixpoint object_fields (visited : list (string * Generator)) (result : gmap string any)
    : rand.M (gmap string any) :=
  match visited with
  | [] => mret result
  | (fieldName, fieldGen) :: rest =>
      value ← rand.wrapping
                ("failed to generate object field " ++ fieldName ++ ": ")%string
                (Generate fieldGen);
      object_fields rest (<[ fieldName := value ]> result)
  end.

(** [visited] is the order in which the loop [range g.Properties] visits the
    map during this call.  The map returned is listed by its entries. *)
Definition ObjectGenerator_Generate (g : ObjectGenerator)
    (visited : list (string * Generator)) : rand.M any :=
  result ← object_fields visited ∅;
  mret (OfStrMap (map_to_list result)).

(** *** TemplateGenerator *)

Record TemplateGenerator : Type := {
  Template : string;
  Parameters : gmap string Generator
}.

(** The loop over the parameters, in the order [visited]. *)
Fixpoint substitute `{External} (visited : list (string * Generator)) (result : string)
    : rand.M string :=
  match visited with
  | [] => mret result
  | (paramName, paramGen) :: rest =>
      let placeholder := ("{{" ++ paramName ++ "}}")%string in
      value ← rand.wrapping
                ("failed to generate template parameter " ++ paramName ++ ": ")%string
                (Generate paramGen);
      substitute rest (strings.ReplaceAll result placeholder (Sprintf_v value))
  end.

(** [visited] is the order in which the loop [range g.Parameters] visits the
    map during this call. *)
Definition TemplateGenerator_Generate `{External} (g : TemplateGenerator)
    (visited : list (string * Generator)) : rand.M any :=
  if String.eqb (Template g) ""
  then rand.lift (Error "no template provided for template generator")
  else
    result ← substitute visited (Template g);
    mret (OfString result).

(** The characters of a string. *)
Definition chars (s : string) : list ascii := String.list_ascii_of_string s.

(** *** The words of the specification of the weighted draw *)

(** The cumulative sums of the weights, in order. *)
Fixpoint cumulative_sums (before : float) (weights : list float) : list float :=
  match weights with
  | [] => []
  | w :: rest =>
      PrimFloat.add before w :: cumulative_sums (PrimFloat.add before w) rest
  end.

(** The first value whose cumulative weight is [>= x]; the last value when no
    cumulative weight reaches [x]. *)
Definition first_reaching (x : float) (values : list any) (weights : list float) : any :=
  match list_find (fun vc => PrimFloat.leb x (snd vc) = true)
          (zip values (cumulative_sums 0%float weights)) with
  | Some (_, (v, _)) => v
  | None => default Nil (last values)
  end.

(** A stand-in for the outside, used by the examples: it formats a string
    as itself, accepts every URL and every request, and knows no generator
    of the other kinds. *)
Definition sample_library : External :=
  {| Atoi := fun _ => None;
     ParseFloat := fun _ => None;
     Sprintf_v := fun v => match v with OfString str => str | _ => "?" end;
     Sprintf_T := fun _ => "?";
     other_generator := fun _ => Error "generator kind outside the examples";
     Marshal := fun _ => inl "{}";
     Parse_error := fun _ => None;
     with_query := fun url _ => url;
     NewRequest_error := fun _ _ => None;
     CanonicalHeaderKey := fun key => key;
     Quote := fun str => str |}.

(** Sample generators.  The weight 0.0005 is its nearest binary64 number. *)
Definition tiny_weight_choice : ChoiceGenerator :=
  {| Values := [OfString "a"]; Weights := [0x1.0624dd2f1a9fcp-11%float] |}.

Definition negative_length_string : RandomStringGenerator :=
  {| Length := -1; Charset := "alphanumeric" |}.

(** The weights 1 and 0.0005 (its nearest binary64 number). *)
Definition fine_weight_choice : ChoiceGenerator :=
  {| Values := [OfString "a"; OfString "b"];
     Weights := [1%float; 0x1.0624dd2f1a9fcp-11%float] |}.

(** The weights 0.8 and 0.2 (their nearest binary64 numbers). *)
Definition even_choice : ChoiceGenerator :=
  {| Values := [OfString "a"; OfString "b"];
     Weights := [0x1.999999999999ap-1%float; 0x1.999999999999ap-3%float] |}.

Definition mismatched_choice : ChoiceGenerator :=
  {| Values := [OfString "a"; OfString "b"; OfString "c"];
     Weights := [0x1.999999999999ap-1%float; 0x1.999999999999ap-3%float] |}.

End config.

(** ** Package runner *)

Module runner.
Import Int config.

(** The scheduler runs one copy of [selectEndpoint] and [selectBaseURL] at a
    time (they hold the mutex of the runner), so a run is modelled by the
    calls in the order in which they take the mutex, each call passing the
    runner on to the next. *)
Record Runner : Type := {
  cfg : Config;
  collector : metrics.Collector;
  endpointIdx : Z;
  urlIdx : Z;
  resultsCh : list metrics.MetricDetail
}.

Definition NewRunner (cfg : Config) (collector : metrics.Collector) : Runner :=
  {| cfg := cfg; collector := collector; endpointIdx := 0; urlIdx := 0;
     resultsCh := [] |}.

Definition set_endpointIdx (r : Runner) (v : Z) : Runner :=
  {| cfg := cfg r; collector := collector r; endpointIdx := v;
     urlIdx := urlIdx r; resultsCh := resultsCh r |}.

Definition set_urlIdx (r : Runner) (v : Z) : Runner :=
  {| cfg := cfg r; collector := collector r; endpointIdx := endpointIdx r;
     urlIdx := v; resultsCh := resultsCh r |}.

(** [names[i]] for a slice of strings, with the bounds check. *)
Definition name_at (names : list string) (i : Z) : outcome string :=
  if (i <? 0) || (len names <=? i) then Panic "runtime error: index out of range"
  else Value (nth (Z.to_nat i) names "").

(** [selected := names[r.endpointIdx%uint64(len(names))]; r.endpointIdx++].
    The remainder by zero panics. *)
Definition roundRobin (r : Runner) (names : list string) : outcome (string * Runner) :=
  if len names =? 0 then Panic "runtime error: integer divide by zero"
  else
    match name_at names (endpointIdx r mod len names) with
    | Value selected => Value (selected, set_endpointIdx r (uint64 (endpointIdx r + 1)))
    | Error e => Error e
    | Panic p => Panic p
    end.

(** The second loop of [selectWeightedEndpoint]. *)
Fixpoint walk_names (weights : gmap string float) (target : float)
    (cumulative : float) (names : list string) : option string :=
  match names with
  | [] => None
  | name :: rest =>
      match weights !! name with
      | Some weight =>
          let cumulative := PrimFloat.add cumulative weight in
          if PrimFloat.leb target cumulative then Some name
          else walk_names weights target cumulative rest
      | None => walk_names weights target cumulative rest
      end
  end.

Definition selectWeightedEndpoint `{Platform} (r : Runner) (names : list string)
    : rand.M (string * Runner) :=
  let weights := EndpointSelectionConfig.Weights (EndpointSelection (cfg r)) in
  if Z.of_nat (size weights) =? 0 then rand.lift (roundRobin r names)
  else
    let totalWeight :=
      fold_left (fun total name =>
                   match weights !! name with
                   | Some weight => PrimFloat.add total weight
                   | None => total
                   end) names 0%float in
    if PrimFloat.eqb totalWeight 0 then rand.lift (roundRobin r names)
    else fun src pos =>
      match rand.Int (float64_to_int64 (PrimFloat.mul totalWeight 1000)) src pos with
      | (Error _, pos') => (roundRobin r names, pos')
      | (Panic p, pos') => (Panic p, pos')
      | (Value num, pos') =>
          let target := PrimFloat.div (float64_of_int num) 1000 in
          match walk_names weights target 0%float names with
          | Some name => (Value (name, r), pos')
          | None =>
              match name_at names (len names - 1) with
              | Value name => (Value (name, r), pos')
              | Error e => (Error e, pos')
              | Panic p => (Panic p, pos')
              end
          end
      end.

Definition selectRandomEndpoint (r : Runner) (names : list string)
    : rand.M (string * Runner) :=
  fun src pos =>
    match rand.Int (len names) src pos with
    | (Error _, pos') => (roundRobin r names, pos')
    | (Panic p, pos') => (Panic p, pos')
    | (Value num, pos') =>
        match name_at names num with
        | Value name => (Value (name, r), pos')
        | Error e => (Error e, pos')
        | Panic p => (Panic p, pos')
        end
    end.

(** [selectEndpoint]: [visited] is the order in which its loop
    [for name := range r.cfg.Endpoints] visits the map during this call. *)
Definition selectEndpoint `{Platform} (r : Runner)
    (visited : list (string * EndpointConfig.t))
    : rand.M (string * EndpointConfig.t * Runner) :=
  let endpointNames := visited.*1 in
  let strategy := EndpointSelectionConfig.Strategy (EndpointSelection (cfg r)) in
  '(selectedName, r') ←
    (if String.eqb strategy "weighted" then selectWeightedEndpoint r endpointNames
     else if String.eqb strategy "random" then selectRandomEndpoint r endpointNames
     else rand.lift (roundRobin r endpointNames));
  mret (selectedName,
        default EndpointConfig.zero (Endpoints (cfg r) !! selectedName), r').

Definition selectBaseURL (r : Runner) : outcome (string * Runner) :=
  let urls := BaseUrls (cfg r) in
  if len urls =? 0 then Panic "runtime error: integer divide by zero"
  else
    match name_at urls (urlIdx r mod len urls) with
    | Value selected => Value (selected, set_urlIdx r (uint64 (urlIdx r + 1)))
    | Error e => Error e
    | Panic p => Panic p
    end.

(** Calls of [selectEndpoint] one after the other, one for each visiting
    order of the list: the names they select. *)
Fixpoint select_in_turn `{Platform} (r : Runner)
    (visits : list (list (string * EndpointConfig.t)))
    : rand.M (list string * Runner) :=
  match visits with
  | [] => mret ([], r)
  | visited :: rest =>
      '(name, _, r') ← selectEndpoint r visited;
      '(names, r'') ← select_in_turn r' rest;
      mret (name :: names, r'')
  end.

(** *** One request *)

(** The request handed to the HTTP client. *)
Record Request : Type := {
  reqMethod : string;
  reqURL : string;
  reqBody : option string;
  reqHeader : gmap string string
}.

(** [*url.Error], the type of every error that [client.Do] returns. *)
Record url_Error : Type := { Op : string; URL : string; Err : string }.

Definition url_Error_Error `{External} (e : url_Error) : string :=
  (Op e ++ " " ++ Quote (URL e) ++ ": " ++ Err e)%string.

(** What [client.Do] comes back with. *)
Inductive transport : Type :=
| Response (StatusCode : Z)
| Failure (err : url_Error).

(** What the surroundings decide during one call of [makeRequest]: the
    orders in which its loops visit the three maps of the endpoint, what the
    HTTP client does with the request, and the readings of the clock. *)
Record Attempt : Type := {
  pathRange : list (string * any);
  queryRange : list (string * any);
  headerRange : list (string * string);
  Do : Request -> transport;
  (** [time.Since(reqStartTime)] right after [Do] *)
  sinceDo : Z;
  (** [time.Since(startTime)] in [createErrorMetric] *)
  sinceReport : Z;
  (** [time.Now()] when the record is built *)
  nowReport : Z
}.

(** The loop of [buildURL] over the path parameters. *)
Fixpoint resolvePath `{Platform} `{External} (fullPath : string)
    (pathParams : list (string * any)) : rand.M string :=
  match pathParams with
  | [] => mret fullPath
  | (paramName, paramDef) :: rest =>
      let placeholder := ("{" ++ paramName ++ "}")%string in
      gen ← rand.wrapping
              ("failed to get path parameter generator for " ++ paramName ++ ": ")%string
              (rand.lift (GetParameterGenerator paramDef));
      value ← rand.wrapping
                ("failed to generate path parameter " ++ paramName ++ ": ")%string
                (Generate gen);
      resolvePath (strings.ReplaceAll fullPath placeholder (Sprintf_v value)) rest
  end.

Definition buildURL `{Platform} `{External} (baseURL path : string)
    (pathParams : list (string * any)) : rand.M string :=
  fullPath ← resolvePath path pathParams;
  mret (strings.TrimSuffix baseURL "/" ++ fullPath)%string.

(** The loop of [addQueryParams]: the calls of [query.Set], in order. *)
Fixpoint resolveQuery `{Platform} `{External} (queryParams : list (string * any))
    : rand.M (list (string * string)) :=
  match queryParams with
  | [] => mret []
  | (paramName, paramDef) :: rest =>
      gen ← rand.wrapping
              ("failed to get query parameter generator for " ++ paramName ++ ": ")%string
              (rand.lift (GetParameterGenerator paramDef));
      value ← rand.wrapping
                ("failed to generate query parameter " ++ paramName ++ ": ")%string
                (Generate gen);
      sets ← resolveQuery rest;
      mret ((paramName, Sprintf_v value) :: sets)
  end.

Definition addQueryParams `{Platform} `{External} (fullURL : string)
    (queryParams : list (string * any)) : rand.M string :=
  match Parse_error fullURL with
  | Some e => rand.lift (Error ("failed to parse URL: " ++ e)%string)
  | None =>
      sets ← resolveQuery queryParams;
      mret (with_query fullURL sets)
  end.

Definition generateRequestBody `{Platform} `{External} (bodyParams : any)
    : rand.M string :=
  gen ← rand.wrapping "failed to get body parameter generator: "
          (rand.lift (GetParameterGenerator bodyParams));
  value ← rand.wrapping "failed to generate body: " (Generate gen);
  match Marshal value with
  | inl bytes => mret bytes
  | inr e => rand.lift (Error e)
  end.

Definition createErrorMetric (url method errorMsg : string) (a : Attempt)
    : metrics.MetricDetail :=
  {| metrics.URL := url; metrics.Method := method; metrics.StatusCode := 0;
     metrics.Duration := sinceReport a; metrics.IsError := true;
     metrics.ErrorMsg := errorMsg; metrics.Timestamp := nowReport a |}.

(** [req.Header.Set(name, value)] for the headers in the order visited, then
    the default [User-Agent]. *)
Definition request_headers `{External} (headers : list (string * string))
    : gmap string string :=
  let set := fold_left (fun h nv => <[ CanonicalHeaderKey nv.1 := nv.2 ]> h) headers ∅ in
  if String.eqb (default "" (set !! CanonicalHeaderKey "User-Agent")) ""
  then <[ CanonicalHeaderKey "User-Agent" := "benchmarking-tool/2.0" ]> set
  else set.

(** [makeRequest].  When [addQueryParams] fails, its empty result has
    already been assigned to [fullURL]. *)
Definition makeRequest `{Platform} `{External} (baseURL endpointName : string)
    (endpoint : EndpointConfig.t) (a : Attempt) : rand.M metrics.MetricDetail :=
  let method := EndpointConfig.Method endpoint in
  rand.try (buildURL baseURL (EndpointConfig.Path endpoint) (pathRange a))
    (fun err => createErrorMetric (baseURL ++ EndpointConfig.Path endpoint)%string method
                  ("URL building failed: " ++ err)%string a)
    (fun fullURL =>
  rand.try (if 0 <? Z.of_nat (size (EndpointConfig.QueryParameters endpoint))
            then addQueryParams fullURL (queryRange a) else mret fullURL)
    (fun err => createErrorMetric "" method ("Query params failed: " ++ err)%string a)
    (fun fullURL =>
  rand.try (match EndpointConfig.BodyParameters endpoint with
            | Nil => mret None
            | bodyParams => body ← generateRequestBody bodyParams; mret (Some body)
            end)
    (fun err => createErrorMetric fullURL method
                  ("Body generation failed: " ++ err)%string a)
    (fun body =>
  match NewRequest_error method fullURL with
  | Some err =>
      mret (createErrorMetric fullURL method
              ("Request creation failed: " ++ err)%string a)
  | None =>
      let req := {| reqMethod := method; reqURL := fullURL; reqBody := body;
                    reqHeader := request_headers (headerRange a) |} in
      match Do a req with
      | Failure err => mret (createErrorMetric fullURL method (url_Error_Error err) a)
      | Response status =>
          mret {| metrics.URL := fullURL; metrics.Method := method;
                  metrics.StatusCode := status; metrics.Duration := sinceDo a;
                  metrics.IsError := false; metrics.ErrorMsg := "";
                  metrics.Timestamp := nowReport a |}
      end
  end))).

(** *** The run *)

Record BenchmarkResult : Type := {
  TotalRequestsMade : Z;
  SuccessfulRequests : Z;
  FailedRequests : Z;
  RequestTimings : list Z;
  StatusCodes : option (gmap Z Z)
}.

(** [&BenchmarkResult{}]. *)
Definition empty_result : BenchmarkResult :=
  {| TotalRequestsMade := 0; SuccessfulRequests := 0; FailedRequests := 0;
     RequestTimings := []; StatusCodes := None |}.

(** What happens in one turn of the loop of [runFixedRPSMode]: the clock
    read by the loop condition, and which case of the [select] is taken;
    for a tick, the clock read in that case and what the surroundings decide
    for the request task it may start. *)
Inductive fired : Type :=
| TickerFired (tickElapsed : Z) (visited : list (string * EndpointConfig.t))
    (attempt : Attempt)
| DeadlineFired.

Record turn : Type := { loopElapsed : Z; selected : fired }.

(** A request task that was started: the endpoint and the base URL it
    selected. *)
Definition dispatch : Type := (string * string)%type.

(** What a run leaves behind: the runner, the request tasks started (the
    latest first), and the number of uses of the random source. *)
Record world : Type := {
  runner_of : Runner;
  dispatched : list dispatch;
  uses : nat
}.

(** [r.resultsCh <- detail]. *)
Definition send (r : Runner) (detail : metrics.MetricDetail) : Runner :=
  {| cfg := cfg r; collector := collector r; endpointIdx := endpointIdx r;
     urlIdx := urlIdx r; resultsCh := resultsCh r ++ [detail] |}.

(** The collector goroutine, once the channel is closed: every record of
    the channel went through [AppendDetail], in order. *)
Definition drain (r : Runner) : Runner :=
  {| cfg := cfg r;
     collector := fold_left metrics.AppendDetail (resultsCh r) (collector r);
     endpointIdx := endpointIdx r; urlIdx := urlIdx r; resultsCh := [] |}.

(** The body of the goroutine started at a tick. *)
Definition request_task `{Platform} `{External} (r : Runner)
    (visited : list (string * EndpointConfig.t)) (attempt : Attempt)
    : rand.M (dispatch * Runner) :=
  '(endpointName, endpoint, r1) ← selectEndpoint r visited;
  '(baseURL, r2) ← rand.lift (selectBaseURL r1);
  detail ← makeRequest baseURL endpointName endpoint attempt;
  mret ((endpointName, baseURL), send r2 detail).

(** The loop of [runFixedRPSMode], one turn for each element of [turns]; a
    request task runs to its end before the next turn.  The loop stops with
    the list when the list ends first.  A panic of a request task ends the
    run. *)
Fixpoint ticking `{Platform} `{External} (totalDuration : Z) (turns : list turn)
    (src : rand.Reader) (w : world) : option string * world :=
  match turns with
  | [] => (None, w)
  | t :: rest =>
      if totalDuration <=? loopElapsed t then (None, w)
      else
        match selected t with
        | DeadlineFired => (None, w)
        | TickerFired tickElapsed visited attempt =>
            if totalDuration <=? tickElapsed then (None, w)
            else
              match request_task (runner_of w) visited attempt src (uses w) with
              | (Value (d, r'), pos') =>
                  ticking totalDuration rest src
                    {| runner_of := r'; dispatched := d :: dispatched w; uses := pos' |}
              | (Error e, pos') =>
                  (Some e, {| runner_of := runner_of w; dispatched := dispatched w;
                              uses := pos' |})
              | (Panic p, pos') =>
                  (Some p, {| runner_of := runner_of w; dispatched := dispatched w;
                              uses := pos' |})
              end
        end
  end.

(** [time.Second], in nanoseconds. *)
Definition Second : Z := 1000000000.

(** [runFixedRPSMode]: the outcome and what the run leaves behind.
    [time.NewTicker] panics for an interval that is not positive. *)
Definition runFixedRPSMode `{Platform} `{External} (turns : list turn)
    (src : rand.Reader) (w : world) : outcome BenchmarkResult * world :=
  let execution := Execution (cfg (runner_of w)) in
  if ExecutionConfig.RequestsPerSecond execution <=? 0
  then (Error "requestsPerSecond must be positive for fixed mode", w)
  else if Z.of_nat (size (Endpoints (cfg (runner_of w)))) =? 0
  then (Error "no endpoints configured", w)
  else if len (BaseUrls (cfg (runner_of w))) =? 0
  then (Error "no base URLs configured", w)
  else
    let totalDuration := int64 (ExecutionConfig.DurationSeconds execution * Second) in
    if quo Second (ExecutionConfig.RequestsPerSecond execution) <=? 0
    then (Panic "non-positive interval for NewTicker", w)
    else
      match ticking totalDuration turns src w with
      | (Some p, w') => (Panic p, w')
      | (None, w') =>
          (Value empty_result,
           {| runner_of := drain (runner_of w'); dispatched := dispatched w';
              uses := uses w' |})
      end.

Definition Run `{Platform} `{External} (turns : list turn) (src : rand.Reader)
    (w : world) : outcome BenchmarkResult * world :=
  let mode := ExecutionConfig.Mode (Execution (cfg (runner_of w))) in
  if String.eqb mode "fixed" then runFixedRPSMode turns src w
  else if String.eqb mode "ramp" then (Error "ramp up mode not yet implemented", w)
  else (Error ("unknown mode: " ++ mode)%string, w).

(** The world before a run. *)
Definition start (r : Runner) : world :=
  {| runner_of := r; dispatched := []; uses := 0%nat |}.

(** How often the name [x] occurs among the names selected. *)
Definition times_selected (x : string) (selected : list string) : nat :=
  length (filter (fun name => name = x) selected).

(** A configuration with the endpoints "a", "b" and "c", selected round
    robin. *)
Definition endpoint (path : string) : EndpointConfig.t :=
  {| EndpointConfig.Path := path; EndpointConfig.Method := "GET";
     EndpointConfig.Headers := ∅; EndpointConfig.PathParameters := ∅;
     EndpointConfig.QueryParameters := ∅; EndpointConfig.BodyParameters := Nil |}.

Definition abc_config : Config :=
  {| BaseUrls := ["http://h"];
     Execution := {| ExecutionConfig.Mode := "fixed";
                     ExecutionConfig.DurationSeconds := 1;
                     ExecutionConfig.RequestTimeoutMs := 5000;
                     ExecutionConfig.RequestsPerSecond := 10 |};
     Endpoints := {[ "a" := endpoint "/a"; "b" := endpoint "/b"; "c" := endpoint "/c" ]};
     EndpointSelection :=
       {| EndpointSelectionConfig.Strategy := "roundRobin";
          EndpointSelectionConfig.Weights := ∅ |} |}.

Definition visit_abc : list (string * EndpointConfig.t) :=
  [("a", endpoint "/a"); ("b", endpoint "/b"); ("c", endpoint "/c")].
Definition visit_bac : list (string * EndpointConfig.t) :=
  [("b", endpoint "/b"); ("a", endpoint "/a"); ("c", endpoint "/c")].
Definition visit_bca : list (string * EndpointConfig.t) :=
  [("b", endpoint "/b"); ("c", endpoint "/c"); ("a", endpoint "/a")].

(** Calls of [selectBaseURL] one after the other: the base URLs they
    select. *)
Fixpoint base_urls_in_turn (r : Runner) (calls : nat) : outcome (list string * Runner) :=
  match calls with
  | O => Value ([], r)
  | S calls' =>
      match selectBaseURL r with
      | Value (url, r') =>
          match base_urls_in_turn r' calls' with
          | Value (urls, r'') => Value (url :: urls, r'')
          | Error e => Error e
          | Panic p => Panic p
          end
      | Error e => Error e
      | Panic p => Panic p
      end
  end.

(** A turn of the loop of [runFixedRPSMode] that starts a request task: the
    loop condition holds, the ticker fires, and the clock read at the tick
    is still before the deadline. *)
Definition in_time (totalDuration : Z) (t : turn) : bool :=
  (loopElapsed t <? totalDuration) &&
  match selected t with
  | TickerFired tickElapsed _ _ => tickElapsed <? totalDuration
  | DeadlineFired => false
  end.

(** *** The words of the specification of the URL *)

(** [s] without its trailing slashes, and without its leading slashes. *)
Fixpoint strip_trailing_slashes (s : string) : string :=
  match s with
  | EmptyString => EmptyString
  | String c s' =>
      let t := strip_trailing_slashes s' in
      if Ascii.eqb c "/" && String.eqb t "" then EmptyString else String c t
  end.

Fixpoint strip_leading_slashes (s : string) : string :=
  match s with
  | String c s' => if Ascii.eqb c "/" then strip_leading_slashes s' else s
  | EmptyString => EmptyString
  end.

(** "The base URL with any trailing '/' removed, followed by exactly one
    separating '/' before the resolved path". *)
Definition joined_by_one_slash (baseURL fullPath url : string) : Prop :=
  url = (strip_trailing_slashes baseURL ++ "/" ++ strip_leading_slashes fullPath)%string.

(** A record of a failed attempt, and a record of an answered one. *)
Definition error_record (d : metrics.MetricDetail) : Prop :=
  metrics.StatusCode d = 0 /\ metrics.IsError d = true /\ metrics.ErrorMsg d <> "".

Definition response_record (a : Attempt) (d : metrics.MetricDetail) : Prop :=
  exists req status,
    Do a req = Response status /\
    metrics.StatusCode d = status /\ metrics.IsError d = false /\
    metrics.ErrorMsg d = "".

(** *** Sample endpoints *)

(** An endpoint whose path parameter "id" is a random string of length -1. *)
Definition negative_length_def : any :=
  OfMap [(OfString "type", OfString "randomString"); (OfString "length", OfInt (-1))].

Definition user_endpoint : EndpointConfig.t :=
  {| EndpointConfig.Path := "/users/{id}"; EndpointConfig.Method := "GET";
     EndpointConfig.Headers := ∅;
     EndpointConfig.PathParameters := {[ "id" := negative_length_def ]};
     EndpointConfig.QueryParameters := ∅; EndpointConfig.BodyParameters := Nil |}.



(** A client that always gets the answer 200. *)
Definition attempt_200 (path : list (string * any)) : Attempt :=
  {| pathRange := path; queryRange := []; headerRange := [];
     Do := fun _ => Response 200;
     sinceDo := 1000; sinceReport := 1001; nowReport := 5 |}.

(** A configuration of fixed mode that asks for 0 requests per second. *)
Definition zero_rate_config : Config :=
  {| BaseUrls := ["http://h"];
     Execution := {| ExecutionConfig.Mode := "fixed";
                     ExecutionConfig.DurationSeconds := 1;
                     ExecutionConfig.RequestTimeoutMs := 5000;
                     ExecutionConfig.RequestsPerSecond := 0 |};
     Endpoints := {[ "a" := endpoint "/a" ]};
     EndpointSelection :=
       {| EndpointSelectionConfig.Strategy := "roundRobin";
          EndpointSelectionConfig.Weights := ∅ |} |}.

(** Two ticks, 100 ms and 200 ms after the start, then the deadline. *)
Definition two_ticks : list turn :=
  [ {| loopElapsed := 0;
       selected := TickerFired 100000000 visit_abc (attempt_200 []) |};
    {| loopElapsed := 100000001;
       selected := TickerFired 200000000 visit_abc (attempt_200 []) |};
    {| loopElapsed := 200000001; selected := DeadlineFired |} ].

End runner.

(** * Theorems *)

(** ** Machine integers *)

Section int_facts.
Import Int.

Lemma int64_id x : in_int64 x -> int64 x = x.
Proof.
  unfold in_int64, min_int64, max_int64, int64. intros H.
  rewrite Z.mod_small; lia.
Qed.

Lemma int64_add_l a b : int64 (int64 a + b) = int64 (a + b).
Proof.
  unfold int64.
  replace (((a + 2 ^ 63) mod 2 ^ 64 - 2 ^ 63) + b + 2 ^ 63)
    with ((a + 2 ^ 63) mod 2 ^ 64 + b) by lia.
  rewrite Zplus_mod_idemp_l. f_equal. f_equal. lia.
Qed.

(** Truncated division of a sum of [n] numbers stays between any lower and
    upper bound of the numbers. *)
Lemma quot_between s n lo hi :
  0 < n -> n * lo <= s -> s <= n * hi -> lo <= Z.quot s n <= hi.
Proof.
  intros Hn Hlo Hhi.
  pose proof (Z.quot_rem' s n) as Hs.
  destruct (Z_le_gt_dec 0 s) as [Hpos | Hneg].
  - pose proof (Z.rem_bound_pos s n Hpos Hn). nia.
  - assert (Hle : s <= 0) by lia.
    pose proof (Z.rem_bound_pos_neg s n Hn Hle). nia.
Qed.

(** Just above [max_int64] the value wraps to the negative numbers and 0. *)
Lemma int64_wrap_high x : 2 ^ 63 <= x <= 2 ^ 64 -> int64 x = x - 2 ^ 64.
Proof.
  intros Hx. unfold int64.
  replace (x + 2 ^ 63) with ((x + 2 ^ 63 - 2 ^ 64) + 1 * 2 ^ 64) by lia.
  rewrite Z_mod_plus_full, Z.mod_small; lia.
Qed.

End int_facts.

(** ** The metrics collector *)

Section metrics_facts.
Import Int metrics.

Lemma allRequests_ingest_from rs : forall c,
  allRequests (fold_left AppendDetail rs c) = allRequests c ++ rs.
Proof.
  induction rs as [| r rs IH]; intros c; simpl.
  - by rewrite app_nil_r.
  - rewrite IH. simpl. by rewrite <- app_assoc.
Qed.

Lemma allRequests_ingest rs : allRequests (ingest rs) = rs.
Proof. unfold ingest. by rewrite allRequests_ingest_from. Qed.

(** [RecordRequest] is [AppendDetail] of the record it builds. *)
Lemma RecordRequest_AppendDetail c url method statusCode duration isError errorMsg now :
  RecordRequest c url method statusCode duration isError errorMsg now =
  AppendDetail c {| URL := url; Method := method; StatusCode := statusCode;
                    Duration := duration; IsError := isError;
                    ErrorMsg := errorMsg; Timestamp := now |}.
Proof. reflexivity. Qed.

Lemma count_failed_cons r rs :
  count_failed (r :: rs) = (if failed r then 1 else 0) + count_failed rs.
Proof.
  unfold count_failed. rewrite filter_cons.
  destruct (failed r); case_decide; try congruence; simpl length; lia.
Qed.

(** The counters after the loop ran over [rs], as long as the number of
    records fits the counter. *)
Lemma observe_counters rs : forall res,
  0 <= SuccessfulRequests res -> 0 <= FailedRequests res ->
  SuccessfulRequests res + FailedRequests res = TotalRequests res ->
  TotalRequests res + Z.of_nat (length rs) <= max_int64 ->
  let res' := fold_left observe rs res in
  TotalRequests res' = TotalRequests res + Z.of_nat (length rs) /\
  FailedRequests res' = FailedRequests res + count_failed rs /\
  SuccessfulRequests res' =
    SuccessfulRequests res + (Z.of_nat (length rs) - count_failed rs).
Proof.
  induction rs as [| r rs IH]; intros res Hs Hf Hsum Hfit.
  - unfold count_failed. simpl. lia.
  - assert (Hmax : max_int64 = 2 ^ 63 - 1) by reflexivity.
    assert (Hmin : min_int64 = - 2 ^ 63) by reflexivity.
    simpl length in Hfit.
    assert (Ht : int64 (TotalRequests res + 1) = TotalRequests res + 1)
      by (apply int64_id; unfold in_int64; lia).
    cbn [fold_left]. cbv zeta.
    destruct (IH (observe res r)) as (IHt & IHf & IHs).
    + simpl. destruct (failed r); [lia |].
      rewrite int64_id; [lia | unfold in_int64; lia].
    + simpl. destruct (failed r); [| lia].
      rewrite int64_id; [lia | unfold in_int64; lia].
    + simpl. rewrite Ht.
      destruct (failed r); rewrite int64_id; unfold in_int64; lia.
    + simpl. rewrite Ht. lia.
    + rewrite IHt, IHf, IHs, count_failed_cons. simpl. rewrite Ht.
      simpl length.
      destruct (failed r); rewrite int64_id; unfold in_int64; lia.
Qed.

(** The counters of the snapshot. *)
Lemma GetResults_counters rs :
  Z.of_nat (length rs) <= max_int64 ->
  let res := GetResults (ingest rs) in
  TotalRequests res = Z.of_nat (length rs) /\
  FailedRequests res = count_failed rs /\
  SuccessfulRequests res = Z.of_nat (length rs) - count_failed rs.
Proof.
  intros Hfit. unfold GetResults. rewrite allRequests_ingest.
  destruct rs as [| r rs].
  - unfold count_failed. simpl. lia.
  - set (rs' := r :: rs) in *.
    destruct (observe_counters rs' (initial (Duration r))) as (Ht & Hf & Hs);
      try (cbn [initial TotalRequests SuccessfulRequests FailedRequests]; lia).
    cbv zeta.
    match goal with |- context [0 <? ?t] => destruct (0 <? t) end;
      cbn [set_AvgDuration set_MinDuration TotalRequests SuccessfulRequests
           FailedRequests];
      rewrite ?Ht, ?Hf, ?Hs;
      cbn [initial TotalRequests SuccessfulRequests FailedRequests]; lia.
Qed.

(** C1. After any sequence of records went into the collector (a Go slice
    holds at most [max_int64] of them), the snapshot of [GetResults] has
    successful + failed = total, total is the number of records, and failed
    is the number of records with [IsError] set or a status code of 400 or
    more. *)
Theorem GetResults_counts (rs : list MetricDetail) :
  Z.of_nat (length rs) <= max_int64 ->
  let res := GetResults (ingest rs) in
  SuccessfulRequests res + FailedRequests res = TotalRequests res /\
  TotalRequests res = Z.of_nat (length rs) /\
  FailedRequests res =
    Z.of_nat (length (filter (fun r => IsError r || (400 <=? StatusCode r) = true) rs)).
Proof.
  intros Hfit res.
  destruct (GetResults_counters rs Hfit) as (Ht & Hf & Hs).
  fold res in Ht, Hf, Hs. rewrite Ht, Hf, Hs.
  split; [lia | split; reflexivity].
Qed.

Lemma GetResults_counts_witness :
  Z.of_nat (length sample_records) <= max_int64 /\
  let res := GetResults (ingest sample_records) in
  SuccessfulRequests res + FailedRequests res = TotalRequests res /\
  TotalRequests res = Z.of_nat (length sample_records) /\
  FailedRequests res =
    Z.of_nat (length (filter (fun r => IsError r || (400 <=? StatusCode r) = true)
                             sample_records)).
Proof.
  assert (H : Z.of_nat (length sample_records) <= max_int64)
    by (unfold max_int64; simpl; lia).
  split; [exact H | exact (GetResults_counts sample_records H)].
Defined.

Example GetResults_sample :
  let res := GetResults (ingest sample_records) in
  (TotalRequests res, SuccessfulRequests res, FailedRequests res) = (3, 1, 2) /\
  (MinDuration res, AvgDuration res, MaxDuration res) =
    (25000000, 50000000, 75000000) /\
  StatusCodesCount res = Some {[ 200 := 1; 404 := 1; 0 := 1 ]} /\
  ErrorDetails res = Some {[ "timeout" := 1 ]}.
Proof. vm_compute. repeat split. Qed.

(** *** Durations *)

Lemma observe_TotalDuration rs : forall res x,
  TotalDuration res = int64 x ->
  TotalDuration (fold_left observe rs res) = int64 (x + sum_durations rs).
Proof.
  induction rs as [| r rs IH]; intros res x Hx; simpl.
  - by rewrite Z.add_0_r.
  - rewrite (IH (observe res r) (x + Duration r)).
    + f_equal. lia.
    + simpl. rewrite Hx. apply int64_add_l.
Qed.

Lemma observe_AvgDuration rs : forall res,
  AvgDuration (fold_left observe rs res) = AvgDuration res.
Proof. induction rs as [| r rs IH]; intros res; simpl; [done | by rewrite IH]. Qed.

(** The minimum only goes down, and ends below every duration seen. *)
Lemma observe_MinDuration rs : forall res,
  MinDuration (fold_left observe rs res) <= MinDuration res /\
  Forall (fun r => MinDuration (fold_left observe rs res) <= Duration r) rs.
Proof.
  induction rs as [| r rs IH]; intros res; simpl.
  - split; [lia | constructor].
  - destruct (IH (observe res r)) as [Hle Hall]. simpl in Hle.
    destruct (Z.ltb_spec (Duration r) (MinDuration res));
      (split; [lia | constructor; [lia | exact Hall]]).
Qed.

(** The maximum only goes up, and ends above every duration seen. *)
Lemma observe_MaxDuration rs : forall res,
  MaxDuration res <= MaxDuration (fold_left observe rs res) /\
  Forall (fun r => Duration r <= MaxDuration (fold_left observe rs res)) rs.
Proof.
  induction rs as [| r rs IH]; intros res; simpl.
  - split; [lia | constructor].
  - destruct (IH (observe res r)) as [Hle Hall]. simpl in Hle.
    destruct (Z.ltb_spec (MaxDuration res) (Duration r));
      (split; [lia | constructor; [lia | exact Hall]]).
Qed.

Lemma sum_durations_lower lo rs :
  Forall (fun r => lo <= Duration r) rs ->
  Z.of_nat (length rs) * lo <= sum_durations rs.
Proof.
  induction 1 as [| r rs Hr _ IH]; simpl; [lia |].
  fold (sum_durations rs). lia.
Qed.

Lemma sum_durations_upper hi rs :
  Forall (fun r => Duration r <= hi) rs ->
  sum_durations rs <= Z.of_nat (length rs) * hi.
Proof.
  induction 1 as [| r rs Hr _ IH]; simpl; [lia |].
  fold (sum_durations rs). lia.
Qed.

(** The snapshot of a non-empty record set whose number of records and
    whose exact sum of durations fit [int64]. *)
Lemma GetResults_nonempty r rs :
  let all := r :: rs in
  let loop := fold_left observe all (initial (Duration r)) in
  Z.of_nat (length all) <= max_int64 ->
  in_int64 (sum_durations all) ->
  GetResults (ingest all) =
    set_AvgDuration loop (Z.quot (sum_durations all) (Z.of_nat (length all))) /\
  TotalDuration loop = sum_durations all /\
  TotalRequests loop = Z.of_nat (length all) /\
  MinDuration loop <= Z.quot (sum_durations all) (Z.of_nat (length all))
    <= MaxDuration loop.
Proof.
  intros all loop Hfit Hsum.
  assert (Hn : 0 < Z.of_nat (length all)) by (simpl length; lia).
  destruct (observe_counters all (initial (Duration r))) as (Ht & _ & _);
    try (cbn [initial TotalRequests SuccessfulRequests FailedRequests]; lia).
  fold loop in Ht. cbn [initial TotalRequests] in Ht. rewrite Z.add_0_l in Ht.
  assert (Hd : TotalDuration loop = sum_durations all).
  { unfold loop. rewrite (observe_TotalDuration all _ 0) by reflexivity.
    rewrite Z.add_0_l. by apply int64_id. }
  destruct (observe_MinDuration all (initial (Duration r))) as [_ Hmin].
  destruct (observe_MaxDuration all (initial (Duration r))) as [_ Hmax].
  fold loop in Hmin, Hmax.
  apply sum_durations_lower in Hmin. apply sum_durations_upper in Hmax.
  pose proof (quot_between _ _ _ _ Hn Hmin Hmax) as Hq.
  repeat split; try tauto.
  unfold GetResults. rewrite allRequests_ingest.
  unfold all at 1. cbv iota zeta. fold all. fold loop.
  rewrite Ht, Hd.
  destruct (Z.ltb_spec 0 (Z.of_nat (length all))); [| lia].
  unfold quo. rewrite int64_id; [reflexivity |].
  unfold in_int64 in *.
  assert (min_int64 <= 0 <= max_int64) by (unfold min_int64, max_int64; lia).
  apply quot_between; [lia | nia | nia].
Qed.

(** C2 (amended). The snapshot of the empty record set has zero minimum,
    average and maximum and two made, empty maps.  For a record set with
    [TotalRequests > 0] whose exact sum of durations fits [int64], the
    average is the total divided by the count, truncated, and
    minimum <= average <= maximum. *)
Theorem GetResults_durations :
  (let res := GetResults (ingest []) in
   MinDuration res = 0 /\ AvgDuration res = 0 /\ MaxDuration res = 0 /\
   StatusCodesCount res = Some ∅ /\ ErrorDetails res = Some ∅) /\
  (forall rs : list MetricDetail,
     let res := GetResults (ingest rs) in
     Z.of_nat (length rs) <= max_int64 ->
     in_int64 (sum_durations rs) ->
     0 < TotalRequests res ->
     AvgDuration res = Z.quot (TotalDuration res) (TotalRequests res) /\
     MinDuration res <= AvgDuration res <= MaxDuration res).
Proof.
  split; [by repeat split |].
  intros rs res Hfit Hsum Hpos.
  destruct rs as [| r rs]; [discriminate Hpos |].
  destruct (GetResults_nonempty r rs Hfit Hsum) as (Hres & Hd & Ht & Hq).
  unfold res. rewrite Hres.
  cbn [set_AvgDuration AvgDuration MinDuration MaxDuration TotalDuration
       TotalRequests].
  rewrite Hd, Ht. split; [reflexivity | exact Hq].
Qed.

Lemma GetResults_durations_witness :
  let res := GetResults (ingest sample_records) in
  (Z.of_nat (length sample_records) <= max_int64 /\
   in_int64 (sum_durations sample_records) /\ 0 < TotalRequests res) /\
  AvgDuration res = Z.quot (TotalDuration res) (TotalRequests res) /\
  MinDuration res <= AvgDuration res <= MaxDuration res.
Proof.
  assert (H1 : Z.of_nat (length sample_records) <= max_int64)
    by (unfold max_int64; simpl; lia).
  assert (H2 : in_int64 (sum_durations sample_records))
    by (unfold in_int64, min_int64, max_int64; simpl; lia).
  assert (H3 : 0 < TotalRequests (GetResults (ingest sample_records)))
    by (vm_compute; reflexivity).
  split; [exact (conj H1 (conj H2 H3)) |].
  exact (proj2 GetResults_durations sample_records H1 H2 H3).
Defined.

(** C2 as stated fails: with [TotalRequests = 2 > 0] the sum of the
    durations wraps around, the average is negative and lies below the
    minimum. *)
Lemma GetResults_durations_wrap :
  let res := GetResults (ingest long_records) in
  Forall (fun r => in_int64 (Duration r)) long_records /\
  0 < TotalRequests res /\
  MinDuration res = 2 ^ 62 /\ AvgDuration res = - 2 ^ 62 /\
  ~ (MinDuration res <= AvgDuration res <= MaxDuration res).
Proof.
  cbv zeta. split.
  - repeat constructor; vm_compute; congruence.
  - assert (Hmin : MinDuration (GetResults (ingest long_records)) = 2 ^ 62)
      by (vm_compute; reflexivity).
    assert (Havg : AvgDuration (GetResults (ingest long_records)) = - 2 ^ 62)
      by (vm_compute; reflexivity).
    rewrite Hmin, Havg.
    split; [vm_compute; reflexivity | split; [reflexivity | split; [reflexivity | lia]]].
Qed.

End metrics_facts.

(** ** The parameter generators *)

Section generator_facts.
Import Int config.

(** With a positive argument [rand.Int] returns a number of the range, or
    the error of the source. *)
Lemma rand_Int_pos max src pos :
  0 < max ->
  match rand.Int max src pos with
  | (Value n, _) => 0 <= n < max
  | (Error e, _) => src pos = rand.Fails e
  | (Panic _, _) => False
  end.
Proof.
  intros Hmax. unfold rand.Int. destruct (Z.leb_spec max 0); [lia |].
  destruct (Z.eqb_spec max 1); [lia |].
  destruct (src pos) as [e | raw]; [done |].
  apply Z.mod_pos_bound. lia.
Qed.

Lemma rand_Int_nonpos max src pos :
  max <= 0 ->
  rand.Int max src pos = (Panic "crypto/rand: argument to Int is <= 0", pos).
Proof. intros Hmax. unfold rand.Int. destruct (Z.leb_spec max 0); [done | lia]. Qed.

(** A range whose size is an [int]: the draw stays within the bounds. *)
Lemma RandomInt_fits (g : RandomIntGenerator) (src : rand.Reader) (pos : nat) :
  in_int64 (Min g) -> in_int64 (Max g) ->
  Min g <= Max g -> Max g - Min g < max_int64 ->
  match fst (RandomIntGenerator_Generate g src pos) with
  | Value v => exists k, v = OfInt k /\ Min g <= k <= Max g
  | Error e =>
      exists msg, src pos = rand.Fails msg /\
                  e = ("failed to generate random int: " ++ msg)%string
  | Panic _ => False
  end.
Proof.
  unfold in_int64, min_int64, max_int64. intros Hmin Hmax Hle Hfit.
  unfold RandomIntGenerator_Generate.
  destruct (Z.leb_spec (Max g) (Min g)) as [Hsame | Hlt].
  - simpl. exists (Min g). split; [done | lia].
  - unfold mbind, rand_bind, mret, rand_ret, rand.bind, rand.wrapping, rand.ret.
    rewrite (int64_id (Max g - Min g + 1))
      by (unfold in_int64, min_int64, max_int64; lia).
    pose proof (rand_Int_pos (Max g - Min g + 1) src pos ltac:(lia)) as Hdraw.
    destruct (rand.Int (Max g - Min g + 1) src pos) as [[n | e | p] pos1];
      simpl; [| by exists e | done].
    exists (Min g + n). split; [| lia].
    rewrite int64_id; [done | unfold in_int64, min_int64, max_int64; lia].
Qed.

(** A range whose size is not an [int]: the size wraps around to a number
    that is not positive, and [rand.Int] panics. *)
Lemma RandomInt_wraps (g : RandomIntGenerator) (src : rand.Reader) (pos : nat) :
  in_int64 (Min g) -> in_int64 (Max g) ->
  max_int64 <= Max g - Min g ->
  RandomIntGenerator_Generate g src pos =
    (Panic "crypto/rand: argument to Int is <= 0", pos).
Proof.
  unfold in_int64, min_int64, max_int64. intros Hmin Hmax Hwrap.
  unfold RandomIntGenerator_Generate.
  destruct (Z.leb_spec (Max g) (Min g)) as [Hsame | Hlt]; [lia |].
  unfold mbind, rand_bind, mret, rand_ret, rand.bind, rand.wrapping, rand.ret.
  rewrite int64_wrap_high by lia.
  by rewrite rand_Int_nonpos by lia.
Qed.




Example RandomInt_draw :
  rand.run (RandomIntGenerator_Generate {| Min := 1; Max := 10 |})
           (fun _ => rand.Number 7) = Value (OfInt 8).
Proof. reflexivity. Qed.

Example RandomInt_full_range_panics :
  rand.run (RandomIntGenerator_Generate {| Min := min_int64; Max := max_int64 |})
           (fun _ => rand.Number 7) = Panic "crypto/rand: argument to Int is <= 0".
Proof. reflexivity. Qed.

(** *** Indexing *)

Lemma index_lookup (l : list any) (i : Z) (v : any) :
  0 <= i -> l !! Z.to_nat i = Some v -> index l i = Value v.
Proof.
  intros Hi Hv. unfold index, len.
  pose proof (lookup_lt_Some _ _ _ Hv) as Hlt.
  destruct (Z.ltb_spec i 0); [lia |].
  destruct (Z.leb_spec (Z.of_nat (length l)) i); [lia |].
  simpl. by rewrite nth_lookup, Hv.
Qed.

Lemma index_last (l : list any) :
  l <> [] -> index l (len l - 1) = Value (default Nil (last l)).
Proof.
  intros Hl. destruct l as [| a l]; [done |]. rewrite last_lookup.
  unfold len. simpl length. simpl Init.Nat.pred.
  destruct ((a :: l) !! length l) as [v |] eqn:Hv.
  - apply index_lookup; [lia |].
    by replace (Z.to_nat (Z.of_nat (S (length l)) - 1)) with (length l) by lia.
  - apply lookup_ge_None in Hv. simpl in Hv. lia.
Qed.

Lemma index_first (l : list any) : l <> [] -> index l 0 = Value (hd Nil l).
Proof. intros Hl. destruct l as [| v l]; [done | reflexivity]. Qed.

(** *** The weighted draw *)

(** The loop of [generateWeightedChoice] finds what the words "the first
    value whose cumulative weight is >= x" describe. *)
Lemma walk_list_find (target : float) : forall ws (vs : list any) i c,
  length vs = length ws ->
  match walk target i c ws with
  | Some j =>
      exists k v cw, j = i + Z.of_nat k /\ vs !! k = Some v /\
        list_find (fun vc => PrimFloat.leb target (snd vc) = true)
                  (zip vs (cumulative_sums c ws)) = Some (k, (v, cw))
  | None =>
      list_find (fun vc => PrimFloat.leb target (snd vc) = true)
                (zip vs (cumulative_sums c ws)) = None
  end.
Proof.
  induction ws as [| w ws IH]; intros vs i c Hlen.
  - destruct vs; [reflexivity | discriminate].
  - destruct vs as [| v vs]; [discriminate |]. injection Hlen as Hlen.
    cbn [walk cumulative_sums zip zip_with list_find].
    destruct (PrimFloat.leb target (PrimFloat.add c w)) eqn:Hleb.
    + exists 0%nat, v, (PrimFloat.add c w). simpl.
      case_decide; [| done]. split; [lia | by split].
    + specialize (IH vs (i + 1) (PrimFloat.add c w) Hlen).
      case_decide as Hd; [simpl in Hd; congruence |].
      destruct (walk target (i + 1) (PrimFloat.add c w) ws) as [j |].
      * destruct IH as (k & v' & cw & Hj & Hv & Hfind).
        exists (S k), v', cw. rewrite Hfind. split; [lia | by split].
      * by rewrite IH.
Qed.

Lemma Choice_Generate_weighted `{Platform} (g : ChoiceGenerator) :
  Values g <> [] -> length (Weights g) = length (Values g) ->
  ChoiceGenerator_Generate g = generateWeightedChoice g.
Proof.
  intros Hne Hlen. unfold ChoiceGenerator_Generate, len. rewrite Hlen.
  destruct (Values g) as [| v vs]; [done |]. simpl length.
  destruct (Z.eqb_spec (Z.of_nat (S (length vs))) 0); [lia |].
  destruct (Z.ltb_spec 0 (Z.of_nat (S (length vs)))); [| lia].
  by rewrite Z.eqb_refl.
Qed.

(** A weighted draw that goes through: the number drawn is scaled down by
    1000 and looked up in the cumulative sums. *)
Lemma generateWeightedChoice_draw `{Platform} (g : ChoiceGenerator) src pos n pos' :
  Values g <> [] -> length (Weights g) = length (Values g) ->
  let W := fold_left PrimFloat.add (Weights g) 0%float in
  let bound := float64_to_int64 (PrimFloat.mul W 1000) in
  PrimFloat.leb W 0 = false ->
  rand.Int bound src pos = (Value n, pos') ->
  let x := PrimFloat.div (float64_of_int n) 1000 in
  generateWeightedChoice g src pos =
    (Value (first_reaching x (Values g) (Weights g)), pos').
Proof.
  intros Hne Hlen W bound HW Hdraw x.
  unfold generateWeightedChoice. fold W. rewrite HW. fold bound.
  unfold mbind, rand_bind, rand.bind, rand.wrapping, rand.lift.
  rewrite Hdraw. fold x.
  pose proof (walk_list_find x (Weights g) (Values g) 0 0%float (eq_sym Hlen)) as Hwalk.
  unfold first_reaching.
  destruct (walk x 0 0%float (Weights g)) as [j |].
  - destruct Hwalk as (k & v & cw & Hj & Hv & Hfind). rewrite Hfind.
    rewrite (index_lookup _ _ v); [done | lia |].
    by rewrite Hj, Z.add_0_l, Nat2Z.id.
  - rewrite Hwalk. by rewrite index_last.
Qed.

(** C5 (amended). For a choice with values and as many weights, W the sum of
    the weights: if [W <= 0] the first value is returned and the source is
    not used.  Otherwise, when the bound [int64(W * 1000)] is at least 1,
    [rand.Int] draws a number n of [[0, bound)] (or the source fails, and the
    error is returned), x is n / 1000, and the value returned is the first
    one whose cumulative weight is [>= x], the last value when no cumulative
    weight reaches [x]. *)
Theorem weighted_choice `{Platform} (g : ChoiceGenerator) (src : rand.Reader) (pos : nat) :
  Values g <> [] -> length (Weights g) = length (Values g) ->
  let W := fold_left PrimFloat.add (Weights g) 0%float in
  let bound := float64_to_int64 (PrimFloat.mul W 1000) in
  (PrimFloat.leb W 0 = true ->
     ChoiceGenerator_Generate g src pos = (Value (hd Nil (Values g)), pos)) /\
  (PrimFloat.leb W 0 = false -> 1 <= bound ->
     match rand.Int bound src pos with
     | (Value n, pos') =>
         let x := PrimFloat.div (float64_of_int n) 1000 in
         0 <= n < bound /\
         ChoiceGenerator_Generate g src pos =
           (Value (first_reaching x (Values g) (Weights g)), pos')
     | (Error e, pos') =>
         ChoiceGenerator_Generate g src pos =
           (Error ("failed to generate weighted choice: " ++ e)%string, pos')
     | (Panic _, _) => False
     end).
Proof.
  intros Hne Hlen W bound. rewrite Choice_Generate_weighted by done. split.
  - intros HW. unfold generateWeightedChoice. fold W. rewrite HW.
    unfold rand.lift. by rewrite index_first.
  - intros HW Hbound.
    pose proof (rand_Int_pos bound src pos ltac:(lia)) as Hrange.
    destruct (rand.Int bound src pos) as [[n | e | p] pos'] eqn:Hdraw; [| | done].
    + split; [exact Hrange |]. by apply generateWeightedChoice_draw.
    + unfold generateWeightedChoice. fold W. rewrite HW. fold bound.
      unfold mbind, rand_bind, rand.bind, rand.wrapping. by rewrite Hdraw.
Qed.

Lemma weighted_choice_witness :
  let g := even_choice in
  let src : rand.Reader := fun _ => rand.Number 900 in
  0 <= 900 < 1000 /\
  @ChoiceGenerator_Generate amd64 g src 0%nat = (Value (OfString "b"), 1%nat).
Proof.
  intros g src.
  assert (Hne : Values g <> []) by (simpl; discriminate).
  assert (Hlen : length (Weights g) = length (Values g)) by reflexivity.
  assert (HW : PrimFloat.leb (fold_left PrimFloat.add (Weights g) 0%float) 0 = false)
    by (vm_compute; reflexivity).
  assert (Hb : 1 <= @float64_to_int64 amd64
                      (PrimFloat.mul (fold_left PrimFloat.add (Weights g) 0%float) 1000))
    by (vm_compute; congruence).
  exact (proj2 (@weighted_choice amd64 g src 0%nat Hne Hlen) HW Hb).
Defined.

(** Scaling a number below 1000 down by 1000 gives at most 1. *)
Lemma thousandths_le_1 (n : Z) :
  0 <= n < 1000 -> PrimFloat.leb (PrimFloat.div (float64_of_int n) 1000) 1 = true.
Proof.
  intros Hn.
  assert (Hall : forallb (fun k => PrimFloat.leb
             (PrimFloat.div (float64_of_int (Z.of_nat k)) 1000) 1)
           (seq 0 1000) = true) by (vm_compute; reflexivity).
  rewrite forallb_forall in Hall.
  specialize (Hall (Z.to_nat n)). rewrite Z2Nat.id in Hall by lia.
  apply Hall. apply in_seq. lia.
Qed.

(** C5 as stated fails: with the weights 1 and 0.0005 the number x = 1.0002
    lies in [[0, W)] and the first cumulative weight that reaches it belongs
    to "b", so a draw of x that is uniform over [[0, W)] returns "b" with a
    positive chance; [Generate] draws x among the thousandths below 1 and
    never returns "b". *)
Lemma weighted_choice_grid :
  let g := fine_weight_choice in
  let W := fold_left PrimFloat.add (Weights g) 0%float in
  let x := 0x1.000d1b71758e2p+0%float in
  length (Weights g) = length (Values g) /\
  PrimFloat.leb W 0 = false /\
  PrimFloat.leb 0 x = true /\ PrimFloat.ltb x W = true /\
  first_reaching x (Values g) (Weights g) = OfString "b" /\
  forall (P : Platform) src pos,
    fst (@ChoiceGenerator_Generate P g src pos) <> Value (OfString "b").
Proof.
  intros g W x.
  assert (HW : PrimFloat.leb W 0 = false) by (vm_compute; reflexivity).
  do 5 (split; [vm_compute; reflexivity |]).
  intros P src pos.
  assert (Hb : @float64_to_int64 P (PrimFloat.mul W 1000) = 1000)
    by (vm_compute; reflexivity).
  rewrite Choice_Generate_weighted by done.
  pose proof (rand_Int_pos 1000 src pos ltac:(lia)) as Hrange.
  destruct (rand.Int 1000 src pos) as [[n | e | p] pos'] eqn:Hdraw; [| | done].
  - rewrite (generateWeightedChoice_draw g src pos n pos'); try done;
      fold W; rewrite ?Hb; try done.
    pose proof (thousandths_le_1 _ Hrange) as Hle.
    unfold first_reaching, g, fine_weight_choice.
    cbn [Values Weights cumulative_sums zip zip_with list_find snd].
    change (PrimFloat.add 0 1) with 1%float.
    case_decide as Hd; [simpl; discriminate | contradiction].
  - unfold generateWeightedChoice. fold W. rewrite HW, Hb.
    unfold mbind, rand_bind, rand.bind, rand.wrapping. rewrite Hdraw.
    simpl. discriminate.
Qed.

(** C6 fails on the code, whatever the random source holds: a weighted
    choice whose weights sum to 0.0005 (a positive sum) panics in [rand.Int],
    because [int64(0.0005 * 1000)] is 0; a random string of length -1 panics
    in [make]; and a random integer over all of [int] panics in [rand.Int],
    because the size of its range wraps around to 0. *)
Theorem Generate_panics :
  PrimFloat.ltb 0 (fold_left PrimFloat.add (Weights tiny_weight_choice) 0%float) = true /\
  (forall (P : Platform) src pos,
     @ChoiceGenerator_Generate P tiny_weight_choice src pos =
       (Panic "crypto/rand: argument to Int is <= 0", pos)) /\
  (forall (P : Platform) src pos,
     @RandomStringGenerator_Generate P negative_length_string src pos =
       (Panic "runtime error: makeslice: len out of range", pos)) /\
  (forall src pos,
     RandomIntGenerator_Generate {| Min := min_int64; Max := max_int64 |} src pos =
       (Panic "crypto/rand: argument to Int is <= 0", pos)).
Proof.
  split; [vm_compute; reflexivity |].
  split; [| split]; intros; reflexivity.
Qed.

(** *** The uniform draw *)

Lemma Choice_Generate_uniform `{Platform} (g : ChoiceGenerator) :
  Values g <> [] -> length (Weights g) <> length (Values g) ->
  ChoiceGenerator_Generate g =
    (num ← rand.wrapping "failed to generate choice: " (rand.Int (len (Values g)));
     rand.lift (index (Values g) num)).
Proof.
  intros Hne Hlen. unfold ChoiceGenerator_Generate, len.
  destruct (Z.eqb_spec (Z.of_nat (length (Values g))) 0) as [H0 | _].
  - destruct (Values g); [done | simpl in H0; lia].
  - destruct (Z.eqb_spec (Z.of_nat (length (Weights g)))
                         (Z.of_nat (length (Values g)))) as [He | _]; [lia |].
    by rewrite andb_false_r.
Qed.

(** C10. When a choice has values and a list of weights of another length,
    the weights play no part (the outcome is that of the same choice
    without weights): [rand.Int] draws one number n of [[0, len(values))]
    and [values[n]] is returned, or the source fails and its error is
    returned. *)
Theorem Choice_mismatched_weights `{Platform} (g : ChoiceGenerator)
    (src : rand.Reader) (pos : nat) :
  Values g <> [] -> length (Weights g) <> length (Values g) ->
  ChoiceGenerator_Generate g src pos =
    ChoiceGenerator_Generate {| Values := Values g; Weights := [] |} src pos /\
  match rand.Int (len (Values g)) src pos with
  | (Value n, pos') =>
      0 <= n < len (Values g) /\
      exists v, Values g !! Z.to_nat n = Some v /\
        ChoiceGenerator_Generate g src pos = (Value v, pos')
  | (Error e, pos') =>
      ChoiceGenerator_Generate g src pos =
        (Error ("failed to generate choice: " ++ e)%string, pos')
  | (Panic _, _) => False
  end.
Proof.
  intros Hne Hlen.
  assert (Hpos : 0 < len (Values g))
    by (unfold len; destruct (Values g); [done | simpl length; lia]).
  split.
  - rewrite !Choice_Generate_uniform; try done.
    simpl. destruct (Values g); [done | discriminate].
  - rewrite Choice_Generate_uniform by done.
    unfold mbind, rand_bind, rand.bind, rand.wrapping, rand.lift.
    pose proof (rand_Int_pos (len (Values g)) src pos Hpos) as Hrange.
    destruct (rand.Int (len (Values g)) src pos) as [[n | e | p] pos'];
      [| reflexivity | done].
    split; [exact Hrange |].
    destruct (Values g !! Z.to_nat n) as [v |] eqn:Hv.
    + exists v. split; [done |]. by rewrite (index_lookup _ _ v) by (done || lia).
    + apply lookup_ge_None in Hv. unfold len in *. lia.
Qed.

Lemma Choice_mismatched_weights_witness :
  let g := mismatched_choice in
  let src : rand.Reader := fun _ => rand.Number 7 in
  (Values g <> [] /\ length (Weights g) <> length (Values g)) /\
  @ChoiceGenerator_Generate amd64 g src 0%nat =
    @ChoiceGenerator_Generate amd64 {| Values := Values g; Weights := [] |} src 0%nat.
Proof.
  intros g src.
  assert (Hne : Values g <> []) by (simpl; discriminate).
  assert (Hlen : length (Weights g) <> length (Values g)) by (simpl; lia).
  split; [exact (conj Hne Hlen) |].
  exact (proj1 (@Choice_mismatched_weights amd64 g src 0%nat Hne Hlen)).
Defined.

Example mismatched_choice_draw :
  rand.run (@ChoiceGenerator_Generate amd64 mismatched_choice)
           (fun _ => rand.Number 7) = Value (OfString "b").
Proof. reflexivity. Qed.

End generator_facts.

(** ** Target selection *)

Section selection_facts.
Import Int config runner.

Lemma name_at_lookup (names : list string) (i : Z) (name : string) :
  0 <= i -> names !! Z.to_nat i = Some name -> name_at names i = Value name.
Proof.
  intros Hi Hv. unfold name_at, len.
  pose proof (lookup_lt_Some _ _ _ Hv) as Hlt.
  destruct (Z.ltb_spec i 0); [lia |].
  destruct (Z.leb_spec (Z.of_nat (length names)) i); [lia |].
  simpl. by rewrite nth_lookup, Hv.
Qed.

(** One round-robin step on a non-empty list of names. *)
Lemma roundRobin_step (r : Runner) (names : list string) :
  names <> [] -> 0 <= endpointIdx r ->
  exists name,
    names !! Z.to_nat (endpointIdx r mod len names) = Some name /\
    roundRobin r names =
      Value (name, set_endpointIdx r (uint64 (endpointIdx r + 1))).
Proof.
  intros Hne Hidx. unfold roundRobin.
  assert (Hlen : 0 < len names)
    by (unfold len; destruct names; [done | simpl length; lia]).
  destruct (Z.eqb_spec (len names) 0); [lia |].
  pose proof (Z.mod_pos_bound (endpointIdx r) (len names) Hlen) as Hm.
  destruct (names !! Z.to_nat (endpointIdx r mod len names)) as [name |] eqn:Hname.
  - exists name. split; [done |]. by rewrite (name_at_lookup _ _ name) by (done || lia).
  - apply lookup_ge_None in Hname. unfold len in *. lia.
Qed.

(** When the strategy is neither "weighted" nor "random", a call selects by
    round robin over the names in the order its loop visited the map. *)
Lemma selectEndpoint_roundRobin `{Platform} (r : Runner)
    (visited : list (string * EndpointConfig.t)) src pos :
  let strategy := EndpointSelectionConfig.Strategy (EndpointSelection (cfg r)) in
  String.eqb strategy "weighted" = false -> String.eqb strategy "random" = false ->
  visited <> [] -> 0 <= endpointIdx r ->
  exists name,
    visited.*1 !! Z.to_nat (endpointIdx r mod len visited) = Some name /\
    selectEndpoint r visited src pos =
      (Value (name, default EndpointConfig.zero (Endpoints (cfg r) !! name),
              set_endpointIdx r (uint64 (endpointIdx r + 1))), pos).
Proof.
  intros strategy Hw Hr Hne Hidx. unfold selectEndpoint. fold strategy.
  rewrite Hw, Hr.
  destruct (roundRobin_step r (visited.*1)) as (name & Hname & Hrr);
    [by destruct visited | done |].
  exists name. unfold len in *. rewrite length_fmap in Hname. split; [done |].
  unfold mbind, rand_bind, rand.bind, rand.lift. by rewrite Hrr.
Qed.

(** With one and the same visiting order at every call, [k] calls select
    the names at the positions [idx, idx + 1, ...] modulo the number of
    names. *)
Lemma select_in_turn_stable `{Platform} (visited : list (string * EndpointConfig.t))
    src pos : forall (k : nat) (r : Runner),
  let strategy := EndpointSelectionConfig.Strategy (EndpointSelection (cfg r)) in
  String.eqb strategy "weighted" = false -> String.eqb strategy "random" = false ->
  visited <> [] -> 0 <= endpointIdx r -> endpointIdx r + Z.of_nat k < 2 ^ 64 ->
  select_in_turn r (replicate k visited) src pos =
    (Value (map (fun i => nth (Z.to_nat ((endpointIdx r + Z.of_nat i) mod len visited))
                              (visited.*1) "")
                (seq 0 k),
            set_endpointIdx r (endpointIdx r + Z.of_nat k)), pos).
Proof.
  induction k as [| k IH]; intros r strategy Hw Hr Hne Hidx Hfit.
  - simpl. unfold mret, rand_ret, rand.ret. rewrite Z.add_0_r.
    by destruct r.
  - cbn [replicate select_in_turn].
    destruct (selectEndpoint_roundRobin r visited src pos Hw Hr Hne Hidx)
      as (name & Hname & Hsel).
    unfold mbind, rand_bind, rand.bind at 1. rewrite Hsel.
    assert (Hnext : uint64 (endpointIdx r + 1) = endpointIdx r + 1)
      by (unfold uint64; rewrite Z.mod_small; lia).
    rewrite Hnext.
    unfold rand.bind.
    rewrite (IH (set_endpointIdx r (endpointIdx r + 1))); simpl; try done; try lia.
    unfold mret, rand_ret, rand.ret. cbn [seq map].
    change (Z.of_nat 0) with 0. rewrite Z.add_0_r, nth_lookup, Hname.
    rewrite <- seq_shift, map_map.
    replace (set_endpointIdx (set_endpointIdx r (endpointIdx r + 1))
                             (endpointIdx r + 1 + Z.of_nat k))
      with (set_endpointIdx r (endpointIdx r + Z.of_nat (S k)))
      by (unfold set_endpointIdx; simpl; f_equal; lia).
    simpl default.
    match goal with
    | |- (Value (_ :: ?a, _), _) = (Value (_ :: ?b, _), _) => assert (Hm : a = b)
    end.
    { apply map_ext. intros i. do 3 f_equal. lia. }
    by rewrite Hm.
Qed.

(** Over the endpoints "a", "b", "c", visited in this order at every call,
    six calls select a, b, c, a, b, c. *)
Lemma six_calls_stable `{Platform} src pos :
  exists r',
    select_in_turn (NewRunner abc_config metrics.NewCollector)
                   (replicate 6 visit_abc) src pos =
      (Value (["a"; "b"; "c"; "a"; "b"; "c"], r'), pos).
Proof.
  eexists.
  rewrite (select_in_turn_stable visit_abc src pos 6);
    first [reflexivity | done | simpl; lia].
Qed.

(** *** Even shares under one visiting order *)

Lemma map_nth_seq (names : list string) :
  map (fun j => nth j names "") (seq 0 (length names)) = names.
Proof.
  induction names as [| name names IH]; [reflexivity |].
  simpl length. cbn [seq map nth]. f_equal.
  rewrite <- seq_shift, map_map. exact IH.
Qed.

(** The positions [0 .. m * n - 1] taken modulo [n] go [m] times through
    the [n] names. *)
Lemma rounds_of_names (names : list string) (m : nat) :
  names <> [] ->
  map (fun i => nth (Z.to_nat ((0 + Z.of_nat i) mod len names)) names "")
      (seq 0 (m * length names)) =
  concat (replicate m names).
Proof.
  intros Hne.
  assert (Hn : (0 < length names)%nat) by (destruct names; [done | simpl; lia]).
  induction m as [| m IH]; [reflexivity |].
  replace (S m * length names)%nat with (m * length names + length names)%nat by lia.
  rewrite seq_app, map_app, IH, replicate_S_end, concat_app. f_equal.
  simpl concat. rewrite app_nil_r.
  transitivity (map (fun j => nth j names "") (seq 0 (length names)));
    [| apply map_nth_seq].
  rewrite Nat.add_0_l.
  replace (seq (m * length names) (length names))
    with (map (Nat.add (m * length names)) (seq 0 (length names)))
    by (rewrite <- (Nat.add_0_r (m * length names)) at 2; apply fmap_add_seq).
  rewrite map_map. apply map_ext_in. intros j Hj. apply in_seq in Hj. f_equal.
  unfold len. rewrite Z.add_0_l, Nat2Z.inj_add, Nat2Z.inj_mul.
  rewrite Z.add_comm, Z_mod_plus_full, Z.mod_small by lia. lia.
Qed.

Lemma times_selected_app x (l1 l2 : list string) :
  times_selected x (l1 ++ l2) = (times_selected x l1 + times_selected x l2)%nat.
Proof. unfold times_selected. by rewrite filter_app, length_app. Qed.

Lemma times_selected_absent x (names : list string) :
  x ∉ names -> times_selected x names = 0%nat.
Proof.
  unfold times_selected. induction names as [| name names IH]; intros Hnotin.
  - reflexivity.
  - apply not_elem_of_cons in Hnotin as [Hne Hnotin].
    rewrite filter_cons. case_decide; [congruence | by apply IH].
Qed.

Lemma times_selected_NoDup x (names : list string) :
  NoDup names -> x ∈ names -> times_selected x names = 1%nat.
Proof.
  induction 1 as [| name names Hnotin Hnodup IH]; intros Hin.
  - by apply elem_of_nil in Hin.
  - change (name :: names) with ([name] ++ names). rewrite times_selected_app.
    apply elem_of_cons in Hin as [-> | Hin].
    + rewrite (times_selected_absent name names Hnotin).
      unfold times_selected. rewrite filter_cons. by case_decide.
    + rewrite IH by done. unfold times_selected. rewrite filter_cons.
      case_decide as Heq; [subst; done | reflexivity].
Qed.

Lemma times_selected_rounds x (names : list string) (m : nat) :
  NoDup names -> x ∈ names -> times_selected x (concat (replicate m names)) = m.
Proof.
  intros Hnodup Hin. induction m as [| m IH]; [reflexivity |].
  cbn [replicate concat]. rewrite times_selected_app, IH.
  by rewrite times_selected_NoDup.
Qed.

(** X13.  With one and the same visiting order at every call, and the
    counter at 0, a number of calls that is a multiple of the number of
    endpoints selects every endpoint equally often. *)
Lemma select_in_turn_even `{Platform} (visited : list (string * EndpointConfig.t))
    (r : Runner) (m : nat) src pos :
  let strategy := EndpointSelectionConfig.Strategy (EndpointSelection (cfg r)) in
  String.eqb strategy "weighted" = false -> String.eqb strategy "random" = false ->
  visited <> [] -> NoDup (visited.*1) -> endpointIdx r = 0 ->
  Z.of_nat (m * length visited) < 2 ^ 64 ->
  exists names r',
    select_in_turn r (replicate (m * length visited) visited) src pos =
      (Value (names, r'), pos) /\
    forall x, x ∈ visited.*1 -> times_selected x names = m.
Proof.
  intros strategy Hw Hr Hne Hnodup Hidx Hfit.
  rewrite (select_in_turn_stable visited src pos _ r Hw Hr Hne) by lia.
  eexists _, _. split; [reflexivity |]. intros x Hx.
  pose proof (rounds_of_names (visited.*1) m) as Hrounds.
  unfold len in *. rewrite length_fmap in Hrounds.
  rewrite Hidx, Hrounds by (by destruct visited).
  by apply times_selected_rounds.
Qed.

(** The three orders are orders in which a loop may visit the map. *)
Lemma visits_range_over_endpoints :
  Forall (fun visited => ranges_over visited (Endpoints abc_config))
         [visit_abc; visit_bac; visit_bca].
Proof.
  assert (Hmap : map_to_list (Endpoints abc_config) =
                 [("c", endpoint "/c"); ("a", endpoint "/a"); ("b", endpoint "/b")])
    by (vm_compute; reflexivity).
  unfold ranges_over. rewrite Hmap.
  repeat constructor.
  - apply Permutation_cons_app with (l1 := [("c", endpoint "/c")]) (l2 := [("b", endpoint "/b")]).
    apply Permutation_cons_app with (l1 := [("c", endpoint "/c")]) (l2 := []). reflexivity.
  - apply Permutation_cons_app with (l1 := [("c", endpoint "/c"); ("a", endpoint "/a")]) (l2 := []).
    apply Permutation_cons_app with (l1 := [("c", endpoint "/c")]) (l2 := []). reflexivity.
  - apply Permutation_cons_app with (l1 := [("c", endpoint "/c"); ("a", endpoint "/a")]) (l2 := []).
    apply Permutation_cons_app with (l1 := []) (l2 := [("a", endpoint "/a")]). reflexivity.
Qed.

(** C7 fails on the code.  Each call of [selectEndpoint] builds the list of
    names anew by a loop over the map of endpoints, and the order of such a
    loop is not fixed: when three calls in a row visit the map as (a, b, c),
    (b, a, c) and (b, c, a), each returns [names[counter mod 3]] of its own
    list, and the three calls select a, a, a. *)
Theorem round_robin_follows_map_order :
  Forall (fun visited => ranges_over visited (Endpoints abc_config))
         [visit_abc; visit_bac; visit_bca] /\
  forall (P : Platform) src pos,
    exists r',
      @select_in_turn P (NewRunner abc_config metrics.NewCollector)
                      [visit_abc; visit_bac; visit_bca] src pos =
        (Value (["a"; "a"; "a"], r'), pos) /\
      endpointIdx r' = 3.
Proof.
  split; [exact visits_range_over_endpoints |].
  intros P src pos. eexists. split; vm_compute; reflexivity.
Qed.

End selection_facts.

(** ** Building the URL *)

Section url_facts.
Import Int config runner.

Lemma append_slash_not_empty (b : string) : (b ++ "/")%string <> "".
Proof. destruct b; discriminate. Qed.

(** [TrimSuffix s "/"] cuts the last character of [s] when it is a slash,
    and leaves [s] as it is otherwise. *)
Lemma TrimSuffix_slash (s : string) :
  (exists b, s = (b ++ "/")%string /\ strings.TrimSuffix s "/" = b) \/
  ((forall b, s <> (b ++ "/")%string) /\ strings.TrimSuffix s "/" = s).
Proof.
  induction s as [| c s IH].
  - right. split; [| reflexivity]. intros b Hb. by apply (append_slash_not_empty b).
  - cbn [strings.TrimSuffix]. destruct (String.eqb_spec (String c s) "/") as [Heq | Hne].
    + left. exists "". by rewrite Heq.
    + destruct IH as [(b & Hb & Htrim) | (Hno & Htrim)].
      * left. exists (String c b). rewrite Htrim, Hb. done.
      * right. rewrite Htrim. split; [| reflexivity].
        intros [| c' b] Hb; simpl in Hb.
        -- by apply Hne.
        -- injection Hb as -> Hs. by apply (Hno b).
Qed.

Lemma resolvePath_no_parameters `{Platform} `{External} (path : string) src pos :
  resolvePath path [] src pos = (Value path, pos).
Proof. reflexivity. Qed.

(** C8 (amended). A URL that [buildURL] returns is the base URL, cut by its
    last character when that is a '/', with the resolved path right after
    it: nothing is put between the two.  Without path parameters the
    resolved path is the path of the endpoint. *)
Theorem buildURL_concatenates `{Platform} `{External} (baseURL path : string)
    (pathParams : list (string * any)) (src : rand.Reader) (pos pos' : nat)
    (url : string) :
  buildURL baseURL path pathParams src pos = (Value url, pos') ->
  exists base fullPath,
    resolvePath path pathParams src pos = (Value fullPath, pos') /\
    url = (base ++ fullPath)%string /\
    (baseURL = (base ++ "/")%string \/
     (base = baseURL /\ forall b, baseURL <> (b ++ "/")%string)) /\
    (pathParams = [] -> fullPath = path).
Proof.
  unfold buildURL, mbind, rand_bind, rand.bind, mret, rand_ret, rand.ret.
  intros Hbuild.
  destruct (resolvePath path pathParams src pos) as [[fullPath | e | p] pos1] eqn:Hres;
    [| discriminate | discriminate].
  injection Hbuild as <- <-.
  exists (strings.TrimSuffix baseURL "/"), fullPath.
  split; [reflexivity |]. split; [reflexivity |]. split.
  - destruct (TrimSuffix_slash baseURL) as [(b & Hb & Htrim) | (Hno & Htrim)].
    + left. by rewrite Htrim.
    + right. by rewrite Htrim.
  - intros ->. rewrite resolvePath_no_parameters in Hres. congruence.
Qed.

Lemma buildURL_concatenates_witness :
  exists base fullPath,
    @resolvePath amd64 sample_library "/users/{id}" [("id", OfString "42")]
                 (fun _ => rand.Number 7) 0%nat = (Value fullPath, 0%nat) /\
    "http://h/users/42" = (base ++ fullPath)%string /\
    ("http://h/" = (base ++ "/")%string \/
     (base = "http://h/" /\ forall b, "http://h/" <> (b ++ "/")%string)) /\
    ([("id", OfString "42")] = [] -> fullPath = "/users/{id}").
Proof.
  exact (@buildURL_concatenates amd64 sample_library "http://h/" "/users/{id}"
           [("id", OfString "42")] (fun _ => rand.Number 7) 0%nat 0%nat
           "http://h/users/42" eq_refl).
Defined.

(** C8 as stated fails.  For the base URL "http://h" and the path "users"
    the URL built is "http://husers": no '/' separates the two.  For the base
    URL "http://h//" and the path "/users" it is "http://h//users": one of
    the two trailing slashes of the base URL stays. *)
Lemma buildURL_adds_no_separator :
  (forall (P : Platform) (E : External) src pos,
     @buildURL P E "http://h" "users" [] src pos = (Value "http://husers", pos)) /\
  ~ joined_by_one_slash "http://h" "users" "http://husers" /\
  joined_by_one_slash "http://h" "users" "http://h/users" /\
  (forall (P : Platform) (E : External) src pos,
     @buildURL P E "http://h//" "/users" [] src pos = (Value "http://h//users", pos)) /\
  ~ joined_by_one_slash "http://h//" "/users" "http://h//users" /\
  joined_by_one_slash "http://h//" "/users" "http://h/users".
Proof.
  unfold joined_by_one_slash.
  split; [reflexivity |]. split; [simpl; discriminate |].
  split; [reflexivity |]. split; [reflexivity |].
  split; [simpl; discriminate | reflexivity].
Qed.

(** In the usual case the two readings agree. *)
Example buildURL_usual_case :
  @buildURL amd64 sample_library "http://h/" "/users" [] (fun _ => rand.Number 7) 0%nat
    = (Value "http://h/users", 0%nat) /\
  joined_by_one_slash "http://h/" "/users" "http://h/users".
Proof. split; reflexivity. Qed.

End url_facts.

(** ** One request *)

Section request_facts.
Import Int config runner.

Lemma createErrorMetric_error_record url method errorMsg a :
  errorMsg <> "" -> error_record (createErrorMetric url method errorMsg a).
Proof. intros Hmsg. by repeat split. Qed.

Lemma url_Error_not_empty `{External} (e : url_Error) : url_Error_Error e <> "".
Proof. unfold url_Error_Error. destruct (Op e); discriminate. Qed.

(** Whenever [makeRequest] returns, it returns one record, of a failed
    attempt or of an answered one; it returns no error of its own. *)
Lemma makeRequest_records `{Platform} `{External} (baseURL endpointName : string)
    (endpoint : EndpointConfig.t) (a : Attempt) src pos :
  match fst (makeRequest baseURL endpointName endpoint a src pos) with
  | Value d => error_record d \/ response_record a d
  | Error _ => False
  | Panic _ => True
  end.
Proof.
  unfold makeRequest, rand.try.
  destruct (buildURL _ _ _ src pos) as [[fullURL | e | p] pos1]; simpl;
    [| left; by apply createErrorMetric_error_record | done].
  match goal with
  | |- context [(if ?c then ?x else ?y) src pos1] =>
      destruct ((if c then x else y) src pos1) as [[fullURL' | e | p] pos2]
  end; simpl; [| left; by apply createErrorMetric_error_record | done].
  match goal with
  | |- context [?m src pos2] =>
      destruct (m src pos2) as [[body | e | p] pos3]
  end; simpl; [| left; by apply createErrorMetric_error_record | done].
  destruct (NewRequest_error _ fullURL') as [e |]; simpl;
    [left; by apply createErrorMetric_error_record |].
  match goal with
  | |- context [Do a ?req] => destruct (Do a req) as [status | err] eqn:Hdo
  end; simpl.
  - right. eexists _, status. by repeat split.
  - left. apply createErrorMetric_error_record, url_Error_not_empty.
Qed.

(** C3 fails on the code.  For the endpoint whose path parameter "id" is
    defined as a random string of length -1, [makeRequest] panics in the
    generator (in [make([]byte, -1)]) and returns no record, whatever the
    random source, the client and the clock do. *)
Theorem makeRequest_panics :
  ranges_over [("id", negative_length_def)] (EndpointConfig.PathParameters user_endpoint) /\
  forall (P : Platform) (E : External) baseURL query headers client t1 t2 t3 src pos,
    @makeRequest P E baseURL "user" user_endpoint
      {| pathRange := [("id", negative_length_def)]; queryRange := query;
         headerRange := headers; Do := client;
         sinceDo := t1; sinceReport := t2; nowReport := t3 |} src pos =
    (Panic "runtime error: makeslice: len out of range", pos).
Proof.
  split.
  - unfold ranges_over, user_endpoint. simpl. by rewrite map_to_list_singleton.
  - intros. reflexivity.
Qed.

End request_facts.

(** ** The run *)

Section run_facts.
Import Int config runner.

(** C9. In fixed mode, with a rate that is not positive, without endpoints
    or without base URLs, and in a mode other than "fixed" and "ramp", [Run]
    returns an error and leaves everything as it was: no request task was
    started, nothing was sent to the channel or appended to the collector,
    no counter moved and the random source was not used. *)
Theorem Run_rejects `{Platform} `{External} (turns : list turn)
    (src : rand.Reader) (w : world) :
  let c := cfg (runner_of w) in
  let mode := ExecutionConfig.Mode (Execution c) in
  (mode = "fixed" /\
   (ExecutionConfig.RequestsPerSecond (Execution c) <= 0 \/
    Endpoints c = ∅ \/ BaseUrls c = [])) \/
  (mode <> "fixed" /\ mode <> "ramp") ->
  exists msg, Run turns src w = (Error msg, w).
Proof.
  intros c mode Hbad. unfold Run, runFixedRPSMode. fold c. fold mode.
  destruct Hbad as [(Hmode & Hbad) | (Hfixed & Hramp)].
  - rewrite Hmode. simpl String.eqb.
    destruct (Z.leb_spec (ExecutionConfig.RequestsPerSecond (Execution c)) 0);
      [by eexists |].
    destruct Hbad as [Hrate | [Hends | Hurls]]; [lia | |].
    + rewrite Hends, map_size_empty. by eexists.
    + destruct (_ =? 0); [by eexists |]. rewrite Hurls. by eexists.
  - destruct (String.eqb_spec mode "fixed"); [done |].
    destruct (String.eqb_spec mode "ramp"); [done |]. by eexists.
Qed.

Lemma Run_rejects_witness :
  exists msg,
    @Run amd64 sample_library two_ticks (fun _ => rand.Number 7)
         (start (NewRunner zero_rate_config metrics.NewCollector)) =
    (Error msg, start (NewRunner zero_rate_config metrics.NewCollector)).
Proof.
  apply (@Run_rejects amd64 sample_library).
  left. split; [reflexivity |]. left. simpl. lia.
Defined.

(** A run of "ramp" mode is turned down in the same way. *)
Lemma Run_ramp `{Platform} `{External} (turns : list turn) src (w : world) :
  ExecutionConfig.Mode (Execution (cfg (runner_of w))) = "ramp" ->
  Run turns src w = (Error "ramp up mode not yet implemented", w).
Proof. intros Hmode. unfold Run. by rewrite Hmode. Qed.

(** A valid configuration does start request tasks: two ticks within the
    duration start two, and their records reach the collector. *)
Example Run_two_ticks :
  let '(o, w) := @Run amd64 sample_library two_ticks (fun _ => rand.Number 7)
                      (start (NewRunner abc_config metrics.NewCollector)) in
  o = Value empty_result /\
  dispatched w = [("b", "http://h"); ("a", "http://h")] /\
  map metrics.URL (metrics.allRequests (collector (runner_of w))) =
    ["http://h/a"; "http://h/b"].
Proof. vm_compute. repeat split. Qed.

End run_facts.

(** * Further properties *)

(** ** The snapshot: histograms, extremes, order *)

Section histogram_facts.
Import Int metrics.

Context `{Countable K} (cond : MetricDetail -> bool) (key : MetricDetail -> K).

Lemma tally_count_app k rs1 rs2 :
  tally_count cond key k (rs1 ++ rs2) =
  tally_count cond key k rs1 + tally_count cond key k rs2.
Proof. unfold tally_count. rewrite filter_app, length_app. lia. Qed.

Lemma tally_count_bounds k rs :
  0 <= tally_count cond key k rs <= Z.of_nat (length rs).
Proof.
  unfold tally_count.
  pose proof (length_filter (fun r => cond r = true /\ key r = k) rs). lia.
Qed.

Lemma tally_count_one k r :
  tally_count cond key k [r] = if decide (cond r = true /\ key r = k) then 1 else 0.
Proof. unfold tally_count. rewrite filter_cons, filter_nil. by case_decide. Qed.

(** The map after the loop holds, for every key, the number of records
    counted under it. *)
Lemma tally_counts rs : forall done (g : gmap K Z),
  (forall k, g !! k = entry_of (tally_count cond key k done)) ->
  Z.of_nat (length done) + Z.of_nat (length rs) <= max_int64 ->
  exists g', fold_left (tally cond key) rs (Some g) = Some g' /\
             forall k, g' !! k = entry_of (tally_count cond key k (done ++ rs)).
Proof.
  induction rs as [| r rs IH]; intros done g Hg Hfit.
  - exists g. split; [reflexivity |]. intros k. by rewrite app_nil_r.
  - simpl length in Hfit. cbn [fold_left].
    assert (Hstep : exists g1, tally cond key (Some g) r = Some g1 /\
              forall k, g1 !! k = entry_of (tally_count cond key k (done ++ [r]))).
    { unfold tally. destruct (cond r) eqn:Hc.
      - eexists. split; [reflexivity |]. intros k.
        rewrite tally_count_app, tally_count_one.
        pose proof (tally_count_bounds (key r) done) as Hb.
        destruct (decide (key r = k)) as [<- | Hne].
        + rewrite lookup_insert_eq, Hg. rewrite decide_True by done.
          unfold entry_of at 1.
          assert (Hmax : max_int64 = 2 ^ 63 - 1) by reflexivity.
          assert (Hmin : min_int64 = - 2 ^ 63) by reflexivity.
          destruct (Z.eqb_spec (tally_count cond key (key r) done) 0) as [Hz | Hnz];
            simpl default; (rewrite int64_id by (unfold in_int64; lia));
            unfold entry_of.
          * by rewrite Hz.
          * destruct (Z.eqb_spec (tally_count cond key (key r) done + 1) 0);
              [lia | done].
        + rewrite lookup_insert_ne by done. rewrite Hg.
          rewrite decide_False by (intros [_ ?]; done). by rewrite Z.add_0_r.
      - exists g. split; [reflexivity |]. intros k.
        rewrite tally_count_app, tally_count_one, Hg.
        rewrite decide_False by (intros [? _]; congruence). by rewrite Z.add_0_r. }
    destruct Hstep as (g1 & -> & Hg1).
    destruct (IH (done ++ [r]) g1 Hg1) as (g' & Hfold & Hg').
    { rewrite length_app. simpl length. lia. }
    exists g'. split; [exact Hfold |]. intros k. rewrite Hg'. by rewrite <- app_assoc.
Qed.

End histogram_facts.

Section snapshot_facts.
Import Int metrics.

Lemma filter_none {A} (P : A -> Prop) `{forall x, Decision (P x)} (l : list A) :
  (forall x, ~ P x) -> filter P l = [].
Proof.
  intros Hno. induction l as [| x l IH]; [reflexivity |].
  by rewrite filter_cons_False.
Qed.

Lemma observe_StatusCodesCount rs : forall res,
  StatusCodesCount (fold_left observe rs res) =
  fold_left (tally (fun _ => true) StatusCode) rs (StatusCodesCount res).
Proof. induction rs as [| r rs IH]; intros res; simpl; [done | by rewrite IH]. Qed.

Lemma observe_ErrorDetails rs : forall res,
  ErrorDetails (fold_left observe rs res) =
  fold_left (tally (fun r => failed r && negb (String.eqb (ErrorMsg r) "")) ErrorMsg)
            rs (ErrorDetails res).
Proof. induction rs as [| r rs IH]; intros res; simpl; [done | by rewrite IH]. Qed.

(** The two maps of the snapshot come out of the loop untouched by the
    last step of [GetResults]. *)
Lemma GetResults_maps rs :
  StatusCodesCount (GetResults (ingest rs)) =
    fold_left (tally (fun _ => true) StatusCode) rs (Some ∅) /\
  ErrorDetails (GetResults (ingest rs)) =
    fold_left (tally (fun r => failed r && negb (String.eqb (ErrorMsg r) "")) ErrorMsg)
              rs (Some ∅).
Proof.
  unfold GetResults. rewrite allRequests_ingest.
  destruct rs as [| r rs]; [done |].
  set (all := r :: rs). cbv zeta.
  match goal with |- context [0 <? ?t] => destruct (0 <? t) end;
    cbn [set_AvgDuration set_MinDuration StatusCodesCount ErrorDetails];
    by rewrite observe_StatusCodesCount, observe_ErrorDetails.
Qed.

(** X1. The status-code histogram of the snapshot holds, for every status
    code, the number of records with that code, and no entry for a code that
    no record has. *)
Theorem GetResults_status_histogram (rs : list MetricDetail) :
  Z.of_nat (length rs) <= max_int64 ->
  exists m, StatusCodesCount (GetResults (ingest rs)) = Some m /\
            forall k, m !! k = entry_of (count_status k rs).
Proof.
  intros Hfit. rewrite (proj1 (GetResults_maps rs)).
  destruct (tally_counts (fun _ => true) StatusCode rs [] ∅) as (m & Hm & Hk).
  - intros k. by rewrite lookup_empty.
  - simpl length. lia.
  - exists m. split; [exact Hm |]. intros k. rewrite Hk. simpl app.
    unfold tally_count, count_status. do 3 f_equal.
    apply list_filter_iff. intros r. tauto.
Qed.

Lemma GetResults_status_histogram_witness :
  exists m, StatusCodesCount (GetResults (ingest sample_records)) = Some m /\
            forall k, m !! k = entry_of (count_status k sample_records).
Proof.
  apply GetResults_status_histogram. unfold max_int64. simpl. lia.
Defined.

(** X2. The error histogram of the snapshot holds, for every message other
    than the empty one, the number of failed records with that message; it
    has no entry for the empty message, and the message of a record that did
    not fail is not counted. *)
Theorem GetResults_error_histogram (rs : list MetricDetail) :
  Z.of_nat (length rs) <= max_int64 ->
  exists m, ErrorDetails (GetResults (ingest rs)) = Some m /\
            m !! "" = None /\
            forall msg, msg <> "" -> m !! msg = entry_of (count_message msg rs).
Proof.
  intros Hfit. rewrite (proj2 (GetResults_maps rs)).
  destruct (tally_counts (fun r => failed r && negb (String.eqb (ErrorMsg r) ""))
                         ErrorMsg rs [] ∅) as (m & Hm & Hk).
  - intros k. by rewrite lookup_empty.
  - simpl length. lia.
  - exists m. split; [exact Hm |]. simpl app in Hk. split.
    + rewrite Hk. unfold tally_count. rewrite filter_none; [reflexivity |].
      intros r [Hc Hmsg]. rewrite Hmsg in Hc. simpl in Hc.
      by rewrite andb_false_r in Hc.
    + intros msg Hmsg. rewrite Hk. unfold tally_count, count_message. do 3 f_equal.
      apply list_filter_iff. intros r. split.
      * intros [Hc He]. apply andb_true_iff in Hc. tauto.
      * intros [Hf He]. split; [| done]. rewrite Hf, He. simpl.
        apply negb_true_iff. by apply String.eqb_neq.
Qed.

Lemma GetResults_error_histogram_witness :
  exists m, ErrorDetails (GetResults (ingest sample_records)) = Some m /\
            m !! "" = None /\
            forall msg, msg <> "" -> m !! msg = entry_of (count_message msg sample_records).
Proof.
  apply GetResults_error_histogram. unfold max_int64. simpl. lia.
Defined.

(** *** The extremes *)

Lemma observe_MinDuration_attained rs : forall res,
  MinDuration (fold_left observe rs res) = MinDuration res \/
  exists r, r ∈ rs /\ MinDuration (fold_left observe rs res) = Duration r.
Proof.
  induction rs as [| r rs IH]; intros res; simpl; [by left |].
  destruct (IH (observe res r)) as [Hsame | (r' & Hin & Hr')].
  - rewrite Hsame. simpl. destruct (Duration r <? MinDuration res).
    + right. exists r. split; [by left | done].
    + by left.
  - right. exists r'. split; [by right | done].
Qed.

Lemma observe_MaxDuration_attained rs : forall res,
  MaxDuration (fold_left observe rs res) = MaxDuration res \/
  exists r, r ∈ rs /\ MaxDuration (fold_left observe rs res) = Duration r.
Proof.
  induction rs as [| r rs IH]; intros res; simpl; [by left |].
  destruct (IH (observe res r)) as [Hsame | (r' & Hin & Hr')].
  - rewrite Hsame. simpl. destruct (MaxDuration res <? Duration r).
    + right. exists r. split; [by left | done].
    + by left.
  - right. exists r'. split; [by right | done].
Qed.

(** For a record set that is not empty (and fits a slice), the snapshot is
    the result of the loop with the average filled in. *)
Lemma GetResults_loop r rs :
  Z.of_nat (length (r :: rs)) <= max_int64 ->
  let loop := fold_left observe (r :: rs) (initial (Duration r)) in
  GetResults (ingest (r :: rs)) =
    set_AvgDuration loop (quo (TotalDuration loop) (TotalRequests loop)).
Proof.
  intros Hfit loop. unfold GetResults. rewrite allRequests_ingest. cbv zeta.
  fold loop.
  destruct (observe_counters (r :: rs) (initial (Duration r))) as (Ht & _ & _);
    try (cbn [initial TotalRequests SuccessfulRequests FailedRequests]; lia).
  fold loop in Ht. cbn [initial TotalRequests] in Ht.
  destruct (Z.ltb_spec 0 (TotalRequests loop)); [done |].
  simpl length in Ht. lia.
Qed.

(** X3. For a record set that is not empty, [MinDuration] is the least of
    the durations recorded.  [MaxDuration] starts from 0: it is the greatest
    duration when that is positive, and 0 otherwise, so it is never
    negative and is at least every duration. *)
Theorem GetResults_extremes (rs : list MetricDetail) :
  rs <> [] -> Z.of_nat (length rs) <= max_int64 ->
  let res := GetResults (ingest rs) in
  (exists r, r ∈ rs /\ MinDuration res = Duration r) /\
  (forall r, r ∈ rs -> MinDuration res <= Duration r <= MaxDuration res) /\
  0 <= MaxDuration res /\
  (MaxDuration res = 0 \/ exists r, r ∈ rs /\ MaxDuration res = Duration r).
Proof.
  intros Hne Hfit. destruct rs as [| r0 rs]; [done |].
  rewrite GetResults_loop by done. cbv zeta.
  cbn [set_AvgDuration MinDuration MaxDuration].
  set (all := r0 :: rs).
  destruct (observe_MinDuration all (initial (Duration r0))) as [_ Hmin].
  destruct (observe_MaxDuration all (initial (Duration r0))) as [Hmax0 Hmax].
  rewrite Forall_forall in Hmin, Hmax. cbn [initial MaxDuration] in Hmax0.
  split; [| split; [| split]].
  - destruct (observe_MinDuration_attained all (initial (Duration r0)))
      as [Hsame | Hex]; [| exact Hex].
    exists r0. split; [by left | exact Hsame].
  - intros r Hr. split; [by apply Hmin | by apply Hmax].
  - exact Hmax0.
  - exact (observe_MaxDuration_attained all (initial (Duration r0))).
Qed.

Lemma GetResults_extremes_witness :
  let res := GetResults (ingest sample_records) in
  (exists r, r ∈ sample_records /\ MinDuration res = Duration r) /\
  (forall r, r ∈ sample_records -> MinDuration res <= Duration r <= MaxDuration res) /\
  0 <= MaxDuration res /\
  (MaxDuration res = 0 \/ exists r, r ∈ sample_records /\ MaxDuration res = Duration r).
Proof.
  apply GetResults_extremes; [discriminate | unfold max_int64; simpl; lia].
Defined.

(** *** The order of the records *)

Lemma incr_comm `{Countable K} (k1 k2 : K) (m : option (gmap K Z)) :
  incr k1 (incr k2 m) = incr k2 (incr k1 m).
Proof.
  destruct m as [g |]; [| reflexivity]. unfold incr. f_equal.
  destruct (decide (k1 = k2)) as [-> | Hne]; [reflexivity |].
  rewrite !(lookup_insert_ne g) by done.
  by rewrite insert_insert_ne.
Qed.

Lemma tally_comm `{Countable K} (cond : MetricDetail -> bool) (key : MetricDetail -> K)
    (m : option (gmap K Z)) (a b : MetricDetail) :
  tally cond key (tally cond key m a) b = tally cond key (tally cond key m b) a.
Proof. unfold tally. destruct (cond a), (cond b); try done. apply incr_comm. Qed.

(** Two steps of the loop can be swapped. *)
Lemma observe_comm (res : AggregatedResults) (a b : MetricDetail) :
  observe (observe res a) b = observe (observe res b) a.
Proof.
  unfold observe. cbn [TotalRequests SuccessfulRequests FailedRequests
    TotalDuration AvgDuration MinDuration MaxDuration StatusCodesCount ErrorDetails].
  f_equal.
  - by destruct (failed a), (failed b).
  - by destruct (failed a), (failed b).
  - rewrite !int64_add_l. f_equal. lia.
  - destruct (Z.ltb_spec (Duration a) (MinDuration res)),
             (Z.ltb_spec (Duration b) (MinDuration res));
      repeat match goal with
             | |- context [?x <? ?y] => destruct (Z.ltb_spec x y)
             end; lia.
  - destruct (Z.ltb_spec (MaxDuration res) (Duration a)),
             (Z.ltb_spec (MaxDuration res) (Duration b));
      repeat match goal with
             | |- context [?x <? ?y] => destruct (Z.ltb_spec x y)
             end; lia.
  - apply incr_comm.
  - exact (tally_comm (fun r => failed r && negb (String.eqb (ErrorMsg r) "")) ErrorMsg
             (ErrorDetails res) a b).
Qed.

Lemma observe_permutation rs rs' :
  rs ≡ₚ rs' -> forall res, fold_left observe rs res = fold_left observe rs' res.
Proof.
  induction 1 as [| x l l' _ IH | x y l | l l' l'' _ IH1 _ IH2]; intros res; simpl.
  - reflexivity.
  - apply IH.
  - by rewrite observe_comm.
  - by rewrite IH1.
Qed.

(** The minimum the loop starts from does not matter once it is lowered to
    the duration of a record of the list. *)
Lemma observe_min_absorbed rs x m :
  x ∈ rs ->
  fold_left observe rs (initial m) =
  fold_left observe rs (initial (Z.min m (Duration x))).
Proof.
  intros Hin. apply elem_of_Permutation in Hin as [rest Hperm].
  rewrite !(observe_permutation rs (x :: rest) Hperm). simpl. f_equal.
  unfold observe, initial. simpl. f_equal.
  repeat match goal with
         | |- context [?a <? ?b] => destruct (Z.ltb_spec a b)
         end; lia.
Qed.

(** X4. The snapshot does not depend on the order in which the records
    reached the collector. *)
Theorem GetResults_permutation (rs rs' : list MetricDetail) :
  rs ≡ₚ rs' -> GetResults (ingest rs) = GetResults (ingest rs').
Proof.
  intros Hperm. unfold GetResults. rewrite !allRequests_ingest.
  destruct rs as [| r rs]; destruct rs' as [| r' rs'].
  - reflexivity.
  - by apply Permutation_nil_cons in Hperm.
  - symmetry in Hperm. by apply Permutation_nil_cons in Hperm.
  - set (all := r :: rs) in *. set (all' := r' :: rs') in *. cbv zeta.
    assert (Hloop : fold_left observe all (initial (Duration r)) =
                    fold_left observe all' (initial (Duration r'))).
    { rewrite <- (observe_permutation all all' Hperm).
      rewrite (observe_min_absorbed all r' (Duration r)).
      - rewrite (observe_min_absorbed all r (Duration r')); [| by left].
        by rewrite Z.min_comm.
      - rewrite Hperm. by left. }
    by rewrite Hloop.
Qed.

Lemma GetResults_permutation_witness :
  GetResults (ingest sample_records) = GetResults (ingest sample_records_swapped).
Proof. apply GetResults_permutation. apply perm_swap. Defined.

(** *** One more record *)

Lemma ingest_allRequests (c : Collector) : ingest (allRequests c) = c.
Proof.
  pose proof (allRequests_ingest (allRequests c)) as Heq.
  destruct c, (ingest _). simpl in Heq. by rewrite Heq.
Qed.

(** X5. Recording one more request raises the total of the snapshot by one,
    and with it the failed requests when the request is an error or has a
    status code of 400 or more, the successful requests otherwise. *)
Theorem RecordRequest_grows (c : Collector) (url method : string) (statusCode : Z)
    (duration : Z) (isError : bool) (errorMsg : string) (now : Z) :
  Z.of_nat (length (allRequests c)) < max_int64 ->
  let before := GetResults c in
  let after := GetResults (RecordRequest c url method statusCode duration
                             isError errorMsg now) in
  TotalRequests after = TotalRequests before + 1 /\
  (if isError || (400 <=? statusCode)
   then FailedRequests after = FailedRequests before + 1 /\
        SuccessfulRequests after = SuccessfulRequests before
   else FailedRequests after = FailedRequests before /\
        SuccessfulRequests after = SuccessfulRequests before + 1).
Proof.
  intros Hfit.
  set (d := {| URL := url; Method := method; StatusCode := statusCode;
               Duration := duration; IsError := isError; ErrorMsg := errorMsg;
               Timestamp := now |}).
  cbv zeta.
  replace (GetResults (RecordRequest c url method statusCode duration isError
                         errorMsg now))
    with (GetResults (ingest (allRequests c ++ [d])))
    by (f_equal; apply (ingest_allRequests (RecordRequest c url method statusCode
                          duration isError errorMsg now))).
  replace (GetResults c) with (GetResults (ingest (allRequests c)))
    by (by rewrite ingest_allRequests).
  destruct (GetResults_counters (allRequests c)) as (Ht & Hf & Hs); [lia |].
  destruct (GetResults_counters (allRequests c ++ [d])) as (Ht' & Hf' & Hs').
  { rewrite length_app. simpl length. lia. }
  rewrite Ht, Hf, Hs, Ht', Hf', Hs'.
  assert (Hcount : count_failed (allRequests c ++ [d]) =
                   count_failed (allRequests c) + (if failed d then 1 else 0)).
  { unfold count_failed. rewrite filter_app, length_app, filter_cons, filter_nil.
    destruct (failed d); case_decide; try congruence; simpl length; lia. }
  rewrite Hcount, length_app. simpl length.
  change (failed d) with (isError || (400 <=? statusCode)).
  destruct (isError || (400 <=? statusCode)); lia.
Qed.

Lemma RecordRequest_grows_witness :
  let c := ingest sample_records in
  let before := GetResults c in
  let after := GetResults (RecordRequest c "http://h/d" "GET" 503 1000 false "" 4) in
  TotalRequests after = TotalRequests before + 1 /\
  FailedRequests after = FailedRequests before + 1 /\
  SuccessfulRequests after = SuccessfulRequests before.
Proof.
  intros c.
  assert (Hfit : Z.of_nat (length (allRequests c)) < max_int64)
    by (unfold max_int64; simpl; lia).
  exact (RecordRequest_grows c "http://h/d" "GET" 503 1000 false "" 4 Hfit).
Defined.

End snapshot_facts.

(** ** The generators of strings, arrays and objects *)

Section string_facts.
Import Int config.

Lemma getCharset_size (charsetType : string) : 1 < strlen (getCharset charsetType).
Proof.
  unfold getCharset.
  repeat match goal with |- context [String.eqb ?a ?b] => destruct (String.eqb a b) end;
    vm_compute; reflexivity.
Qed.

Lemma get_chars (s : string) : forall n : nat,
  (n < String.length s)%nat -> exists c, String.get n s = Some c /\ c ∈ chars s.
Proof.
  induction s as [|a s IH]; intros n Hn; cbn in Hn; [lia|].
  destruct n as [|n]; cbn.
  - exists a. split; [done | apply elem_of_cons; by left].
  - destruct (IH n) as (c & Hc & Hin); [lia|].
    exists c. split; [done | apply elem_of_cons; by right].
Qed.

Lemma length_string_of_list_ascii (l : list ascii) :
  String.length (String.string_of_list_ascii l) = length l.
Proof. induction l as [|a l IH]; cbn; [done | by rewrite IH]. Qed.

Lemma fill_spec (charset : string) (src : rand.Reader) :
  1 < strlen charset ->
  forall todo done pos,
    match fill charset todo done src pos with
    | (Value bytes, pos') =>
        (exists drawn, bytes = done ++ drawn /\ length drawn = length todo /\
                       Forall (fun c => c ∈ chars charset) drawn) /\
        pos' = (pos + length todo)%nat
    | (Error e, pos') =>
        exists k msg, (k < length todo)%nat /\ src (pos + k)%nat = rand.Fails msg /\
          (forall j, (j < k)%nat -> exists raw, src (pos + j)%nat = rand.Number raw) /\
          e = ("failed to generate random string: " ++ msg)%string /\
          pos' = S (pos + k)
    | (Panic _, _) => False
    end.
Proof.
  intros Hsize. induction todo as [|b todo IH]; intros done pos.
  - cbn. split; [|lia]. exists []. by rewrite app_nil_r.
  - cbn [fill]. unfold mbind, rand_bind, rand.bind, rand.wrapping, rand.Int, rand.lift.
    destruct (Z.leb_spec (strlen charset) 0); [lia|].
    destruct (Z.eqb_spec (strlen charset) 1); [lia|].
    destruct (src pos) as [msg|raw] eqn:Hsrc.
    + exists 0%nat, msg. rewrite Nat.add_0_r. repeat split; try done; cbn; lia.
    + unfold byte_at.
      pose proof (Z.mod_pos_bound (Z.of_N raw) (strlen charset) ltac:(lia)) as Hb.
      destruct (Z.ltb_spec (Z.of_N raw mod strlen charset) 0); [lia|].
      destruct (get_chars charset (Z.to_nat (Z.of_N raw mod strlen charset)))
        as (c & Hc & Hin); [unfold strlen in *; lia|].
      rewrite Hc. specialize (IH (done ++ [c]) (S pos)).
      destruct (fill charset todo (done ++ [c]) src (S pos)) as [[bytes|e|p] pos'].
      * destruct IH as [(drawn & -> & Hlen & Hall) ->]. split; [|cbn; lia].
        exists (c :: drawn). rewrite <- app_assoc. repeat split; [cbn; lia|].
        by constructor.
      * destruct IH as (k & msg & Hk & Hfail & Hbefore & -> & ->).
        exists (S k), msg. replace (pos + S k)%nat with (S pos + k)%nat by lia.
        repeat split; try done; [cbn; lia|].
        intros [|j] Hj; [rewrite Nat.add_0_r; by exists raw|].
        replace (pos + S j)%nat with (S pos + j)%nat by lia. apply Hbefore. lia.
      * done.
Qed.

(** X6.  A random string of a length that is not negative and not above
    the allocation limit of the runtime: [Generate] does not panic; it
    returns a string of exactly [Length] characters, each one a character of
    the chosen character set, after [Length] uses of the random source; or,
    at the first use of the source that fails, the error of the source behind
    "failed to generate random string: ". *)
Theorem RandomString_Generate_shape `{Platform} (g : RandomStringGenerator)
    (src : rand.Reader) (pos : nat) :
  0 <= Length g <= maxAlloc ->
  match RandomStringGenerator_Generate g src pos with
  | (Value (OfString s), pos') =>
      String.length s = Z.to_nat (Length g) /\
      Forall (fun c => c ∈ chars (getCharset (Charset g))) (chars s) /\
      pos' = (pos + Z.to_nat (Length g))%nat
  | (Value _, _) => False
  | (Error e, pos') =>
      exists k msg, (k < Z.to_nat (Length g))%nat /\
        src (pos + k)%nat = rand.Fails msg /\
        (forall j, (j < k)%nat -> exists raw, src (pos + j)%nat = rand.Number raw) /\
        e = ("failed to generate random string: " ++ msg)%string /\
        pos' = S (pos + k)
  | (Panic _, _) => False
  end.
Proof.
  intros Hlen. unfold RandomStringGenerator_Generate, make_bytes.
  destruct (Z.ltb_spec (Length g) 0); [lia|].
  destruct (Z.ltb_spec maxAlloc (Length g)); [lia|]. cbn [orb].
  unfold mbind, rand_bind, rand.bind at 1, rand.lift.
  unfold rand.bind.
  pose proof (fill_spec (getCharset (Charset g)) src (getCharset_size _)
                (replicate (Z.to_nat (Length g)) Ascii.zero) [] pos) as Hfill.
  rewrite length_replicate in Hfill.
  destruct (fill _ _ _ src pos) as [[bytes|e|p] pos']; [|done|done].
  destruct Hfill as [(drawn & -> & Hdrawn & Hall) ->]. cbn.
  rewrite length_string_of_list_ascii. unfold chars at 1.
  by rewrite String.list_ascii_of_string_of_list_ascii.
Qed.

Lemma RandomString_Generate_shape_witness :
  let g := {| Length := 3; Charset := "hex" |} in
  let src : rand.Reader := fun k => rand.Number (N.of_nat (10 + k)) in
  0 <= Length g <= @maxAlloc amd64 /\
  match @RandomStringGenerator_Generate amd64 g src 0%nat with
  | (Value (OfString s), pos') =>
      String.length s = Z.to_nat (Length g) /\
      Forall (fun c => c ∈ chars (getCharset (Charset g))) (chars s) /\
      pos' = (0 + Z.to_nat (Length g))%nat
  | (Value _, _) => False
  | (Error e, pos') =>
      exists k msg, (k < Z.to_nat (Length g))%nat /\
        src (0 + k)%nat = rand.Fails msg /\
        (forall j, (j < k)%nat -> exists raw, src (0 + j)%nat = rand.Number raw) /\
        e = ("failed to generate random string: " ++ msg)%string /\
        pos' = S (0 + k)
  | (Panic _, _) => False
  end.
Proof.
  intros g src.
  assert (H : 0 <= Length g <= @maxAlloc amd64) by (simpl; lia).
  split; [exact H |].
  exact (@RandomString_Generate_shape amd64 g src 0%nat H).
Defined.

Example RandomString_draw :
  rand.run (@RandomStringGenerator_Generate amd64 {| Length := 3; Charset := "hex" |})
           (fun k => rand.Number (N.of_nat (10 + k))) = Value (OfString "abc").
Proof. reflexivity. Qed.

(** Above the allocation limit [make] panics: on amd64, for the length
    [2 ^ 62]. *)
Example RandomString_above_limit src pos :
  @RandomStringGenerator_Generate amd64 {| Length := 2 ^ 62; Charset := "hex" |} src pos =
    (Panic "runtime error: makeslice: len out of range", pos).
Proof. reflexivity. Qed.

End string_facts.

(** ** The generators of arrays and objects *)

Section array_facts.
Import Int config.

Lemma append_assoc (a b c : string) : ((a ++ b) ++ c = a ++ b ++ c)%string.
Proof.
  induction a as [|x a IH]; [done|].
  change (String x ((a ++ b) ++ c) = String x (a ++ b ++ c))%string. by rewrite IH.
Qed.

Lemma clamped_bounds (g : ArrayGenerator) :
  MinLength (clamped g) = Z.min (MinLength g) (MaxLength g) /\
  MaxLength (clamped g) = MaxLength g /\
  ElementGenerator (clamped g) = ElementGenerator g.
Proof.
  unfold clamped.
  destruct (Z.ltb_spec (MaxLength g) (MinLength g)); cbn; repeat split; lia.
Qed.

Lemma array_elements_spec (elem : Generator) (src : rand.Reader) :
  forall todo i result pos,
    match array_elements elem i todo result src pos with
    | (Value l, _) =>
        exists more, l = result ++ more /\ length more = todo /\
          Forall (fun v => exists at_, fst (Generate elem src at_) = Value v) more
    | (Error e, _) =>
        exists k msg at_, 0 <= k < Z.of_nat todo /\
          fst (Generate elem src at_) = Error msg /\
          e = ("failed to generate array element " ++ pretty (i + k) ++ ": " ++ msg)%string
    | (Panic p, _) => exists at_, fst (Generate elem src at_) = Panic p
    end.
Proof.
  induction todo as [|todo IH]; intros i result pos.
  - cbn. exists []. by rewrite app_nil_r.
  - cbn [array_elements]. unfold mbind, rand_bind, rand.bind, rand.wrapping.
    destruct (Generate elem src pos) as [[v|e|p] pos1] eqn:Hgen.
    + specialize (IH (i + 1) (result ++ [v]) pos1).
      destruct (array_elements elem (i + 1) todo (result ++ [v]) src pos1)
        as [[l|e|p] pos2].
      * destruct IH as (more & -> & Hlen & Hall). exists (v :: more).
        rewrite <- app_assoc. repeat split; [cbn; lia|].
        constructor; [|done]. exists pos. by rewrite Hgen.
      * destruct IH as (k & msg & at_ & Hk & Hfail & ->).
        exists (k + 1), msg, at_. repeat split; [lia | lia | done |].
        by replace (i + (k + 1)) with (i + 1 + k) by lia.
      * done.
    + exists 0, e, pos. rewrite Hgen, Z.add_0_r. split; [lia|]. split; [done|].
      by rewrite !append_assoc.
    + exists pos. by rewrite Hgen.
Qed.

(** X7.  An array generator whose bounds are [int]s, with [lo] the smaller
    of [MinLength] and [MaxLength]: an array it returns has between [lo] and
    [MaxLength] elements (none when the bound is negative), each of them a
    value of the element generator; an error is that of the source at the
    draw of the length, or that of the element generator with the index of
    the element; and it panics only when the element generator does, or when
    [MaxLength - lo + 1] is not an [int]. *)
Theorem Array_Generate_length (g : ArrayGenerator) (src : rand.Reader) (pos : nat) :
  in_int64 (MinLength g) -> in_int64 (MaxLength g) ->
  let lo := Z.min (MinLength g) (MaxLength g) in
  match fst (ArrayGenerator_Generate g src pos) with
  | Value (OfSlice l) =>
      Z.max 0 lo <= len l <= Z.max 0 (MaxLength g) /\
      Forall (fun v => exists at_, fst (Generate (ElementGenerator g) src at_) = Value v) l
  | Value _ => False
  | Error e =>
      (exists msg, src pos = rand.Fails msg /\
         e = ("failed to generate array length: " ++ msg)%string) \/
      (exists k msg at_, 0 <= k < MaxLength g /\
         fst (Generate (ElementGenerator g) src at_) = Error msg /\
         e = ("failed to generate array element " ++ pretty k ++ ": " ++ msg)%string)
  | Panic p =>
      max_int64 <= MaxLength g - lo \/
      exists at_, fst (Generate (ElementGenerator g) src at_) = Panic p
  end.
Proof.
  intros Hmin Hmax lo. unfold in_int64, min_int64, max_int64 in *.
  unfold ArrayGenerator_Generate.
  destruct (clamped_bounds g) as (-> & -> & ->). fold lo.
  unfold mbind, rand_bind, mret, rand_ret, rand.bind, rand.wrapping, rand.ret.
  destruct (Z_le_gt_dec (MaxLength g - lo + 1) (2 ^ 63 - 1)) as [Hfit | Hwrap].
  - rewrite (int64_id (MaxLength g - lo + 1))
      by (unfold in_int64, min_int64, max_int64; lia).
    pose proof (rand_Int_pos (MaxLength g - lo + 1) src pos ltac:(lia)) as Hdraw.
    destruct (rand.Int (MaxLength g - lo + 1) src pos) as [[n | e | p] pos1] eqn:Hint;
      [| | done].
    + rewrite (int64_id (lo + n)) by (unfold in_int64, min_int64, max_int64; lia).
      pose proof (array_elements_spec (ElementGenerator g) src
                    (Z.to_nat (lo + n)) 0 [] pos1) as Hloop.
      destruct (array_elements _ 0 _ [] src pos1) as [[l | e | p] pos2]; cbn.
      * destruct Hloop as (more & -> & Hlen & Hall). cbn. split; [|done].
        unfold len. lia.
      * destruct Hloop as (k & msg & at_ & Hk & Hfail & ->). right.
        exists k, msg, at_. split; [lia|]. by split.
      * by right.
    + cbn. left. unfold rand.Int in Hint.
      destruct (_ <=? 0); [done|]. destruct (_ =? 1); [done|].
      destruct (src pos) as [msg|raw]; [|done]. exists msg. by injection Hint as -> _.
  - rewrite int64_wrap_high by lia.
    rewrite rand_Int_nonpos by lia. cbn. left. lia.
Qed.

Lemma Array_Generate_length_witness :
  let g := {| MinLength := 2; MaxLength := 4;
              ElementGenerator :=
                {| Generate := RandomIntGenerator_Generate {| Min := 1; Max := 6 |} |} |} in
  let src : rand.Reader := fun k => rand.Number (N.of_nat (7 + k)) in
  (in_int64 (MinLength g) /\ in_int64 (MaxLength g)) /\
  match fst (ArrayGenerator_Generate g src 0%nat) with
  | Value (OfSlice l) =>
      Z.max 0 (Z.min (MinLength g) (MaxLength g)) <= len l <= Z.max 0 (MaxLength g) /\
      Forall (fun v => exists at_, fst (Generate (ElementGenerator g) src at_) = Value v) l
  | Value _ => False
  | Error e =>
      (exists msg, src 0%nat = rand.Fails msg /\
         e = ("failed to generate array length: " ++ msg)%string) \/
      (exists k msg at_, 0 <= k < MaxLength g /\
         fst (Generate (ElementGenerator g) src at_) = Error msg /\
         e = ("failed to generate array element " ++ pretty k ++ ": " ++ msg)%string)
  | Panic p =>
      max_int64 <= MaxLength g - Z.min (MinLength g) (MaxLength g) \/
      exists at_, fst (Generate (ElementGenerator g) src at_) = Panic p
  end.
Proof.
  intros g src.
  assert (H1 : in_int64 (MinLength g))
    by (unfold in_int64, min_int64, max_int64; simpl; lia).
  assert (H2 : in_int64 (MaxLength g))
    by (unfold in_int64, min_int64, max_int64; simpl; lia).
  split; [exact (conj H1 H2) |].
  exact (Array_Generate_length g src 0%nat H1 H2).
Defined.

Example Array_draw :
  rand.run (ArrayGenerator_Generate
              {| MinLength := 2; MaxLength := 4;
                 ElementGenerator :=
                   {| Generate := RandomIntGenerator_Generate {| Min := 1; Max := 6 |} |} |})
           (fun k => rand.Number (N.of_nat (7 + k)))
  = Value (OfSlice [OfInt 3; OfInt 4; OfInt 5]).
Proof. reflexivity. Qed.

Example Array_element_error :
  rand.run (ArrayGenerator_Generate
              {| MinLength := 2; MaxLength := 2;
                 ElementGenerator :=
                   {| Generate := ChoiceGenerator_Generate (H := amd64)
                                    {| Values := []; Weights := [] |} |} |})
           (fun k => rand.Number 0)
  = Error "failed to generate array element 0: no values provided for choice generator".
Proof. reflexivity. Qed.

End array_facts.

Section object_facts.
Import Int config.

Lemma object_fields_spec (src : rand.Reader) :
  forall (visited : list (string * Generator)) (result : gmap string any) pos,
    match object_fields visited result src pos with
    | (Value m, _) =>
        (forall name, is_Some (m !! name) <->
                      is_Some (result !! name) \/ name ∈ visited.*1) /\
        (forall name v, m !! name = Some v ->
           result !! name = Some v \/
           exists gen at_, (name, gen) ∈ visited /\
                           fst (Generate gen src at_) = Value v)
    | (Error e, _) =>
        exists name gen msg at_, (name, gen) ∈ visited /\
          fst (Generate gen src at_) = Error msg /\
          e = ("failed to generate object field " ++ name ++ ": " ++ msg)%string
    | (Panic p, _) =>
        exists name gen at_, (name, gen) ∈ visited /\
          fst (Generate gen src at_) = Panic p
    end.
Proof.
  induction visited as [|[fieldName fieldGen] rest IH]; intros result pos.
  - cbn. split; [|by left]. intros name. rewrite elem_of_nil. tauto.
  - cbn [object_fields]. unfold mbind, rand_bind, rand.bind, rand.wrapping.
    destruct (Generate fieldGen src pos) as [[v|e|p] pos1] eqn:Hgen.
    + specialize (IH (<[fieldName := v]> result) pos1).
      destruct (object_fields rest (<[fieldName := v]> result) src pos1)
        as [[m|e|p] pos2].
      * destruct IH as [Hkeys Hvalues]. split.
        -- intros name. rewrite Hkeys, fmap_cons, elem_of_cons. cbn.
           destruct (decide (name = fieldName)) as [->|Hne].
           ++ rewrite lookup_insert_eq. split; [by right; left | by left].
           ++ rewrite lookup_insert_ne by done. tauto.
        -- intros name w Hw. destruct (Hvalues name w Hw) as [Hin|Hin].
           ++ destruct (decide (name = fieldName)) as [->|Hne].
              ** rewrite lookup_insert_eq in Hin. injection Hin as <-.
                 right. exists fieldGen, pos. split; [by left | by rewrite Hgen].
              ** rewrite lookup_insert_ne in Hin by done. by left.
           ++ destruct Hin as (gen & at_ & Hin & Hval). right.
              exists gen, at_. split; [by right | done].
      * destruct IH as (name & gen & msg & at_ & Hin & Hfail & ->).
        exists name, gen, msg, at_. split; [by right | done].
      * destruct IH as (name & gen & at_ & Hin & Hfail).
        exists name, gen, at_. split; [by right | done].
    + exists fieldName, fieldGen, e, pos. rewrite Hgen.
      split; [by left|]. split; [done|]. by rewrite !append_assoc.
    + exists fieldName, fieldGen, pos. rewrite Hgen. split; [by left | done].
Qed.

(** X8.  An object generator, whatever the order in which its loop visits
    the properties: an object it returns has exactly the field names of
    [Properties], each with a value of the generator of that field; an error
    is that of the generator of one field, behind the name of the field; and
    it panics only when the generator of a field does. *)
Theorem Object_Generate_fields (g : ObjectGenerator)
    (visited : list (string * Generator)) (src : rand.Reader) (pos : nat) :
  ranges_over visited (Properties g) ->
  match fst (ObjectGenerator_Generate g visited src pos) with
  | Value (OfStrMap fields) =>
      NoDup fields.*1 /\
      (forall name, name ∈ fields.*1 <-> is_Some (Properties g !! name)) /\
      (forall name v, (name, v) ∈ fields ->
         exists gen at_, Properties g !! name = Some gen /\
                         fst (Generate gen src at_) = Value v)
  | Value _ => False
  | Error e =>
      exists name gen msg at_, Properties g !! name = Some gen /\
        fst (Generate gen src at_) = Error msg /\
        e = ("failed to generate object field " ++ name ++ ": " ++ msg)%string
  | Panic p =>
      exists name gen at_, Properties g !! name = Some gen /\
        fst (Generate gen src at_) = Panic p
  end.
Proof.
  unfold ranges_over. intros Hrange.
  assert (Hin : forall name gen,
            (name, gen) ∈ visited <-> Properties g !! name = Some gen).
  { intros name gen. by rewrite Hrange, elem_of_map_to_list. }
  assert (Hnames : forall name,
            name ∈ visited.*1 <-> is_Some (Properties g !! name)).
  { intros name. rewrite list_elem_of_fmap. split.
    - intros ([n gen] & -> & Hmem). apply Hin in Hmem. by exists gen.
    - intros [gen Hgen]. exists (name, gen). split; [done | by apply Hin]. }
  unfold ObjectGenerator_Generate, mbind, rand_bind, rand.bind.
  pose proof (object_fields_spec src visited ∅ pos) as Hloop.
  destruct (object_fields visited ∅ src pos) as [[m|e|p] pos1]; cbn.
  - destruct Hloop as [Hkeys Hvalues]. split; [apply NoDup_fst_map_to_list|].
    split.
    + intros name. rewrite <- Hnames. rewrite list_elem_of_fmap. split.
      * intros ([n v] & -> & Hmem). apply elem_of_map_to_list in Hmem.
        destruct (proj1 (Hkeys n) ltac:(by exists v)) as [Hempty|Hv]; [|done].
        rewrite lookup_empty in Hempty. by destruct Hempty.
      * intros Hv. destruct (proj2 (Hkeys name) (or_intror Hv)) as [v Hm].
        exists (name, v). split; [done | by apply elem_of_map_to_list].
    + intros name v Hmem. apply elem_of_map_to_list in Hmem.
      destruct (Hvalues name v Hmem) as [Hempty|(gen & at_ & Hmem' & Hval)].
      * by rewrite lookup_empty in Hempty.
      * exists gen, at_. split; [by apply Hin | done].
  - destruct Hloop as (name & gen & msg & at_ & Hmem & Hfail & ->).
    exists name, gen, msg, at_. split; [by apply Hin | done].
  - destruct Hloop as (name & gen & at_ & Hmem & Hfail).
    exists name, gen, at_. split; [by apply Hin | done].
Qed.

Lemma Object_Generate_fields_witness :
  let fieldGen := {| Generate := RandomIntGenerator_Generate {| Min := 1; Max := 6 |} |} in
  let g := {| Properties := {[ "id" := fieldGen ]} |} in
  let visited := [("id", fieldGen)] in
  let src : rand.Reader := fun k => rand.Number (N.of_nat (7 + k)) in
  ranges_over visited (Properties g) /\
  match fst (ObjectGenerator_Generate g visited src 0%nat) with
  | Value (OfStrMap fields) =>
      NoDup fields.*1 /\
      (forall name, name ∈ fields.*1 <-> is_Some (Properties g !! name)) /\
      (forall name v, (name, v) ∈ fields ->
         exists gen at_, Properties g !! name = Some gen /\
                         fst (Generate gen src at_) = Value v)
  | Value _ => False
  | Error e =>
      exists name gen msg at_, Properties g !! name = Some gen /\
        fst (Generate gen src at_) = Error msg /\
        e = ("failed to generate object field " ++ name ++ ": " ++ msg)%string
  | Panic p =>
      exists name gen at_, Properties g !! name = Some gen /\
        fst (Generate gen src at_) = Panic p
  end.
Proof.
  intros fieldGen g visited src.
  assert (H : ranges_over visited (Properties g)).
  { unfold ranges_over, visited, g. cbn. by rewrite map_to_list_singleton. }
  split; [exact H |].
  exact (Object_Generate_fields g visited src 0%nat H).
Defined.

End object_facts.

Section placeholder_facts.
Import Int config runner.

Lemma chars_cons (x : ascii) (s : string) : chars (String x s) = x :: chars s.
Proof. reflexivity. Qed.

Lemma append_cons (x : ascii) (a b : string) :
  (String x a ++ b)%string = String x (a ++ b)%string.
Proof. reflexivity. Qed.

Lemma replace_from_absent (c : ascii) (old' new : string) (s : string) :
  c ∉ chars s -> strings.replace_from (String c old') new 0 s = s.
Proof.
  induction s as [|x s IH]; [done|]. rewrite chars_cons, not_elem_of_cons.
  intros [Hne Hnot]. cbn [strings.replace_from String.prefix].
  destruct (ascii_dec c x); [done|]. by rewrite IH.
Qed.

Lemma replace_from_skip (old new a s : string) :
  strings.replace_from old new (String.length a) (a ++ s) =
  strings.replace_from old new 0 s.
Proof. induction a as [|x a IH]; [done|]. by rewrite append_cons. Qed.

Lemma prefix_append (old s : string) : String.prefix old (old ++ s) = true.
Proof.
  induction old as [|x old IH]; [by destruct s|]. rewrite append_cons.
  cbn [String.prefix].
  destruct (ascii_dec x x); [exact IH | congruence].
Qed.

Lemma replace_from_once (c : ascii) (old' new pre post : string) :
  c ∉ chars pre -> c ∉ chars post ->
  strings.replace_from (String c old') new 0 (pre ++ String c old' ++ post) =
  (pre ++ new ++ post)%string.
Proof.
  intros Hpre Hpost. induction pre as [|x pre IH].
  - change ("" ++ String c old' ++ post)%string with (String c (old' ++ post))%string.
    cbn [strings.replace_from].
    change (String c (old' ++ post))%string with (String c old' ++ post)%string.
    rewrite prefix_append.
    replace (String.length (String c old') - 1)%nat with (String.length old')
      by (cbn; lia).
    by rewrite replace_from_skip, replace_from_absent.
  - rewrite chars_cons, not_elem_of_cons in Hpre. destruct Hpre as [Hne Hpre].
    rewrite !(append_cons x pre). cbn [strings.replace_from String.prefix].
    destruct (ascii_dec c x); [done|]. by rewrite IH.
Qed.

Lemma ReplaceAll_absent (c : ascii) (old' new s : string) :
  c ∉ chars s -> strings.ReplaceAll s (String c old') new = s.
Proof. apply replace_from_absent. Qed.

Lemma ReplaceAll_once (c : ascii) (old' new pre post : string) :
  c ∉ chars pre -> c ∉ chars post ->
  strings.ReplaceAll (pre ++ String c old' ++ post) (String c old') new =
  (pre ++ new ++ post)%string.
Proof. apply replace_from_once. Qed.

Lemma ranges_over_singleton {V} (visited : list (string * V)) (name : string) (v : V) :
  ranges_over visited ({[ name := v ]} : gmap string V) -> visited = [(name, v)].
Proof.
  unfold ranges_over. rewrite map_to_list_singleton. intros Hperm.
  by apply Permutation_singleton_r.
Qed.

(** X9.  A template with one parameter, whose placeholder occurs once, with
    no other '{' in the template: [Generate] returns the template with the
    placeholder replaced by the value of the parameter, written with "%v";
    an error of the generator of the parameter comes back behind the name
    of the parameter, and a panic as it is. *)
Theorem Template_Generate_substitutes `{External} (g : TemplateGenerator)
    (name : string) (gen : Generator) (visited : list (string * Generator))
    (pre post : string) (src : rand.Reader) (pos : nat) :
  Parameters g = {[ name := gen ]} ->
  ranges_over visited (Parameters g) ->
  Template g = (pre ++ ("{{" ++ name ++ "}}") ++ post)%string ->
  "{"%char ∉ chars pre -> "{"%char ∉ chars post ->
  TemplateGenerator_Generate g visited src pos =
  match Generate gen src pos with
  | (Value v, pos') => (Value (OfString (pre ++ Sprintf_v v ++ post)%string), pos')
  | (Error e, pos') =>
      (Error ("failed to generate template parameter " ++ name ++ ": " ++ e)%string, pos')
  | (Panic p, pos') => (Panic p, pos')
  end.
Proof.
  intros Hparams Hrange Htemplate Hpre Hpost. rewrite Hparams in Hrange.
  apply ranges_over_singleton in Hrange as ->.
  unfold TemplateGenerator_Generate. rewrite Htemplate.
  replace (String.eqb (pre ++ ("{{" ++ name ++ "}}") ++ post) "") with false
    by (by destruct pre).
  cbn [substitute]. unfold mbind, rand_bind, mret, rand_ret, rand.bind, rand.wrapping, rand.ret.
  destruct (Generate gen src pos) as [[v|e|p] pos']; [| by rewrite !append_assoc | done].
  do 2 f_equal. f_equal. by apply ReplaceAll_once.
Qed.

Lemma Template_Generate_substitutes_witness :
  let gen := {| Generate := RandomIntGenerator_Generate {| Min := 1; Max := 6 |} |} in
  let g := {| Template := "user-{{id}}@x"; Parameters := {[ "id" := gen ]} |} in
  let src : rand.Reader := fun k => rand.Number (N.of_nat (7 + k)) in
  @TemplateGenerator_Generate sample_library g [("id", gen)] src 0%nat =
  match Generate gen src 0%nat with
  | (Value v, pos') =>
      (Value (OfString ("user-" ++ @Sprintf_v sample_library v ++ "@x")%string), pos')
  | (Error e, pos') =>
      (Error ("failed to generate template parameter " ++ "id" ++ ": " ++ e)%string, pos')
  | (Panic p, pos') => (Panic p, pos')
  end.
Proof.
  intros gen g src.
  assert (Hrange : ranges_over [("id", gen)] (Parameters g)).
  { unfold ranges_over, g. cbn. by rewrite map_to_list_singleton. }
  assert (Hpre : "{"%char ∉ chars "user-").
  { unfold chars. cbn. rewrite !not_elem_of_cons, elem_of_nil. repeat split; congruence. }
  assert (Hpost : "{"%char ∉ chars "@x").
  { unfold chars. cbn. rewrite !not_elem_of_cons, elem_of_nil. repeat split; congruence. }
  exact (@Template_Generate_substitutes sample_library g "id" gen [("id", gen)]
           "user-" "@x" src 0%nat eq_refl Hrange eq_refl Hpre Hpost).
Defined.

Lemma resolvePath_unused `{Platform} `{External} (src : rand.Reader) :
  forall (pathParams : list (string * any)) (path : string) pos pos' fullPath,
    "{"%char ∉ chars path ->
    resolvePath path pathParams src pos = (Value fullPath, pos') -> fullPath = path.
Proof.
  induction pathParams as [|[paramName paramDef] rest IH];
    intros path pos pos' fullPath Hnot Hres.
  - cbn in Hres. unfold mret, rand_ret, rand.ret in Hres. congruence.
  - cbn [resolvePath] in Hres.
    unfold mbind, rand_bind, rand.bind, rand.wrapping, rand.lift in Hres.
    destruct (GetParameterGenerator paramDef) as [gen|e|p]; [|done|done].
    destruct (Generate gen src pos) as [[v|e|p] pos1]; [|done|done].
    change ("{" ++ paramName ++ "}")%string with (String "{" (paramName ++ "}")) in Hres.
    rewrite ReplaceAll_absent in Hres by done. by eapply IH.
Qed.

(** X10.  [buildURL] for a path with one parameter, whose placeholder occurs
    once, with no other '{' in the path: the URL is the base URL without one
    trailing "/", then the path with the placeholder replaced by the value of
    the parameter, written with "%v"; an error of the generator comes back
    behind the name of the parameter, and a panic as it is. *)
Theorem buildURL_substitutes `{Platform} `{External} (baseURL name : string)
    (def : any) (gen : Generator) (pre post : string)
    (src : rand.Reader) (pos : nat) :
  GetParameterGenerator def = Value gen ->
  "{"%char ∉ chars pre -> "{"%char ∉ chars post ->
  buildURL baseURL (pre ++ ("{" ++ name ++ "}") ++ post) [(name, def)] src pos =
  match Generate gen src pos with
  | (Value v, pos') =>
      (Value (strings.TrimSuffix baseURL "/" ++ pre ++ Sprintf_v v ++ post)%string, pos')
  | (Error e, pos') =>
      (Error ("failed to generate path parameter " ++ name ++ ": " ++ e)%string, pos')
  | (Panic p, pos') => (Panic p, pos')
  end.
Proof.
  intros Hgen Hpre Hpost. unfold buildURL. cbn [resolvePath].
  unfold mbind, rand_bind, mret, rand_ret, rand.bind, rand.wrapping, rand.ret, rand.lift.
  rewrite Hgen.
  destruct (Generate gen src pos) as [[v|e|p] pos']; [| by rewrite !append_assoc | done].
  do 3 f_equal. by apply ReplaceAll_once.
Qed.

Lemma buildURL_substitutes_witness :
  let gen := {| Generate := StaticGenerator_Generate {| Value_ := OfString "42" |} |} in
  let src : rand.Reader := fun k => rand.Number 7 in
  @buildURL amd64 sample_library "http://h/" "/users/{id}/posts" [("id", OfString "42")]
            src 0%nat =
  match Generate gen src 0%nat with
  | (Value v, pos') =>
      (Value (strings.TrimSuffix "http://h/" "/" ++ "/users/" ++
              @Sprintf_v sample_library v ++ "/posts")%string, pos')
  | (Error e, pos') =>
      (Error ("failed to generate path parameter " ++ "id" ++ ": " ++ e)%string, pos')
  | (Panic p, pos') => (Panic p, pos')
  end.
Proof.
  intros gen src.
  assert (Hpre : "{"%char ∉ chars "/users/").
  { unfold chars. cbn. rewrite !not_elem_of_cons, elem_of_nil. repeat split; congruence. }
  assert (Hpost : "{"%char ∉ chars "/posts").
  { unfold chars. cbn. rewrite !not_elem_of_cons, elem_of_nil. repeat split; congruence. }
  exact (@buildURL_substitutes amd64 sample_library "http://h/" "id" (OfString "42") gen
           "/users/" "/posts" src 0%nat eq_refl Hpre Hpost).
Defined.

(** X11.  [buildURL] for a path without '{': whatever the path parameters
    are, a URL it returns is the base URL without one trailing "/", then the
    path as it is. *)
Theorem buildURL_unused_parameters `{Platform} `{External} (baseURL path : string)
    (pathParams : list (string * any)) (src : rand.Reader) (pos pos' : nat)
    (url : string) :
  "{"%char ∉ chars path ->
  buildURL baseURL path pathParams src pos = (Value url, pos') ->
  url = (strings.TrimSuffix baseURL "/" ++ path)%string.
Proof.
  intros Hnot. unfold buildURL, mbind, rand_bind, mret, rand_ret, rand.bind, rand.ret.
  destruct (resolvePath path pathParams src pos) as [[fullPath|e|p] pos1] eqn:Hres;
    [|done|done].
  intros [= <- <-]. by rewrite (resolvePath_unused _ _ _ _ _ _ Hnot Hres).
Qed.

Lemma buildURL_unused_parameters_witness :
  "http://h/health" = (strings.TrimSuffix "http://h/" "/" ++ "/health")%string.
Proof.
  assert (Hnot : "{"%char ∉ chars "/health").
  { unfold chars. cbn. rewrite !not_elem_of_cons, elem_of_nil. repeat split; congruence. }
  exact (@buildURL_unused_parameters amd64 sample_library "http://h/" "/health"
           [("id", OfString "42")] (fun _ => rand.Number 7) 0%nat 0%nat
           "http://h/health" Hnot eq_refl).
Defined.

End placeholder_facts.

(** ** Selection of base URLs and endpoints *)

Section rotation_facts.
Import Int config runner.

Lemma selectBaseURL_step (r : Runner) :
  BaseUrls (cfg r) <> [] -> 0 <= urlIdx r ->
  exists url,
    BaseUrls (cfg r) !! Z.to_nat (urlIdx r mod len (BaseUrls (cfg r))) = Some url /\
    selectBaseURL r = Value (url, set_urlIdx r (uint64 (urlIdx r + 1))).
Proof.
  intros Hne Hidx. unfold selectBaseURL.
  assert (Hlen : 0 < len (BaseUrls (cfg r)))
    by (unfold len; destruct (BaseUrls (cfg r)); [done | simpl length; lia]).
  destruct (Z.eqb_spec (len (BaseUrls (cfg r))) 0); [lia |].
  pose proof (Z.mod_pos_bound (urlIdx r) (len (BaseUrls (cfg r))) Hlen) as Hm.
  destruct (BaseUrls (cfg r) !! Z.to_nat (urlIdx r mod len (BaseUrls (cfg r))))
    as [url |] eqn:Hurl.
  - exists url. split; [done |]. by rewrite (name_at_lookup _ _ url) by (done || lia).
  - apply lookup_ge_None in Hurl. unfold len in *. lia.
Qed.

(** [k] calls select the base URLs at the positions [idx, idx + 1, ...]
    modulo the number of base URLs. *)
Lemma base_urls_in_turn_positions : forall (k : nat) (r : Runner),
  BaseUrls (cfg r) <> [] -> 0 <= urlIdx r -> urlIdx r + Z.of_nat k < 2 ^ 64 ->
  base_urls_in_turn r k =
    Value (map (fun i => nth (Z.to_nat ((urlIdx r + Z.of_nat i) mod len (BaseUrls (cfg r))))
                             (BaseUrls (cfg r)) "")
               (seq 0 k),
           set_urlIdx r (urlIdx r + Z.of_nat k)).
Proof.
  induction k as [| k IH]; intros r Hne Hidx Hfit.
  - simpl. rewrite Z.add_0_r. by destruct r.
  - cbn [base_urls_in_turn].
    destruct (selectBaseURL_step r Hne Hidx) as (url & Hurl & ->).
    assert (Hnext : uint64 (urlIdx r + 1) = urlIdx r + 1)
      by (unfold uint64; rewrite Z.mod_small; lia).
    rewrite Hnext.
    rewrite (IH (set_urlIdx r (urlIdx r + 1))); simpl; try done; try lia.
    cbn [seq map]. change (Z.of_nat 0) with 0. rewrite Z.add_0_r, nth_lookup, Hurl.
    rewrite <- seq_shift, map_map.
    replace (set_urlIdx (set_urlIdx r (urlIdx r + 1)) (urlIdx r + 1 + Z.of_nat k))
      with (set_urlIdx r (urlIdx r + Z.of_nat (S k)))
      by (unfold set_urlIdx; simpl; f_equal; lia).
    simpl default. do 3 f_equal. apply map_ext. intros i. do 3 f_equal. lia.
Qed.

(** X12.  Base URLs are selected in the order of the list: from the counter
    0, [m] times as many calls of [selectBaseURL] as there are base URLs
    return the list [m] times over, and leave the counter at the number of
    calls; nothing else of the runner changes. *)
Theorem selectBaseURL_rounds (r : Runner) (m : nat) :
  BaseUrls (cfg r) <> [] -> urlIdx r = 0 ->
  Z.of_nat (m * length (BaseUrls (cfg r))) < 2 ^ 64 ->
  base_urls_in_turn r (m * length (BaseUrls (cfg r))) =
    Value (concat (replicate m (BaseUrls (cfg r))),
           set_urlIdx r (Z.of_nat (m * length (BaseUrls (cfg r))))).
Proof.
  intros Hne Hidx Hfit.
  rewrite base_urls_in_turn_positions by (done || lia).
  rewrite Hidx. by rewrite rounds_of_names.
Qed.

Lemma selectBaseURL_rounds_witness :
  let r := NewRunner
             {| BaseUrls := ["http://a"; "http://b"];
                Execution := Execution abc_config;
                Endpoints := Endpoints abc_config;
                EndpointSelection := EndpointSelection abc_config |}
             metrics.NewCollector in
  base_urls_in_turn r (2 * length (BaseUrls (cfg r))) =
    Value (concat (replicate 2 (BaseUrls (cfg r))),
           set_urlIdx r (Z.of_nat (2 * length (BaseUrls (cfg r))))).
Proof.
  intros r.
  assert (Hne : BaseUrls (cfg r) <> []) by done.
  assert (Hfit : Z.of_nat (2 * length (BaseUrls (cfg r))) < 2 ^ 64) by (simpl; lia).
  exact (selectBaseURL_rounds r 2 Hne eq_refl Hfit).
Defined.

Lemma select_in_turn_even_witness :
  exists names r',
    @select_in_turn amd64 (NewRunner abc_config metrics.NewCollector)
      (replicate (2 * length visit_abc) visit_abc) (fun _ => rand.Number 7) 0%nat =
      (Value (names, r'), 0%nat) /\
    forall x, x ∈ visit_abc.*1 -> times_selected x names = 2%nat.
Proof.
  assert (Hne : visit_abc <> []) by done.
  assert (Hnodup : NoDup (visit_abc.*1)).
  { cbn. repeat constructor; rewrite ?elem_of_cons, ?elem_of_nil; intuition congruence. }
  assert (Hfit : Z.of_nat (2 * length visit_abc) < 2 ^ 64) by (simpl; lia).
  exact (@select_in_turn_even amd64 visit_abc (NewRunner abc_config metrics.NewCollector)
           2 (fun _ => rand.Number 7) 0%nat eq_refl eq_refl Hne Hnodup eq_refl Hfit).
Defined.

Lemma roundRobin_member (r : Runner) (names : list string) :
  names <> [] -> 0 <= endpointIdx r ->
  exists name, name ∈ names /\
    roundRobin r names = Value (name, set_endpointIdx r (uint64 (endpointIdx r + 1))).
Proof.
  intros Hne Hidx. destruct (roundRobin_step r names Hne Hidx) as (name & Hname & Hrr).
  exists name. split; [by eapply list_elem_of_lookup_2 | done].
Qed.

Lemma name_at_member (names : list string) (i : Z) :
  0 <= i < len names -> exists name, name ∈ names /\ name_at names i = Value name.
Proof.
  intros Hi. unfold len in Hi.
  destruct (names !! Z.to_nat i) as [name |] eqn:Hname.
  - exists name. split; [by eapply list_elem_of_lookup_2 |].
    apply name_at_lookup; [lia | done].
  - apply lookup_ge_None in Hname. lia.
Qed.

Lemma walk_names_member (weights : gmap string float) (target : float) :
  forall names cumulative name,
    walk_names weights target cumulative names = Some name -> name ∈ names.
Proof.
  induction names as [| n names IH]; intros cumulative name Hwalk; [done |].
  cbn [walk_names] in Hwalk. destruct (weights !! n) as [weight |].
  - destruct (PrimFloat.leb target (PrimFloat.add cumulative weight)).
    + injection Hwalk as <-. by left.
    + right. by eapply IH.
  - right. by eapply IH.
Qed.

(** X14.  [selectEndpoint] over a non-empty map of endpoints, under every
    strategy and whatever the order in which its loop visits the map: it
    returns the name of a configured endpoint together with the
    configuration of that endpoint; of the runner only the counter of
    endpoints may change, by one step; the random source is used at most
    once.  It returns no error, and it panics only under the strategy
    "weighted" with weights, in the draw of the random number. *)
Theorem selectEndpoint_configured `{Platform} (r : Runner)
    (visited : list (string * EndpointConfig.t)) (src : rand.Reader) (pos : nat) :
  ranges_over visited (Endpoints (cfg r)) -> visited <> [] -> 0 <= endpointIdx r ->
  match selectEndpoint r visited src pos with
  | (Value (name, endpoint, r'), pos') =>
      Endpoints (cfg r) !! name = Some endpoint /\
      (r' = r \/ r' = set_endpointIdx r (uint64 (endpointIdx r + 1))) /\
      (pos' = pos \/ pos' = S pos)
  | (Error _, _) => False
  | (Panic p, pos') =>
      EndpointSelectionConfig.Strategy (EndpointSelection (cfg r)) = "weighted" /\
      EndpointSelectionConfig.Weights (EndpointSelection (cfg r)) <> ∅ /\
      p = "crypto/rand: argument to Int is <= 0" /\ pos' = pos
  end.
Proof.
  unfold ranges_over. intros Hrange Hne Hidx.
  assert (Hnames : visited.*1 <> []) by (by destruct visited).
  assert (Hlen : 0 < len (visited.*1))
    by (unfold len; destruct visited; [done | simpl length; lia]).
  assert (Hconf : forall name, name ∈ visited.*1 ->
            exists endpoint, Endpoints (cfg r) !! name = Some endpoint).
  { intros name Hin. apply list_elem_of_fmap in Hin as ([n e] & -> & Hin).
    exists e. rewrite Hrange in Hin. by apply elem_of_map_to_list in Hin. }
  destruct (roundRobin_member r (visited.*1) Hnames Hidx) as (rrName & HrrIn & Hrr).
  assert (Hgoal : forall name r' pos',
            name ∈ visited.*1 ->
            (r' = r \/ r' = set_endpointIdx r (uint64 (endpointIdx r + 1))) ->
            (pos' = pos \/ pos' = S pos) ->
            Endpoints (cfg r) !! name =
              Some (default EndpointConfig.zero (Endpoints (cfg r) !! name)) /\
            (r' = r \/ r' = set_endpointIdx r (uint64 (endpointIdx r + 1))) /\
            (pos' = pos \/ pos' = S pos)).
  { intros name r' pos' Hin Hr Hp. destruct (Hconf name Hin) as [e ->]. by repeat split. }
  unfold selectEndpoint, mbind, rand_bind, mret, rand_ret, rand.bind, rand.ret.
  destruct (String.eqb_spec
              (EndpointSelectionConfig.Strategy (EndpointSelection (cfg r))) "weighted")
    as [Hweighted | _].
  - unfold selectWeightedEndpoint.
    destruct (Z.eqb_spec
                (Z.of_nat (size (EndpointSelectionConfig.Weights (EndpointSelection (cfg r)))))
                0) as [Hsize | Hsize].
    { unfold rand.lift. rewrite Hrr. apply Hgoal; [done | by right | by left]. }
    match goal with |- context [PrimFloat.eqb ?t 0] => destruct (PrimFloat.eqb t 0) end.
    { unfold rand.lift. rewrite Hrr. apply Hgoal; [done | by right | by left]. }
    match goal with |- context [rand.Int ?b src pos] =>
      remember b as bound eqn:Hbound;
      destruct (rand.Int bound src pos) as [[num | e | p] pos1] eqn:Hint
    end.
    + assert (Hpos : pos1 = pos \/ pos1 = S pos).
      { unfold rand.Int in Hint. destruct (bound <=? 0); [done |].
        destruct (bound =? 1); [left; congruence |].
        destruct (src pos); right; congruence. }
      match goal with |- context [walk_names ?w ?t ?c ?n] =>
        destruct (walk_names w t c n) as [name |] eqn:Hwalk
      end.
      * apply Hgoal; [by eapply walk_names_member | by left | done].
      * assert (Hq : 0 <= len (visited.*1) - 1 < len (visited.*1)) by (clear -Hlen; lia).
        destruct (name_at_member (visited.*1) (len (visited.*1) - 1) Hq)
          as (name & Hin & ->).
        apply Hgoal; [done | by left | done].
    + assert (Hpos : pos1 = pos \/ pos1 = S pos).
      { unfold rand.Int in Hint. destruct (bound <=? 0); [done |].
        destruct (bound =? 1); [left; congruence |].
        destruct (src pos); right; congruence. }
      rewrite Hrr. apply Hgoal; [done | by right | done].
    + unfold rand.Int in Hint. destruct (bound <=? 0).
      * injection Hint as <- <-. repeat split; try done.
        intros Hempty. rewrite Hempty, map_size_empty in Hsize. lia.
      * destruct (bound =? 1); [done |]. by destruct (src pos).
  - destruct (String.eqb
                (EndpointSelectionConfig.Strategy (EndpointSelection (cfg r))) "random").
    + unfold selectRandomEndpoint.
      pose proof (rand_Int_pos (len (visited.*1)) src pos Hlen) as Hdraw.
      destruct (rand.Int (len (visited.*1)) src pos) as [[num | e | p] pos1] eqn:Hint;
        cbn beta iota in Hdraw.
      * assert (Hpos : pos1 = pos \/ pos1 = S pos).
        { unfold rand.Int in Hint. destruct (_ <=? 0); [done |].
          destruct (_ =? 1); [left; congruence |].
          destruct (src pos); right; congruence. }
        destruct (name_at_member (visited.*1) num Hdraw) as (name & Hin & ->).
        apply Hgoal; [done | by left | done].
      * assert (Hpos : pos1 = pos \/ pos1 = S pos).
        { unfold rand.Int in Hint. destruct (_ <=? 0); [done |].
          destruct (_ =? 1); [left; congruence |].
          destruct (src pos); right; congruence. }
        rewrite Hrr. apply Hgoal; [done | by right | done].
      * done.
    + unfold rand.lift. rewrite Hrr. apply Hgoal; [done | by right | by left].
Qed.

Lemma selectEndpoint_configured_witness :
  let r := NewRunner abc_config metrics.NewCollector in
  let src : rand.Reader := fun _ => rand.Number 7 in
  (ranges_over visit_bca (Endpoints (cfg r)) /\ visit_bca <> [] /\ 0 <= endpointIdx r) /\
  match @selectEndpoint amd64 r visit_bca src 0%nat with
  | (Value (name, endpoint, r'), pos') =>
      Endpoints (cfg r) !! name = Some endpoint /\
      (r' = r \/ r' = set_endpointIdx r (uint64 (endpointIdx r + 1))) /\
      (pos' = 0%nat \/ pos' = 1%nat)
  | (Error _, _) => False
  | (Panic p, pos') =>
      EndpointSelectionConfig.Strategy (EndpointSelection (cfg r)) = "weighted" /\
      EndpointSelectionConfig.Weights (EndpointSelection (cfg r)) <> ∅ /\
      p = "crypto/rand: argument to Int is <= 0" /\ pos' = 0%nat
  end.
Proof.
  intros r src.
  assert (H1 : ranges_over visit_bca (Endpoints (cfg r))).
  { pose proof visits_range_over_endpoints as Hall.
    apply Forall_inv_tail, Forall_inv_tail, Forall_inv in Hall. exact Hall. }
  assert (H2 : visit_bca <> []) by done.
  assert (H3 : 0 <= endpointIdx r) by (simpl; lia).
  split; [exact (conj H1 (conj H2 H3)) |].
  exact (@selectEndpoint_configured amd64 r visit_bca src 0%nat H1 H2 H3).
Defined.

(** Under "weighted", a total weight below one thousandth makes the draw
    panic: for the weight 0.0005 (its nearest binary64 number) the argument
    of [rand.Int] is [int64(0.0005 * 1000)], that is 0. *)
Example selectEndpoint_small_weights_panic :
  let r := NewRunner
             {| BaseUrls := BaseUrls abc_config; Execution := Execution abc_config;
                Endpoints := Endpoints abc_config;
                EndpointSelection :=
                  {| EndpointSelectionConfig.Strategy := "weighted";
                     EndpointSelectionConfig.Weights :=
                       {[ "a" := 0x1.0624dd2f1a9fcp-11%float ]} |} |}
             metrics.NewCollector in
  @selectEndpoint amd64 r visit_abc (fun _ => rand.Number 7) 0%nat =
    (Panic "crypto/rand: argument to Int is <= 0", 0%nat).
Proof. vm_compute. reflexivity. Qed.

End rotation_facts.

(** ** The record of a request *)

Section record_facts.
Import Int config runner.

Lemma request_headers_User_Agent `{External} (headers : list (string * string)) :
  exists agent,
    request_headers headers !! CanonicalHeaderKey "User-Agent" = Some agent /\
    agent <> "".
Proof.
  unfold request_headers.
  match goal with |- context [fold_left ?f headers ∅] => set (set := fold_left f headers ∅) end.
  destruct (set !! CanonicalHeaderKey "User-Agent") as [agent |] eqn:Hset; simpl.
  - destruct (String.eqb_spec agent "") as [-> | Hne].
    + exists "benchmarking-tool/2.0". by rewrite lookup_insert_eq.
    + by exists agent.
  - exists "benchmarking-tool/2.0". by rewrite lookup_insert_eq.
Qed.

(** X15.  The record that [makeRequest] returns carries the method of the
    endpoint and the time at which it was built.  It is either the record
    of a failure (marked as an error, status code 0, a message that is not
    empty, the time since the start of the call as duration), or the record
    of a response: not an error, no message, the duration measured right
    after the client returned, and the status code the client got for a
    request to the URL of the record, with the method of the endpoint and
    a User-Agent header that is not empty.  [makeRequest] returns no error
    of its own. *)
Theorem makeRequest_record `{Platform} `{External} (baseURL endpointName : string)
    (endpoint : EndpointConfig.t) (a : Attempt) (src : rand.Reader) (pos : nat) :
  match fst (makeRequest baseURL endpointName endpoint a src pos) with
  | Value d =>
      metrics.Method d = EndpointConfig.Method endpoint /\
      metrics.Timestamp d = nowReport a /\
      ((metrics.IsError d = true /\ metrics.StatusCode d = 0 /\
        metrics.ErrorMsg d <> "" /\ metrics.Duration d = sinceReport a) \/
       (metrics.IsError d = false /\ metrics.ErrorMsg d = "" /\
        metrics.Duration d = sinceDo a /\
        exists req agent,
          Do a req = Response (metrics.StatusCode d) /\
          reqURL req = metrics.URL d /\ reqMethod req = metrics.Method d /\
          reqHeader req !! CanonicalHeaderKey "User-Agent" = Some agent /\
          agent <> ""))
  | Error _ => False
  | Panic _ => True
  end.
Proof.
  assert (Hfail : forall url msg, msg <> "" ->
    let d := createErrorMetric url (EndpointConfig.Method endpoint) msg a in
    metrics.Method d = EndpointConfig.Method endpoint /\
    metrics.Timestamp d = nowReport a /\
    ((metrics.IsError d = true /\ metrics.StatusCode d = 0 /\
      metrics.ErrorMsg d <> "" /\ metrics.Duration d = sinceReport a) \/
     (metrics.IsError d = false /\ metrics.ErrorMsg d = "" /\
      metrics.Duration d = sinceDo a /\
      exists req agent,
        Do a req = Response (metrics.StatusCode d) /\
        reqURL req = metrics.URL d /\ reqMethod req = metrics.Method d /\
        reqHeader req !! CanonicalHeaderKey "User-Agent" = Some agent /\
        agent <> ""))).
  { intros url msg Hmsg. cbn. split; [done |]. split; [done |]. left. by repeat split. }
  unfold makeRequest, rand.try.
  destruct (buildURL _ _ _ src pos) as [[fullURL | e | p] pos1]; simpl;
    [| by apply Hfail | done].
  match goal with
  | |- context [(if ?c then ?x else ?y) src pos1] =>
      destruct ((if c then x else y) src pos1) as [[fullURL' | e | p] pos2]
  end; simpl; [| by apply Hfail | done].
  match goal with
  | |- context [?m src pos2] =>
      destruct (m src pos2) as [[body | e | p] pos3]
  end; simpl; [| by apply Hfail | done].
  destruct (NewRequest_error _ fullURL') as [e |]; simpl; [by apply Hfail |].
  match goal with
  | |- context [Do a ?req] => destruct (Do a req) as [status | err] eqn:Hdo
  end; simpl.
  - split; [done |]. split; [done |]. right. repeat split.
    destruct (request_headers_User_Agent (headerRange a)) as (agent & Hagent & Hne).
    eexists _, agent. split; [exact Hdo |]. by repeat split.
  - apply Hfail, url_Error_not_empty.
Qed.

Lemma definition_map_generator `{Platform} `{External} (def : any)
    (defMap : list (string * any)) :
  definition_map def = Some defMap ->
  GetParameterGenerator def = createGeneratorFromMap defMap.
Proof.
  unfold definition_map, GetParameterGenerator, createGeneratorWithConfig.
  destruct def; intros Hmap; try discriminate; by injection Hmap as <-.
Qed.





End record_facts.

(** ** What a choice returns, and the defaults of a definition *)

Section definition_facts.
Import Int config.

Lemma rand_Int_uses (max : Z) (src : rand.Reader) (pos : nat) :
  match rand.Int max src pos with
  | (Value _, pos') => pos' = pos \/ pos' = S pos
  | (Error e, pos') => src pos = rand.Fails e /\ pos' = S pos
  | (Panic p, pos') => p = "crypto/rand: argument to Int is <= 0" /\ pos' = pos /\ max <= 0
  end.
Proof.
  unfold rand.Int. destruct (Z.leb_spec max 0); [done |].
  destruct (max =? 1); [by left |]. destruct (src pos); [done | by right].
Qed.

Lemma index_member (l : list any) (i : Z) :
  0 <= i < len l -> exists v, v ∈ l /\ index l i = Value v.
Proof.
  intros Hi. unfold len in Hi.
  destruct (l !! Z.to_nat i) as [v |] eqn:Hv.
  - exists v. split; [by eapply list_elem_of_lookup_2 |].
    apply index_lookup; [lia | done].
  - apply lookup_ge_None in Hv. lia.
Qed.

(** X17.  A choice returns only values of its list, under every
    configuration of weights and every state of the random source, which it
    uses at most once.  It returns an error when the list is empty, and
    else only when the source fails; it panics only in the draw of a
    weighted choice, never by an index out of range. *)
Theorem Choice_Generate_member `{Platform} (g : ChoiceGenerator)
    (src : rand.Reader) (pos : nat) :
  match ChoiceGenerator_Generate g src pos with
  | (Value v, pos') => v ∈ Values g /\ (pos' = pos \/ pos' = S pos)
  | (Error e, pos') =>
      (Values g = [] /\ e = "no values provided for choice generator" /\ pos' = pos) \/
      (exists msg, src pos = rand.Fails msg /\ pos' = S pos /\
         (e = ("failed to generate choice: " ++ msg)%string \/
          e = ("failed to generate weighted choice: " ++ msg)%string))
  | (Panic p, pos') =>
      p = "crypto/rand: argument to Int is <= 0" /\ pos' = pos /\
      Values g <> [] /\ length (Weights g) = length (Values g)
  end.
Proof.
  unfold ChoiceGenerator_Generate.
  destruct (Values g) as [| v0 vs] eqn:Hvalues; [by left |].
  assert (Hne : Values g <> []) by (by rewrite Hvalues).
  assert (Hlen : 0 < len (Values g))
    by (rewrite Hvalues; unfold len; simpl length; lia).
  rewrite <- Hvalues.
  destruct (Z.eqb_spec (len (Values g)) 0) as [Hzero | _]; [lia |].
  destruct ((0 <? len (Weights g)) && (len (Weights g) =? len (Values g))) eqn:Hweighted.
  - apply andb_prop in Hweighted as [_ Hsame]. apply Z.eqb_eq in Hsame.
    assert (Hsame' : length (Weights g) = length (Values g)) by (unfold len in Hsame; lia).
    unfold generateWeightedChoice.
    match goal with |- context [PrimFloat.leb ?t 0] => destruct (PrimFloat.leb t 0) end.
    { unfold rand.lift. rewrite index_first by done. split; [| by left].
      rewrite Hvalues. by left. }
    unfold mbind, rand_bind, rand.bind, rand.wrapping.
    match goal with |- context [rand.Int ?b src pos] =>
      pose proof (rand_Int_uses b src pos) as Huses;
      destruct (rand.Int b src pos) as [[num | e | p] pos1]
    end.
    + pose proof (walk_list_find (PrimFloat.div (float64_of_int num) 1000)
                    (Weights g) (Values g) 0 0%float (eq_sym Hsame')) as Hwalk.
      destruct (walk _ 0 0%float (Weights g)) as [j |]; unfold rand.lift.
      * destruct Hwalk as (k & v & cw & Hj & Hv & _).
        rewrite (index_lookup _ _ v); [| lia | by rewrite Hj, Z.add_0_l, Nat2Z.id].
        split; [by eapply list_elem_of_lookup_2 | done].
      * rewrite index_last by done. split; [| done].
        destruct (last (Values g)) as [v |] eqn:Hlast.
        -- apply last_Some in Hlast as [l' ->]. apply elem_of_app. right. by left.
        -- apply last_None in Hlast. done.
    + destruct Huses as [Hfail ->]. right. exists e. repeat split; try done. by right.
    + destruct Huses as (-> & -> & _). by repeat split.
  - unfold mbind, rand_bind, rand.bind, rand.wrapping.
    pose proof (rand_Int_uses (len (Values g)) src pos) as Huses.
    pose proof (rand_Int_pos (len (Values g)) src pos Hlen) as Hdraw.
    destruct (rand.Int (len (Values g)) src pos) as [[num | e | p] pos1];
      cbn beta iota in Hdraw.
    + unfold rand.lift. destruct (index_member (Values g) num Hdraw) as (v & Hin & ->).
      done.
    + destruct Huses as [Hfail ->]. right. exists e. repeat split; try done. by left.
    + done.
Qed.

(** X18.  An inline definition of type "randomInt" without a format, a map
    of either kind, whose "min" and "max" are integers or are left out:
    "min" defaults to 0 and "max" to 100.  The generator made from the
    definition returns [min] when [max < min]; with [min <= max] and a range
    whose size [max - min + 1] is an [int] it returns an integer of
    [[min, max]], or else the error of the random source, and does not
    panic; with a range whose size is not an [int] it panics. *)
Theorem randomInt_definition `{Platform} `{External} (def : any)
    (defMap : list (string * any)) (lo hi : option Z)
    (src : rand.Reader) (pos : nat) :
  definition_map def = Some defMap ->
  entry "$ref" defMap = None ->
  entry "type" defMap = Some (OfString "randomInt") ->
  entry "format" defMap = None ->
  entry "min" defMap = OfInt <$> lo ->
  entry "max" defMap = OfInt <$> hi ->
  let min := default 0 lo in
  let max := default 100 hi in
  in_int64 min -> in_int64 max ->
  exists gen,
    GetParameterGenerator def = Value gen /\
    (max < min -> Generate gen src pos = (Value (OfInt min), pos)) /\
    (min <= max -> max - min < max_int64 ->
       match fst (Generate gen src pos) with
       | Value v => exists k, v = OfInt k /\ min <= k <= max
       | Error e =>
           exists msg, src pos = rand.Fails msg /\
                       e = ("failed to generate random int: " ++ msg)%string
       | Panic _ => False
       end) /\
    (max_int64 <= max - min ->
       Generate gen src pos = (Panic "crypto/rand: argument to Int is <= 0", pos)).
Proof.
  intros Hmap Href Htype Hformat Hmin Hmax min max Hlo Hhi.
  exists {| Generate := RandomIntGenerator_Generate {| Min := min; Max := max |} |}.
  split.
  - rewrite (definition_map_generator def defMap Hmap). unfold createGeneratorFromMap.
    rewrite Href, Htype, Hformat, Hmin, Hmax. cbn.
    replace (getIntValue (OfInt <$> lo) 0) with min by (by destruct lo).
    by replace (getIntValue (OfInt <$> hi) 100) with max by (by destruct hi).
  - cbn [Generate]. split; [| split].
    + intros Hlt. unfold RandomIntGenerator_Generate. cbn [Min Max].
      destruct (Z.leb_spec max min); [reflexivity | lia].
    + intros Hle Hfit.
      exact (RandomInt_fits {| Min := min; Max := max |} src pos Hlo Hhi Hle Hfit).
    + intros Hwrap.
      exact (RandomInt_wraps {| Min := min; Max := max |} src pos Hlo Hhi Hwrap).
Qed.

Lemma randomInt_definition_witness :
  let def := OfMap [(OfString "type", OfString "randomInt"); (OfString "max", OfInt 5)] in
  let src : rand.Reader := fun _ => rand.Number 7 in
  (in_int64 0 /\ in_int64 5) /\
  exists gen,
    @GetParameterGenerator amd64 sample_library def = Value gen /\
    (5 < 0 -> Generate gen src 0%nat = (Value (OfInt 0), 0%nat)) /\
    (0 <= 5 -> 5 - 0 < max_int64 ->
       match fst (Generate gen src 0%nat) with
       | Value v => exists k, v = OfInt k /\ 0 <= k <= 5
       | Error e =>
           exists msg, src 0%nat = rand.Fails msg /\
                       e = ("failed to generate random int: " ++ msg)%string
       | Panic _ => False
       end) /\
    (max_int64 <= 5 - 0 ->
       Generate gen src 0%nat = (Panic "crypto/rand: argument to Int is <= 0", 0%nat)).
Proof.
  intros def src.
  assert (H1 : in_int64 0) by (unfold in_int64, min_int64, max_int64; lia).
  assert (H2 : in_int64 5) by (unfold in_int64, min_int64, max_int64; lia).
  split; [exact (conj H1 H2) |].
  exact (@randomInt_definition amd64 sample_library def
           [("type", OfString "randomInt"); ("max", OfInt 5)] None (Some 5) src 0%nat
           eq_refl eq_refl eq_refl eq_refl eq_refl eq_refl H1 H2).
Defined.

(** The definition above draws an integer of [[0, 5]]. *)
Example randomInt_definition_draw :
  match @GetParameterGenerator amd64 sample_library
          (OfMap [(OfString "type", OfString "randomInt"); (OfString "max", OfInt 5)]) with
  | Value gen => rand.run (Generate gen) (fun _ => rand.Number 7) = Value (OfInt 1)
  | _ => False
  end.
Proof. reflexivity. Qed.



End definition_facts.

(** ** What a run leaves behind *)

Section collection_facts.
Import Int config runner.

Lemma roundRobin_runner (r : Runner) (names : list string) :
  match roundRobin r names with
  | Value (_, r') => r' = set_endpointIdx r (uint64 (endpointIdx r + 1))
  | _ => True
  end.
Proof.
  unfold roundRobin. destruct (len names =? 0); [done |].
  by destruct (name_at names (endpointIdx r mod len names)).
Qed.

(** Of the runner, [selectEndpoint] changes at most the counter of
    endpoints. *)
Lemma selectEndpoint_runner `{Platform} (r : Runner)
    (visited : list (string * EndpointConfig.t)) src pos :
  match selectEndpoint r visited src pos with
  | (Value (_, _, r'), _) =>
      r' = r \/ r' = set_endpointIdx r (uint64 (endpointIdx r + 1))
  | _ => True
  end.
Proof.
  pose proof (roundRobin_runner r (visited.*1)) as Hrr.
  unfold selectEndpoint, mbind, rand_bind, mret, rand_ret, rand.bind, rand.ret.
  destruct (String.eqb _ "weighted").
  - unfold selectWeightedEndpoint, rand.lift.
    destruct (_ =? 0).
    { destruct (roundRobin r (visited.*1)) as [[n r1] | |]; [by right | done | done]. }
    destruct (PrimFloat.eqb _ 0).
    { destruct (roundRobin r (visited.*1)) as [[n r1] | |]; [by right | done | done]. }
    destruct (rand.Int _ src pos) as [[num | e | p] pos1]; [| | done].
    + destruct (walk_names _ _ _ _); [by left |].
      destruct (name_at _ _); [by left | done | done].
    + destruct (roundRobin r (visited.*1)) as [[n r1] | |]; [by right | done | done].
  - destruct (String.eqb _ "random").
    + unfold selectRandomEndpoint.
      destruct (rand.Int _ src pos) as [[num | e | p] pos1]; [| | done].
      * destruct (name_at _ _); [by left | done | done].
      * destruct (roundRobin r (visited.*1)) as [[n r1] | |]; [by right | done | done].
    + unfold rand.lift.
      destruct (roundRobin r (visited.*1)) as [[n r1] | |]; [by right | done | done].
Qed.

Lemma selectBaseURL_runner (r : Runner) :
  match selectBaseURL r with
  | Value (_, r') => r' = set_urlIdx r (uint64 (urlIdx r + 1))
  | _ => True
  end.
Proof.
  unfold selectBaseURL. destruct (len _ =? 0); [done |].
  by destruct (name_at _ _).
Qed.

(** A request task sends one record to the channel and leaves the
    configuration and the collector alone. *)
Lemma request_task_sends `{Platform} `{External} (r : Runner)
    (visited : list (string * EndpointConfig.t)) (attempt : Attempt) src pos :
  match request_task r visited attempt src pos with
  | (Value (_, r'), _) =>
      cfg r' = cfg r /\ collector r' = collector r /\
      exists detail, resultsCh r' = resultsCh r ++ [detail]
  | _ => True
  end.
Proof.
  pose proof (selectEndpoint_runner r visited src pos) as Hsel.
  unfold request_task, mbind, rand_bind, mret, rand_ret, rand.bind, rand.ret, rand.lift.
  destruct (selectEndpoint r visited src pos) as [[[[name endpoint] r1] | |] pos1];
    [| done | done].
  pose proof (selectBaseURL_runner r1) as Hurl.
  destruct (selectBaseURL r1) as [[url r2] | |]; [| done | done].
  destruct (makeRequest url name endpoint attempt src pos1) as [[detail | |] pos2];
    [| done | done].
  subst r2. cbn. destruct Hsel as [-> | ->]; cbn; by eauto.
Qed.

Lemma ticking_sends `{Platform} `{External} (totalDuration : Z) (src : rand.Reader) :
  forall (turns : list turn) (w : world) o w',
    ticking totalDuration turns src w = (o, w') ->
    cfg (runner_of w') = cfg (runner_of w) /\
    collector (runner_of w') = collector (runner_of w) /\
    exists new sent,
      dispatched w' = new ++ dispatched w /\
      resultsCh (runner_of w') = resultsCh (runner_of w) ++ sent /\
      length sent = length new /\
      Forall (fun t => in_time totalDuration t = true) (take (length new) turns).
Proof.
  assert (Hstop : forall (turns : list turn) (w : world),
    cfg (runner_of w) = cfg (runner_of w) /\
    collector (runner_of w) = collector (runner_of w) /\
    exists new sent : list _,
      dispatched w = new ++ dispatched w /\
      resultsCh (runner_of w) = resultsCh (runner_of w) ++ sent /\
      length sent = length new /\
      Forall (fun t => in_time totalDuration t = true) (take (length new) turns)).
  { intros turns w. split; [done |]. split; [done |]. exists [], [].
    rewrite app_nil_r. by repeat split. }
  induction turns as [| t rest IH]; intros w o w' Hrun.
  - cbn in Hrun. injection Hrun as <- <-. apply Hstop.
  - cbn [ticking] in Hrun.
    destruct (Z.leb_spec totalDuration (loopElapsed t)) as [Hlate | Hloop].
    { injection Hrun as <- <-. apply Hstop. }
    destruct (selected t) as [tickElapsed visited attempt |] eqn:Hselected;
      [| injection Hrun as <- <-; apply Hstop].
    destruct (Z.leb_spec totalDuration tickElapsed) as [Hlate | Htick].
    { injection Hrun as <- <-. apply Hstop. }
    pose proof (request_task_sends (runner_of w) visited attempt src (uses w)) as Htask.
    destruct (request_task (runner_of w) visited attempt src (uses w))
      as [[[d r'] | e | p] pos'].
    + destruct Htask as (Hcfg & Hcollector & detail & Hsent).
      apply IH in Hrun as (Hcfg' & Hcollector' & new & sent & Hnew & Hsent' & Hlen & Hall).
      cbn in *. split; [congruence |]. split; [congruence |].
      exists (new ++ [d]), (detail :: sent).
      rewrite Hnew, Hsent', Hsent, <- !app_assoc, !length_app. cbn.
      repeat split; [lia |].
      replace (length new + 1)%nat with (S (length new)) by lia. cbn.
      constructor; [| done]. unfold in_time. rewrite Hselected.
      apply andb_true_intro. split; apply Z.ltb_lt; lia.
    + injection Hrun as <- <-. cbn. apply (Hstop (t :: rest) w).
    + injection Hrun as <- <-. cbn. apply (Hstop (t :: rest) w).
Qed.

Lemma allRequests_fold (details : list metrics.MetricDetail) : forall c,
  metrics.allRequests (fold_left metrics.AppendDetail details c) =
  metrics.allRequests c ++ details.
Proof.
  induction details as [| d details IH]; intros c; cbn.
  - by rewrite app_nil_r.
  - rewrite IH. cbn. by rewrite <- app_assoc.
Qed.

(** X20.  When [Run] returns a result, the result is the empty one, the
    channel is empty, and the collector holds what it held, then what was
    waiting in the channel, then one record for each request task that was
    started, and nothing else; every task was started at a tick before the
    deadline, in a turn whose loop condition held.  The configuration is as
    it was. *)
Theorem Run_collects `{Platform} `{External} (turns : list turn) (src : rand.Reader)
    (w w' : world) (res : BenchmarkResult) :
  Run turns src w = (Value res, w') ->
  let execution := Execution (cfg (runner_of w)) in
  let totalDuration := int64 (ExecutionConfig.DurationSeconds execution * Second) in
  res = empty_result /\
  cfg (runner_of w') = cfg (runner_of w) /\
  resultsCh (runner_of w') = [] /\
  exists new sent,
    dispatched w' = new ++ dispatched w /\
    length sent = length new /\
    metrics.allRequests (collector (runner_of w')) =
      metrics.allRequests (collector (runner_of w)) ++ resultsCh (runner_of w) ++ sent /\
    Forall (fun t => in_time totalDuration t = true) (take (length new) turns).
Proof.
  intros Hrun execution totalDuration. unfold Run in Hrun.
  destruct (String.eqb _ "fixed"); [| by destruct (String.eqb _ "ramp")].
  unfold runFixedRPSMode in Hrun. fold execution totalDuration in Hrun.
  destruct (_ <=? 0); [done |]. destruct (_ =? 0); [done |].
  destruct (_ =? 0); [done |]. destruct (_ <=? 0); [done |].
  destruct (ticking totalDuration turns src w) as [[p |] w1] eqn:Hticking; [done |].
  injection Hrun as <- <-.
  apply ticking_sends in Hticking
    as (Hcfg & Hcollector & new & sent & Hnew & Hsent & Hlen & Hall).
  cbn. split; [done |]. split; [done |]. split; [done |].
  exists new, sent. split; [done |]. split; [done |]. split; [| done].
  by rewrite allRequests_fold, Hcollector, Hsent.
Qed.

Lemma Run_collects_witness :
  let src : rand.Reader := fun _ => rand.Number 7 in
  let w := start (NewRunner abc_config metrics.NewCollector) in
  let w' := snd (@Run amd64 sample_library two_ticks src w) in
  let totalDuration :=
    int64 (ExecutionConfig.DurationSeconds (Execution (cfg (runner_of w))) * Second) in
  empty_result = empty_result /\
  cfg (runner_of w') = cfg (runner_of w) /\
  resultsCh (runner_of w') = [] /\
  exists new sent,
    dispatched w' = new ++ dispatched w /\
    length sent = length new /\
    metrics.allRequests (collector (runner_of w')) =
      metrics.allRequests (collector (runner_of w)) ++ resultsCh (runner_of w) ++ sent /\
    Forall (fun t => in_time totalDuration t = true) (take (length new) two_ticks).
Proof.
  intros src w w' totalDuration.
  assert (Hrun : @Run amd64 sample_library two_ticks src w = (Value empty_result, w'))
    by (vm_compute; reflexivity).
  exact (@Run_collects amd64 sample_library two_ticks src w w' empty_result Hrun).
Defined.

(** X21.  In fixed mode, with endpoints and base URLs, a rate above one
    request per nanosecond makes [Run] panic in [time.NewTicker], whose
    interval [time.Second / rate] is then 0; nothing was started or
    recorded. *)
Theorem Run_rate_above_clock `{Platform} `{External} (turns : list turn)
    (src : rand.Reader) (w : world) :
  let c := cfg (runner_of w) in
  ExecutionConfig.Mode (Execution c) = "fixed" ->
  Second < ExecutionConfig.RequestsPerSecond (Execution c) ->
  Endpoints c <> ∅ -> BaseUrls c <> [] ->
  Run turns src w = (Panic "non-positive interval for NewTicker", w).
Proof.
  intros c Hmode Hrate Hendpoints Hurls. unfold Run, runFixedRPSMode. fold c.
  rewrite Hmode. cbn [String.eqb Ascii.eqb Bool.eqb].
  unfold Second in *.
  destruct (Z.leb_spec (ExecutionConfig.RequestsPerSecond (Execution c)) 0); [lia |].
  destruct (Z.eqb_spec (Z.of_nat (size (Endpoints c))) 0) as [Hsize | _].
  { destruct Hendpoints. apply map_size_empty_iff. lia. }
  destruct (Z.eqb_spec (len (BaseUrls c)) 0) as [Hlen | _].
  { destruct (BaseUrls c); [done | unfold len in Hlen; simpl length in Hlen; lia]. }
  unfold quo. rewrite Z.quot_small by lia. by cbn.
Qed.

Lemma Run_rate_above_clock_witness :
  let c := {| BaseUrls := BaseUrls abc_config;
              Execution := {| ExecutionConfig.Mode := "fixed";
                              ExecutionConfig.DurationSeconds := 1;
                              ExecutionConfig.RequestTimeoutMs := 5000;
                              ExecutionConfig.RequestsPerSecond := 2000000000 |};
              Endpoints := Endpoints abc_config;
              EndpointSelection := EndpointSelection abc_config |} in
  let w := start (NewRunner c metrics.NewCollector) in
  @Run amd64 sample_library two_ticks (fun _ => rand.Number 7) w =
    (Panic "non-positive interval for NewTicker", w).
Proof.
  intros c w.
  assert (Hrate : Second < ExecutionConfig.RequestsPerSecond (Execution (cfg (runner_of w))))
    by (unfold Second; simpl; lia).
  assert (Hendpoints : Endpoints (cfg (runner_of w)) <> ∅).
  { intros Hempty. apply (f_equal (fun m => m !! "a")) in Hempty. by vm_compute in Hempty. }
  assert (Hurls : BaseUrls (cfg (runner_of w)) <> []) by done.
  exact (@Run_rate_above_clock amd64 sample_library two_ticks (fun _ => rand.Number 7) w
           eq_refl Hrate Hendpoints Hurls).
Defined.

End collection_facts.

(** ** From the run to the report *)

Section report_facts.
Import Int config runner.

(** X22.  The steps of [main] after the configuration is loaded: a new
    collector, a new runner, [Run], then [GetResults].  When [Run] returns
    a result, the snapshot counts exactly the request tasks that were
    started, each of them as successful or as failed. *)
Theorem report_counts_started `{Platform} `{External} (c : Config) (turns : list turn)
    (src : rand.Reader) (w' : world) (res : BenchmarkResult) :
  Run turns src (start (NewRunner c metrics.NewCollector)) = (Value res, w') ->
  Z.of_nat (length (dispatched w')) <= max_int64 ->
  let results := metrics.GetResults (collector (runner_of w')) in
  metrics.TotalRequests results = Z.of_nat (length (dispatched w')) /\
  metrics.SuccessfulRequests results + metrics.FailedRequests results =
    metrics.TotalRequests results.
Proof.
  intros Hrun Hfit. unfold Run in Hrun.
  destruct (String.eqb _ "fixed"); [| by destruct (String.eqb _ "ramp")].
  unfold runFixedRPSMode in Hrun.
  destruct (_ <=? 0); [done |]. destruct (_ =? 0); [done |].
  destruct (_ =? 0); [done |]. destruct (_ <=? 0); [done |].
  match type of Hrun with
  | context [ticking ?total turns src ?w] =>
      destruct (ticking total turns src w) as [[p |] w1] eqn:Hticking; [done |]
  end.
  injection Hrun as <- <-.
  apply ticking_sends in Hticking
    as (Hcfg & Hcollector & new & sent & Hnew & Hsent & Hlen & Hall).
  cbn in *. rewrite app_nil_r in Hnew. rewrite Hnew in *.
  set (final := fold_left metrics.AppendDetail (resultsCh (runner_of w1))
                          (collector (runner_of w1))).
  assert (Hrecords : metrics.allRequests final = sent)
    by (unfold final; by rewrite allRequests_fold, Hcollector, Hsent).
  rewrite <- (ingest_allRequests final), Hrecords.
  destruct (GetResults_counters sent ltac:(lia)) as (Htotal & Hfailed & Hsuccessful).
  cbv zeta in Htotal, Hfailed, Hsuccessful.
  rewrite Htotal, Hfailed, Hsuccessful. split; lia.
Qed.

Lemma report_counts_started_witness :
  let src : rand.Reader := fun _ => rand.Number 7 in
  let w' := snd (@Run amd64 sample_library two_ticks src
                   (start (NewRunner abc_config metrics.NewCollector))) in
  let results := metrics.GetResults (collector (runner_of w')) in
  metrics.TotalRequests results = Z.of_nat (length (dispatched w')) /\
  metrics.SuccessfulRequests results + metrics.FailedRequests results =
    metrics.TotalRequests results.
Proof.
  intros src w'.
  assert (Hrun : @Run amd64 sample_library two_ticks src
                   (start (NewRunner abc_config metrics.NewCollector)) =
                 (Value empty_result, w'))
    by (vm_compute; reflexivity).
  assert (Hfit : Z.of_nat (length (dispatched w')) <= max_int64)
    by (vm_compute; discriminate).
  exact (@report_counts_started amd64 sample_library abc_config two_ticks src w'
           empty_result Hrun Hfit).
Defined.

End report_facts.

(** ** A loaded configuration *)

Section defaults_facts.
Import Int config runner.

(** X23.  A configuration with the defaults of [LoadConfig], whose mode was
    "fixed" or left out: [Run] rejects the rate exactly when the rate of the
    file is negative.  A rate of 0 is not rejected: the defaults have made
    it 10. *)
Theorem Run_rate_after_defaults `{Platform} `{External} (c0 : Config)
    (held : metrics.Collector) (turns : list turn) (src : rand.Reader) :
  let w := start (NewRunner (set_defaults c0) held) in
  ExecutionConfig.Mode (Execution c0) = "" \/
  ExecutionConfig.Mode (Execution c0) = "fixed" ->
  fst (Run turns src w) = Error "requestsPerSecond must be positive for fixed mode" <->
  ExecutionConfig.RequestsPerSecond (Execution c0) < 0.
Proof.
  intros w Hmode. unfold Run, runFixedRPSMode. cbn [w start runner_of NewRunner cfg].
  assert (Hfixed : ExecutionConfig.Mode (Execution (set_defaults c0)) = "fixed")
    by (unfold set_defaults; cbn; destruct Hmode as [-> | ->]; reflexivity).
  rewrite Hfixed. cbn [String.eqb Ascii.eqb Bool.eqb].
  assert (Hrate : ExecutionConfig.RequestsPerSecond (Execution (set_defaults c0)) <= 0 <->
                  ExecutionConfig.RequestsPerSecond (Execution c0) < 0).
  { unfold set_defaults. cbn.
    destruct (Z.eqb_spec (ExecutionConfig.RequestsPerSecond (Execution c0)) 0); lia. }
  destruct (Z.leb_spec (ExecutionConfig.RequestsPerSecond (Execution (set_defaults c0))) 0)
    as [Hle | Hgt].
  - cbn. split; [intros _; by apply Hrate | done].
  - split; [| intros Hneg; apply Hrate in Hneg; lia].
    destruct (_ =? 0); [done |]. destruct (_ =? 0); [done |].
    destruct (_ <=? 0); [done |].
    by destruct (ticking _ turns src _) as [[p |] w1].
Qed.

Lemma Run_rate_after_defaults_witness :
  let w := start (NewRunner (set_defaults zero_rate_config) metrics.NewCollector) in
  fst (@Run amd64 sample_library two_ticks (fun _ => rand.Number 7) w) =
    Error "requestsPerSecond must be positive for fixed mode" <->
  ExecutionConfig.RequestsPerSecond (Execution zero_rate_config) < 0.
Proof.
  exact (@Run_rate_after_defaults amd64 sample_library zero_rate_config
           metrics.NewCollector two_ticks (fun _ => rand.Number 7) (or_intror eq_refl)).
Defined.

(** The rate 0 of the file, once loaded, gives a run at 10 requests per
    second, which starts the two request tasks of two ticks. *)
Example Run_zero_rate_loaded :
  let '(o, w) := @Run amd64 sample_library two_ticks (fun _ => rand.Number 7)
                      (start (NewRunner (set_defaults zero_rate_config)
                                        metrics.NewCollector)) in
  o = Value empty_result /\ length (dispatched w) = 2%nat.
Proof. vm_compute. by split. Qed.

End defaults_facts.
